(** * The business wizard: endpoint, completion relay and wizard controller

    A shallow embedding of the TypeScript sources
      - [src/app/api/wizard/business/route.ts]  (plan and insight endpoint),
      - [src/unnamed/part_000]                  (completion relay, [/api/claude]),
      - [src/unnamed/part_002]                  (the client: form fields, wizard),
    followed by the properties of the specification that concern them.

    Conventions.  A JavaScript string is a [string]: its bytes are the UTF-8
    encoding of the text.  A JavaScript number that the code only compares,
    increments or uses as a key is a [Z].  [undefined] and an absent property
    are [None].  A value that is serialised with [NextResponse.json] or
    produced by [JSON.parse] is a [JsonValue]. *)

From stdpp Require Import base option list gmap strings pretty.
From Stdlib Require Import ZArith Lia Ascii.

Local Open Scope Z_scope.
Set Warnings "-register-all".

(** ** JavaScript values *)

(** JSON values.  An object keeps its members in source order; a number keeps
    the literal it was written with (its double-precision value is not
    needed by any function below). *)
Inductive JsonValue : Type :=
| JNull
| JBool (b : bool)
| JNum (literal : string)
| JStr (s : string)
| JArr (items : list JsonValue)
| JObj (members : list (string * JsonValue)).

(** [o.k] on a value: the last member named [k] of an object ([JSON.parse]
    lets a later duplicate win), [undefined] otherwise. *)
Fixpoint assoc_last (k : string) (ms : list (string * JsonValue)) : option JsonValue :=
  match ms with
  | [] => None
  | (k', v) :: rest =>
      match assoc_last k rest with
      | Some w => Some w
      | None => if String.eqb k k' then Some v else None
      end
  end.

Definition prop (k : string) (v : JsonValue) : option JsonValue :=
  match v with
  | JObj ms => assoc_last k ms
  | _ => None
  end.

(** The object without its members named [k]. *)
Definition without (k : string) (v : JsonValue) : JsonValue :=
  match v with
  | JObj ms => JObj (filter (λ m, negb (String.eqb k m.1)) ms)
  | _ => v
  end.

(** What a [throw] carries: an [Error] (or a subclass such as [TypeError] or
    [SyntaxError]) with its message, or some other value. *)
Inductive Thrown : Type :=
| JsError (message : string)
| NotAnError.

(** A number received in a request body: an integer, or a number that is not
    one (1.5, or the infinity that an oversized literal denotes). *)
Inductive JsNumber : Type :=
| Integral (z : Z)
| Fractional.

(** ** Strings *)

(** [Array.prototype.join] on an array of strings. *)
Fixpoint join (sep : string) (l : list string) : string :=
  match l with
  | [] => ""
  | [x] => x
  | x :: rest => x +:+ sep +:+ join sep rest
  end.

Fixpoint starts_with (p s : string) : bool :=
  match p, s with
  | EmptyString, _ => true
  | String a p', String b s' => Ascii.eqb a b && starts_with p' s'
  | String _ _, EmptyString => false
  end.

(** [String.prototype.includes]: [needle] occurs in [hay]. *)
Fixpoint includes (needle hay : string) : bool :=
  starts_with needle hay ||
  match hay with
  | EmptyString => false
  | String _ hay' => includes needle hay'
  end.

(** The double quote, and a text in which every apostrophe stands for one
    (so that the JSON templates of the source can be written legibly). *)
Definition dquote : ascii := ascii_of_nat 34.

Fixpoint quoted (s : string) : string :=
  match s with
  | EmptyString => EmptyString
  | String c s' => String (if Ascii.eqb c "'" then dquote else c) (quoted s')
  end.

(** ** The answer record *)

(** A field of the answer record holds free text (also used for a selection)
    or an ordered list of tags. *)
Inductive FieldValue : Type :=
| Text (s : string)
| Tags (l : list string).

#[global] Instance FieldValue_eq_dec : EqDecision FieldValue.
Proof. solve_decision. Defined.

(** [BusinessData]: a JavaScript object used as a map from field name to
    value. *)
Abbreviation AnswerRecord := (gmap string FieldValue).

(** Truthiness of [data.k]: [undefined] and the empty string are falsy, every
    array is truthy. *)
Definition truthy (v : option FieldValue) : bool :=
  match v with
  | None => false
  | Some (Text s) => negb (String.eqb s "")
  | Some (Tags _) => true
  end.

(** [`${data.k}`]: string conversion inside a template literal. *)
Definition to_string (v : option FieldValue) : string :=
  match v with
  | None => "undefined"
  | Some (Text s) => s
  | Some (Tags l) => join "," l
  end.

(** [`${data.k || d}`] *)
Definition or_else (v : option FieldValue) (d : string) : string :=
  if truthy v then to_string v else d.

(** The string and array fields of [businessDataSchema] (route.ts, lines 7-23). *)
Definition string_fields : list string :=
  [ "businessName"; "industry"; "targetMarket"; "currentRevenue";
    "marketPosition"; "budget"; "timeline"; "teamReadiness";
    "successCriteria"; "reportingFrequency" ].

Definition array_fields : list string :=
  [ "primaryChallenges"; "timeWasters"; "costCenters"; "competitors";
    "differentiators"; "aiGoals"; "kpis" ].

Definition is_text (v : option FieldValue) : bool :=
  match v with Some (Tags _) => false | _ => true end.

Definition is_tags (v : option FieldValue) : bool :=
  match v with Some (Text _) => false | _ => true end.

(** A record is valid when every field of the schema that it holds has the
    type the schema gives it: [z.string().optional()] or
    [z.array(z.string()).optional()]. *)
Definition valid_record (d : AnswerRecord) : bool :=
  forallb (λ k, is_text (d !! k)) string_fields &&
  forallb (λ k, is_tags (d !! k)) array_fields.

(** ** HTTP responses *)

Record Response (B : Type) : Type := mkResponse { status : Z; body : B }.
Arguments mkResponse {B} _ _.
Arguments status {B} _.
Arguments body {B} _.

(** What a route handler does besides answering. *)
Inductive ServerEffect : Type :=
| ConsoleError (label : string)
| ProviderFetch (apiKey prompt : string).

Definition is_external_call (e : ServerEffect) : bool :=
  match e with ProviderFetch _ _ => true | ConsoleError _ => false end.

(** * [src/app/api/wizard/business/route.ts] *)

Module BusinessRoute.

Inductive Action : Type := stepInsights | generatePlan.

(** A body accepted by [businessDataSchema.parse]. *)
Record Request : Type := mkRequest {
  action : Action;
  data : AnswerRecord;
  step : option JsNumber
}.

(** The request as the handler sees it: [request.json()] or the schema
    rejects it, or it parses to a [Request].  ([BusinessBody], further down,
    applies the schema to the body itself.) *)
Inductive Incoming : Type :=
| Malformed
| Parsed (r : Request).

(** The [insights] table of [generateStepInsights]. *)
Definition insights : list (Z * string) :=
  [ (1, "Based on your business foundation, consider focusing on B2B automation tools to scale efficiently.");
    (2, "Your challenges suggest high potential for AI-driven process automation and customer service bots.");
    (3, "Your competitive position indicates opportunities for AI-powered differentiation strategies.");
    (4, "Your AI goals align well with quick-win opportunities in customer service and data analytics.");
    (5, "Your success metrics suggest focusing on measurable ROI from AI implementations.") ].

(** [insights[step]] *)
Definition insights_at (step : JsNumber) : option string :=
  match step with
  | Integral z => snd <$> List.find (λ e, Z.eqb (fst e) z) insights
  | Fractional => None
  end.

Definition generic_insight : string :=
  "Continue to the next step for more insights.".

Definition suggestions : list string :=
  [ "Consider implementing chatbot automation";
    "Focus on data analytics for competitive advantage";
    "Automate repetitive customer service tasks" ].

(** [insights[step] || "Continue ..."]: the empty string would be falsy too. *)
Definition insight_for (step : JsNumber) : string :=
  match insights_at step with
  | Some s => if String.eqb s "" then generic_insight else s
  | None => generic_insight
  end.

Definition generateStepInsights (data : AnswerRecord) (step : JsNumber)
  : Response JsonValue :=
  mkResponse 200
    (JObj [ ("insights", JStr (insight_for step));
            ("suggestions", JArr (JStr <$> suggestions)) ]).


Definition strs (l : list string) : JsonValue := JArr (JStr <$> l).

(** The [plan] object of [generateBusinessPlan]. *)
Definition business_plan (data : AnswerRecord) : JsonValue :=
  JObj [
    ("executiveSummary", JStr
      ("Transform " +:+ or_else (data !! "businessName") "your business" +:+
       " into an AI-powered " +:+ or_else (data !! "industry") "industry" +:+
       " leader through strategic automation, intelligent customer engagement, and data-driven decision making."));
    ("quickWins", JArr [
      JObj [
        ("action", JStr "Implement AI-powered customer service chatbot");
        ("impact", JStr "Reduce response time by 80% and support costs by 60%");
        ("tools", strs ["ChatGPT API"; "Intercom"; "Zendesk"]);
        ("timeframe", JStr "30 days");
        ("budget", JStr "$2,000-5,000") ];
      JObj [
        ("action", JStr "Automate data entry and reporting processes");
        ("impact", JStr "Save 15+ hours per week on manual tasks");
        ("tools", strs ["Zapier"; "Microsoft Power Automate"; "Google Apps Script"]);
        ("timeframe", JStr "45 days");
        ("budget", JStr "$1,000-3,000") ];
      JObj [
        ("action", JStr "Deploy AI content generation for marketing");
        ("impact", JStr "Increase content output by 300% while reducing costs");
        ("tools", strs ["GPT-4"; "Jasper"; "Copy.ai"]);
        ("timeframe", JStr "60 days");
        ("budget", JStr "$500-1,500") ] ]);
    ("strategicInitiatives", JArr [
      JObj [
        ("initiative", JStr "Predictive Analytics Platform");
        ("description", JStr "Implement AI-driven analytics to predict customer behavior, optimize inventory, and identify growth opportunities");
        ("timeframe", JStr "3-6 months");
        ("budget", JStr "$15,000-30,000");
        ("roi", JStr "200-400% within 12 months") ];
      JObj [
        ("initiative", JStr "Intelligent CRM System");
        ("description", JStr "AI-enhanced customer relationship management with automated lead scoring, personalized communications, and predictive sales forecasting");
        ("timeframe", JStr "4-8 months");
        ("budget", JStr "$20,000-40,000");
        ("roi", JStr "150-300% within 18 months") ];
      JObj [
        ("initiative", JStr "Process Automation Suite");
        ("description", JStr "Comprehensive automation of core business processes including invoicing, scheduling, inventory management, and quality control");
        ("timeframe", JStr "6-12 months");
        ("budget", JStr "$25,000-50,000");
        ("roi", JStr "300-500% within 24 months") ] ]);
    ("implementationRoadmap", JObj [
      ("phase1", JStr "Foundation Building (Months 1-2): Deploy quick wins, establish data infrastructure, train team on AI tools");
      ("phase2", JStr "Strategic Implementation (Months 3-6): Launch predictive analytics, enhance customer systems, optimize processes");
      ("phase3", JStr "Market Domination (Months 7-12): Scale AI capabilities, develop competitive moats, expand market presence") ]);
    ("techStack", JArr [
      JObj [
        ("tool", JStr "OpenAI GPT-4 API");
        ("purpose", JStr "Natural language processing, content generation, customer service automation");
        ("integration", JStr "API integration with existing systems, custom prompts for business-specific use cases") ];
      JObj [
        ("tool", JStr "Zapier/Microsoft Power Automate");
        ("purpose", JStr "Workflow automation and system integration");
        ("integration", JStr "Connect existing tools and automate repetitive tasks across platforms") ];
      JObj [
        ("tool", JStr "Tableau/Power BI + AI Analytics");
        ("purpose", JStr "Advanced data visualization and predictive analytics");
        ("integration", JStr "Connect to business databases for real-time insights and forecasting") ];
      JObj [
        ("tool", JStr "HubSpot/Salesforce with AI");
        ("purpose", JStr "Intelligent customer relationship management");
        ("integration", JStr "AI-enhanced lead scoring, automated follow-ups, predictive sales analytics") ] ]);
    ("successMetrics", JArr [
      JObj [
        ("metric", JStr "Customer Service Efficiency");
        ("target", JStr "80% reduction in response time, 60% cost savings");
        ("measurement", JStr "Track response times, resolution rates, and support costs monthly") ];
      JObj [
        ("metric", JStr "Revenue Growth");
        ("target", JStr "25-40% increase in annual revenue through AI optimization");
        ("measurement", JStr "Monthly revenue tracking with AI attribution analysis") ];
      JObj [
        ("metric", JStr "Operational Efficiency");
        ("target", JStr "50% reduction in manual task time");
        ("measurement", JStr "Time tracking on automated vs manual processes weekly") ];
      JObj [
        ("metric", JStr "Customer Satisfaction");
        ("target", JStr "90%+ satisfaction score with AI-enhanced service");
        ("measurement", JStr "Monthly NPS surveys and customer feedback analysis") ] ]);
    ("competitiveAdvantages", strs [
      "24/7 AI-powered customer service";
      "Predictive analytics for market opportunities";
      "Automated quality control and consistency";
      "Personalized customer experiences at scale";
      "Data-driven decision making across all departments" ]);
    ("riskMitigation", JArr [
      JObj [
        ("risk", JStr "AI implementation complexity");
        ("mitigation", JStr "Phased rollout with extensive testing and team training") ];
      JObj [
        ("risk", JStr "Data privacy and security concerns");
        ("mitigation", JStr "Implement robust security protocols and compliance measures") ];
      JObj [
        ("risk", JStr "Employee resistance to change");
        ("mitigation", JStr "Comprehensive training programs and change management support") ] ])
  ].

Definition generateBusinessPlan (data : AnswerRecord) : Response JsonValue :=
  mkResponse 200 (JObj [ ("plan", business_plan data) ]).

(** [step || 1]: an absent step and the number 0 are falsy. *)
Definition step_or_1 (step : option JsNumber) : JsNumber :=
  match step with
  | None => Integral 1
  | Some (Integral 0) => Integral 1
  | Some n => n
  end.

(** [POST]: the response, and what the handler did besides answering.  The
    schema admits two actions only, so the final "Invalid action" answer is
    never reached. *)
Definition POST (req : Incoming) : Response JsonValue * list ServerEffect :=
  match req with
  | Parsed r =>
      match action r with
      | stepInsights => (generateStepInsights (data r) (step_or_1 (step r)), [])
      | generatePlan => (generateBusinessPlan (data r), [])
      end
  | Malformed =>
      (mkResponse 500 (JObj [ ("error", JStr "Internal server error") ]),
       [ ConsoleError "Business wizard API error:" ])
  end.

(** [GET]: the [id] query parameter, absent or empty, is falsy. *)
Definition GET (id : option string) : Response JsonValue :=
  match id with
  | Some s =>
      if String.eqb s "" then mkResponse 400 (JObj [ ("error", JStr "Plan ID required") ])
      else mkResponse 404 (JObj [ ("plan", JNull); ("message", JStr "Plan not found") ])
  | None => mkResponse 400 (JObj [ ("error", JStr "Plan ID required") ])
  end.

End BusinessRoute.

(** * [src/unnamed/part_000]: the completion relay, [POST /api/claude] *)

(** The JSON body of the relay's answer, as both ends use it:
    [{ success: true, content }] or [{ success: false, error, fallback: true }].
    A property that is not sent is [None] (or [false]). *)
Record ApiData : Type := mkApiData {
  success : bool;
  content : option string;
  error : option string;
  fallback : bool
}.

Module ClaudeRoute.

(** One block of the provider's [content] array. *)
Record ContentBlock : Type := mkBlock { text : option string }.

(** What the call to the provider's messages endpoint comes to. *)
Inductive ProviderReply : Type :=
| Unreachable (e : Thrown)
  (* [fetch] rejects *)
| Refused (status : Z) (errorData : Thrown + string)
  (* [response.ok] is false; [errorData] is what [response.text()] gives *)
| Garbled (e : Thrown)
  (* [response.json()] rejects, or [data.content[0]] raises *)
| Message (blocks : list ContentBlock).
  (* a 2xx reply whose [content] is an array *)

Record Env : Type := mkEnv {
  ANTHROPIC_API_KEY : option string;
  provider : string → string → ProviderReply   (* key, prompt *)
}.

(** [const { prompt } = await request.json()] *)
Inductive Incoming : Type :=
| Unreadable (e : Thrown)
| Body (prompt : string).

(** [process.env.ANTHROPIC_API_KEY] when it is truthy. *)
Definition configured_key (env : Env) : option string :=
  match ANTHROPIC_API_KEY env with
  | Some k => if String.eqb k "" then None else Some k
  | None => None
  end.

(** [data.content[0]?.text || 'No response generated'] *)
Definition first_text (blocks : list ContentBlock) : string :=
  match blocks with
  | b :: _ =>
      match text b with
      | Some t => if String.eqb t "" then "No response generated" else t
      | None => "No response generated"
      end
  | [] => "No response generated"
  end.

(** The body of the [try] block: the content it returns or the value it
    throws, with the effects up to that point. *)
Definition attempt (env : Env) (req : Incoming) : (Thrown + string) * list ServerEffect :=
  match req with
  | Unreadable e => (inl e, [])
  | Body prompt =>
      match configured_key env with
      | None => (inl (JsError "ANTHROPIC_API_KEY not configured"), [])
      | Some key =>
          let sent := [ ProviderFetch key prompt ] in
          match provider env key prompt with
          | Unreachable e => (inl e, sent)
          | Refused st (inl e) => (inl e, sent)
          | Refused st (inr errorData) =>
              (inl (JsError ("Claude API error: " +:+ pretty st)),
               sent ++ [ ConsoleError "Claude API error:" ])
          | Garbled e => (inl e, sent)
          | Message blocks => (inr (first_text blocks), sent)
          end
      end
  end.

(** [error instanceof Error ? error.message : 'Failed to generate AI response'] *)
Definition error_message (e : Thrown) : string :=
  match e with
  | JsError m => m
  | NotAnError => "Failed to generate AI response"
  end.

Definition POST (env : Env) (req : Incoming) : Response ApiData * list ServerEffect :=
  match attempt env req with
  | (inr c, fx) =>
      (mkResponse 200 (mkApiData true (Some c) None false), fx)
  | (inl e, fx) =>
      (mkResponse 500 (mkApiData false None (Some (error_message e)) true),
       fx ++ [ ConsoleError "Claude API error:" ])
  end.

(** The relay's ordinary per-request failure answer: HTTP 500 with
    [success: false] and [fallback: true]. *)
Definition is_request_failure (r : Response ApiData) : bool :=
  Z.eqb (status r) 500 && negb (success (body r)) && fallback (body r).

End ClaudeRoute.

(** * [src/unnamed/part_002]: the client *)

Module Wizard.

Record WizardStep : Type := mkStep {
  id : Z;
  title : string;
  description : string;
  fields : list string;
  icon : option string
}.

Definition businessWizardSteps : list WizardStep :=
  [ mkStep 1 "Business Foundation"
      "Define your core business model and target market"
      ["businessName"; "industry"; "targetMarket"; "currentRevenue"] (Some "🏢");
    mkStep 2 "Current Challenges"
      "Identify pain points and inefficiencies"
      ["primaryChallenges"; "timeWasters"; "costCenters"] (Some "⚠️");
    mkStep 3 "Competitive Analysis"
      "Understand your competitive landscape"
      ["competitors"; "differentiators"; "marketPosition"] (Some "🎯");
    mkStep 4 "AI Strategy Planning"
      "Define your AI implementation strategy"
      ["aiGoals"; "budget"; "timeline"; "teamReadiness"] (Some "🤖");
    mkStep 5 "Success Metrics"
      "Set measurable goals and KPIs"
      ["kpis"; "successCriteria"; "reportingFrequency"] (Some "📊") ].

(** [businessWizardSteps.length] *)
Definition N : Z := Z.of_nat (length businessWizardSteps).

(** ** State and effects *)

(** The state of [BusinessWizard]; [generatedPlan] starts as [null]. *)
Record WizardState : Type := mkState {
  currentStep : Z;
  formData : AnswerRecord;
  generatedPlan : JsonValue;
  loading : bool
}.

Definition initial : WizardState := mkState 1 ∅ JNull false.

(** What the component does that is visible from outside its state, in the
    order in which it happens. *)
Inductive Effect : Type :=
| SetLoading (b : bool)
| Fetch (prompt : string)              (* [fetch('/api/claude', ...)] *)
| ConsoleErr (label : string)
| SetGeneratedPlan (plan : JsonValue)
| OnComplete (data : AnswerRecord)     (* the parent's completion callback *)
| Unhandled (e : Thrown).              (* a rejected promise that nobody awaits *)

Record World : Type := mkWorld { wizard : WizardState; log : list Effect }.

Inductive Outcome (A : Type) : Type :=
| Ok (a : A)
| Throw (e : Thrown).
Arguments Ok {A} _.
Arguments Throw {A} _.

(** A computation that reads and writes the component's state, logs its
    effects, and returns or throws.  A [throw] keeps the state reached. *)
Definition Js (A : Type) : Type := World → Outcome A * World.

#[global] Instance Js_ret : MRet Js := λ A a w, (Ok a, w).
#[global] Instance Js_bind : MBind Js := λ A B f m w,
  match m w with
  | (Ok a, w') => f a w'
  | (Throw e, w') => (Throw e, w')
  end.
#[global] Instance Js_throw : MThrow Thrown Js := λ A e w, (Throw e, w).

(** [try { m } catch (e) { h e }] *)
Definition try_catch {A} (m : Js A) (h : Thrown → Js A) : Js A := λ w,
  match m w with
  | (Ok a, w') => (Ok a, w')
  | (Throw e, w') => h e w'
  end.

(** [try { m } finally { f }] *)
Definition try_finally {A} (m : Js A) (f : Js unit) : Js A := λ w,
  match m w with
  | (r, w') =>
      match f w' with
      | (Ok _, w'') => (r, w'')
      | (Throw e, w'') => (Throw e, w'')
      end
  end.

(** A promise that is started and not awaited: the caller goes on, a
    rejection stays unhandled. *)
Definition detached (m : Js unit) : Js unit := λ w,
  match m w with
  | (Ok _, w') => (Ok tt, w')
  | (Throw e, w') => (Ok tt, mkWorld (wizard w') (log w' ++ [Unhandled e]))
  end.

Definition emit (e : Effect) : Js unit := λ w,
  (Ok tt, mkWorld (wizard w) (log w ++ [e])).

Definition get : Js WizardState := λ w, (Ok (wizard w), w).

Definition modify (f : WizardState → WizardState) : Js unit := λ w,
  (Ok tt, mkWorld (f (wizard w)) (log w)).

Definition of_sum {A} (r : Thrown + A) : Js A :=
  match r with
  | inl e => mthrow e
  | inr a => mret a
  end.

Definition setCurrentStep (n : Z) : Js unit :=
  modify (λ s, mkState n (formData s) (generatedPlan s) (loading s)).

Definition setFormData (f : AnswerRecord → AnswerRecord) : Js unit :=
  modify (λ s, mkState (currentStep s) (f (formData s)) (generatedPlan s) (loading s)).

Definition setGeneratedPlan (p : JsonValue) : Js unit :=
  emit (SetGeneratedPlan p) ;;
  modify (λ s, mkState (currentStep s) (formData s) p (loading s)).

Definition setLoading (b : bool) : Js unit :=
  emit (SetLoading b) ;;
  modify (λ s, mkState (currentStep s) (formData s) (generatedPlan s) b).

Definition onComplete (data : AnswerRecord) : Js unit := emit (OnComplete data).

(** ** The environment of the client *)

(** What [fetch('/api/claude')] followed by [response.json()] comes to. *)
Inductive Fetched : Type :=
| NetworkError (e : Thrown)   (* [fetch] rejects *)
| NotJson (e : Thrown)        (* [response.json()] rejects, or its value has no properties *)
| Json (d : ApiData).

Record Env : Type := mkEnv {
  api_claude : string → Fetched;                 (* by prompt *)
  JSON_parse : string → option JsonValue         (* [None]: a SyntaxError *)
}.

(** ** [callClaudeAPI] *)

Definition fetch_json (env : Env) (prompt : string) : Js ApiData :=
  emit (Fetch prompt) ;;
  match api_claude env prompt with
  | NetworkError e => mthrow e
  | NotJson e => mthrow e
  | Json d => mret d
  end.

(** [data.error || 'Unknown error'] *)
Definition error_or_unknown (d : ApiData) : string :=
  match error d with
  | Some m => if String.eqb m "" then "Unknown error" else m
  | None => "Unknown error"
  end.

(** The result is [data.content], which is [undefined] ([None]) when the
    answer carries no content. *)
Definition callClaudeAPI (env : Env) (prompt : string) : Js (option string) :=
  try_catch
    (data ← fetch_json env prompt;
     if success data then mret (content data)
     else if fallback data then mthrow (JsError "API_FALLBACK")
     else mthrow (JsError (error_or_unknown data)))
    (λ error, emit (ConsoleErr "Claude API call failed:") ;; mthrow error).

(** [JSON.parse(response)]: the argument is first converted to a string. *)
Definition parse (env : Env) (response : option string) : Js JsonValue :=
  match JSON_parse env (default "undefined" response) with
  | Some v => mret v
  | None => mthrow (JsError "SyntaxError")
  end.

(** ** [FormField] *)

(** [onChange(e.target.value)] of a text input, a textarea or a select. *)
Definition text_onChange (input : string) : FieldValue := Text input.

(** [value?.includes(newValue)] on a tag list. *)
Definition has_tag (value : option (list string)) (t : string) : bool :=
  match value with
  | Some l => existsb (String.eqb t) l
  | None => false
  end.

(** The [onKeyPress] handler of a tags input: the argument of [onChange] when
    the handler calls it.  [trim] is [String.prototype.trim], [key] is
    [e.key] and [input] is [e.currentTarget.value]. *)
Definition tags_onKeyPress (trim : string → string)
    (value : option (list string)) (key input : string) : option (list string) :=
  if String.eqb key "Enter" then
    let newValue := trim input in
    if negb (String.eqb newValue "") && negb (has_tag value newValue)
    then Some (default [] value ++ [newValue])
    else None
  else None.

(** [value.filter((_, i) => p i)] *)
Fixpoint filter_index {A} (p : nat → bool) (i : nat) (l : list A) : list A :=
  match l with
  | [] => []
  | x :: rest =>
      if p i then x :: filter_index p (S i) rest else filter_index p (S i) rest
  end.

(** The [onClick] handler of the remove button of the tag at [index]. *)
Definition tags_onRemove (value : list string) (index : nat) : list string :=
  filter_index (λ i, negb (Nat.eqb i index)) 0%nat value.

(** ** [BusinessWizard] *)

(** [{ ...prev, ...newData }]: the members of [newData] win. *)
Definition merge (prev newData : AnswerRecord) : AnswerRecord := newData ∪ prev.

Definition updateFormData (newData : AnswerRecord) : Js unit :=
  setFormData (λ prev, merge prev newData).

(** The wiring of the step components,
    [onChange={(value) => onChange({ key: value })}]: what a field handler
    passes to [onChange], if anything, is merged under the field's key. *)
Definition field_onChange (key : string) (arg : option FieldValue) : Js unit :=
  match arg with
  | Some v => updateFormData {[ key := v ]}
  | None => mret tt
  end.

Definition newline : string := String (ascii_of_nat 10) EmptyString.

(** [data.k?.join(', ') || d]: a string has no [join]. *)
Definition joined_or (v : option FieldValue) (d : string) : Thrown + string :=
  match v with
  | None => inr d
  | Some (Tags l) => inr (if String.eqb (join ", " l) "" then d else join ", " l)
  | Some (Text _) => inl (JsError "join is not a function")
  end.

(** The template literal of [generatePlan], line by line; [challenges] and
    [goals] stand for the two joined lists. *)
Definition prompt_text (data : AnswerRecord) (challenges goals : string) : string :=
  join newline [
    "";
    "        Create a comprehensive AI business domination strategy for:";
    "        ";
    "        Business: " +:+ to_string (data !! "businessName");
    "        Industry: " +:+ to_string (data !! "industry");
    "        Current Revenue: " +:+ to_string (data !! "currentRevenue");
    "        Target Market: " +:+ to_string (data !! "targetMarket");
    "        ";
    "        Key Challenges: " +:+ challenges;
    "        AI Goals: " +:+ goals;
    "        Budget: " +:+ or_else (data !! "budget") "Not specified";
    "        Timeline: " +:+ or_else (data !! "timeline") "6 months";
    "        ";
    "        Generate a detailed JSON response with:";
    "        {";
    quoted "          'executiveSummary': '2-3 sentence strategic overview',";
    quoted "          'quickWins': [";
    "            {";
    quoted "              'action': 'specific actionable step',";
    quoted "              'impact': 'expected business outcome',";
    quoted "              'tools': ['AI tool recommendations'],";
    quoted "              'timeframe': '30-90 days'";
    "            }";
    "          ],";
    quoted "          'strategicInitiatives': [";
    "            {";
    quoted "              'initiative': 'major project name',";
    quoted "              'description': 'detailed description and benefits',";
    quoted "              'timeframe': '3-12 months',";
    quoted "              'budget': 'estimated investment',";
    quoted "              'roi': 'expected return percentage'";
    "            }";
    "          ],";
    quoted "          'implementationRoadmap': {";
    quoted "            'phase1': 'immediate actions (month 1-2)',";
    quoted "            'phase2': 'scaling phase (month 3-6)',";
    quoted "            'phase3': 'optimization phase (month 7-12)'";
    "          },";
    quoted "          'techStack': [";
    "            {";
    quoted "              'tool': 'specific AI tool/platform',";
    quoted "              'purpose': 'what it accomplishes',";
    quoted "              'integration': 'how to implement'";
    "            }";
    "          ],";
    quoted "          'successMetrics': [";
    "            {";
    quoted "              'metric': 'measurable KPI',";
    quoted "              'target': 'specific numerical goal',";
    quoted "              'measurement': 'how to track progress'";
    "            }";
    "          ]";
    "        }";
    "        ";
    "        Make this specific to their " +:+ to_string (data !! "industry") +:+ " business with actionable, industry-relevant recommendations.";
    "      " ].

Definition build_prompt (data : AnswerRecord) : Thrown + string :=
  match joined_or (data !! "primaryChallenges") "None specified" with
  | inl e => inl e
  | inr challenges =>
      match joined_or (data !! "aiGoals") "General improvement" with
      | inl e => inl e
      | inr goals => inr (prompt_text data challenges goals)
      end
  end.

Definition fallbackPlan (data : AnswerRecord) : JsonValue :=
  JObj [
    ("executiveSummary", JStr
      ("Transform " +:+ to_string (data !! "businessName") +:+
       " into an AI-powered industry leader through strategic automation and intelligent decision-making systems."));
    ("quickWins", JArr [
      JObj [
        ("action", JStr "Implement AI chatbot for customer service");
        ("impact", JStr "24/7 customer support with 60% cost reduction");
        ("tools", JArr [JStr "ChatGPT API"; JStr "Intercom"; JStr "Zendesk"]);
        ("timeframe", JStr "30 days") ];
      JObj [
        ("action", JStr "Automate data entry and reporting");
        ("impact", JStr "Save 15+ hours per week on manual tasks");
        ("tools", JArr [JStr "Zapier"; JStr "Microsoft Power Automate"; JStr "Google Apps Script"]);
        ("timeframe", JStr "45 days") ] ]);
    ("strategicInitiatives", JArr [
      JObj [
        ("initiative", JStr "Predictive Analytics Platform");
        ("description", JStr "Implement AI-driven analytics to predict customer behavior and optimize business decisions");
        ("timeframe", JStr "3-6 months");
        ("budget", JStr "$15,000-30,000");
        ("roi", JStr "200-400% within 12 months") ] ])
  ].

Definition generatePlan (env : Env) (data : AnswerRecord) : Js unit :=
  setLoading true ;;
  try_finally
    (prompt ← of_sum (build_prompt data);
     try_catch
       (response ← callClaudeAPI env prompt;
        plan ← parse env response;
        setGeneratedPlan plan ;;
        onComplete data)
       (λ _,
        setGeneratedPlan (fallbackPlan data) ;;
        onComplete data))
    (setLoading false).

(** [handleNext] starts [generatePlan] without awaiting it. *)
Definition handleNext (env : Env) : Js unit :=
  s ← get;
  if currentStep s <? N then setCurrentStep (currentStep s + 1)
  else detached (generatePlan env (formData s)).

Definition handlePrevious : Js unit :=
  s ← get;
  if 1 <? currentStep s then setCurrentStep (currentStep s - 1)
  else mret tt.

(** The world after a handler has run. *)
Definition after {A} (m : Js A) (w : World) : World := (m w).2.

(** The operations of the controller, and the worlds they lead to from the
    initial one. *)
Inductive Operation : Type :=
| Advance
| Retreat
| UpdateField (newData : AnswerRecord).

Definition perform (env : Env) (op : Operation) : Js unit :=
  match op with
  | Advance => handleNext env
  | Retreat => handlePrevious
  | UpdateField newData => updateFormData newData
  end.

Definition start : World := mkWorld initial [].

Inductive reachable (env : Env) : World → Prop :=
| reach_start : reachable env start
| reach_step w op : reachable env w → reachable env (after (perform env op) w).

End Wizard.

(** * The JavaScript runtime

    [JSON.parse] and [String.prototype.trim] are parameters of the client
    above.  The instances below follow ECMA-404 and the ECMAScript white
    space table; the concrete runs of this file use them. *)

Module Runtime.

Definition code (c : ascii) : Z := Z.of_N (N_of_ascii c).
Definition chr (z : Z) : ascii := ascii_of_N (Z.to_N z).

Definition bytes (l : list Z) : string :=
  fold_right (λ z s, String (chr z) s) EmptyString l.

(** [s] without the prefix [p], when it starts with it. *)
Fixpoint strip_prefix (p s : string) : option string :=
  match p, s with
  | EmptyString, _ => Some s
  | String a p', String b s' => if Ascii.eqb a b then strip_prefix p' s' else None
  | String _ _, EmptyString => None
  end.

Fixpoint rev_append (s acc : string) : string :=
  match s with
  | EmptyString => acc
  | String c s' => rev_append s' (String c acc)
  end.

Definition reverse (s : string) : string := rev_append s EmptyString.

(** ** [String.prototype.trim] *)

(** WhiteSpace and LineTerminator code points, in UTF-8. *)
Definition white_space : list string :=
  [ bytes [9]; bytes [10]; bytes [11]; bytes [12]; bytes [13]; bytes [32];
    bytes [194; 160]; bytes [225; 154; 128];
    bytes [226; 128; 128]; bytes [226; 128; 129]; bytes [226; 128; 130];
    bytes [226; 128; 131]; bytes [226; 128; 132]; bytes [226; 128; 133];
    bytes [226; 128; 134]; bytes [226; 128; 135]; bytes [226; 128; 136];
    bytes [226; 128; 137]; bytes [226; 128; 138];
    bytes [226; 128; 168]; bytes [226; 128; 169]; bytes [226; 128; 175];
    bytes [226; 129; 159]; bytes [227; 128; 128]; bytes [239; 187; 191] ].

Fixpoint strip_any (ps : list string) (s : string) : option string :=
  match ps with
  | [] => None
  | p :: rest =>
      match strip_prefix p s with
      | Some r => Some r
      | None => strip_any rest s
      end
  end.

(** Each round removes at least one byte, so [length s] rounds are enough. *)
Fixpoint strip_leading (ps : list string) (rounds : nat) (s : string) : string :=
  match rounds with
  | O => s
  | S n =>
      match strip_any ps s with
      | Some r => strip_leading ps n r
      | None => s
      end
  end.

Definition trim (s : string) : string :=
  let s1 := strip_leading white_space (String.length s) s in
  reverse (strip_leading (reverse <$> white_space) (String.length s1) (reverse s1)).

(** ** [JSON.parse] *)

Definition is_ws (c : ascii) : bool :=
  (code c =? 32) || (code c =? 9) || (code c =? 10) || (code c =? 13).

Definition is_digit (c : ascii) : bool := (48 <=? code c) && (code c <=? 57).

Fixpoint skip_ws (s : string) : string :=
  match s with
  | String c r => if is_ws c then skip_ws r else s
  | EmptyString => s
  end.

(** The longest prefix of digits, and what follows it. *)
Fixpoint digits (s : string) : string * string :=
  match s with
  | String c r =>
      if is_digit c then let '(d, rest) := digits r in (String c d, rest)
      else (EmptyString, s)
  | EmptyString => (EmptyString, s)
  end.

Definition nonempty (s : string) : bool := negb (String.eqb s "").

(** [int]: a zero, or digits that do not start with one. *)
Definition int_part (s : string) : option (string * string) :=
  match s with
  | String c r =>
      if code c =? 48 then Some ("0", r)
      else if is_digit c then Some (digits s)
      else None
  | EmptyString => None
  end.

Definition frac_part (s : string) : option (string * string) :=
  match s with
  | String "." r =>
      let '(d, rest) := digits r in
      if nonempty d then Some ("." +:+ d, rest) else None
  | _ => Some ("", s)
  end.

Definition exp_digits (mark : string) (s : string) : option (string * string) :=
  let '(d, rest) := digits s in
  if nonempty d then Some (mark +:+ d, rest) else None.

Definition exp_part (s : string) : option (string * string) :=
  match s with
  | String e r =>
      if (code e =? 101) || (code e =? 69) then
        match r with
        | String sign r' =>
            if (code sign =? 43) || (code sign =? 45)
            then exp_digits (String e (String sign "")) r'
            else exp_digits (String e "") r
        | EmptyString => None
        end
      else Some ("", s)
  | EmptyString => Some ("", s)
  end.

(** A number: its literal and the rest of the text. *)
Definition number (s : string) : option (string * string) :=
  let '(sign, s0) :=
    match s with
    | String "-" r => ("-", r)
    | _ => ("", s)
    end in
  '(i, s1) ← int_part s0;
  '(f, s2) ← frac_part s1;
  '(e, s3) ← exp_part s2;
  Some (sign +:+ i +:+ f +:+ e, s3).

Definition hex_digit (c : ascii) : option Z :=
  let n := code c in
  if (48 <=? n) && (n <=? 57) then Some (n - 48)
  else if (97 <=? n) && (n <=? 102) then Some (n - 87)
  else if (65 <=? n) && (n <=? 70) then Some (n - 55)
  else None.

Definition hex4 (a b c d : ascii) : option Z :=
  x ← hex_digit a; y ← hex_digit b; z ← hex_digit c; w ← hex_digit d;
  Some (((x * 16 + y) * 16 + z) * 16 + w).

(** The UTF-8 bytes of a code point; a lone surrogate is written like any
    other code point below 65536. *)
Definition utf8 (cp : Z) : string :=
  if cp <? 128 then bytes [cp]
  else if cp <? 2048 then bytes [192 + cp / 64; 128 + cp mod 64]
  else if cp <? 65536 then
    bytes [224 + cp / 4096; 128 + (cp / 64) mod 64; 128 + cp mod 64]
  else
    bytes [240 + cp / 262144; 128 + (cp / 4096) mod 64;
           128 + (cp / 64) mod 64; 128 + cp mod 64].

Definition is_high (u : Z) : bool := (55296 <=? u) && (u <=? 56319).
Definition is_low (u : Z) : bool := (56320 <=? u) && (u <=? 57343).

(** A pending high surrogate that no low surrogate followed. *)
Definition flush (pending : option Z) : string :=
  match pending with
  | Some h => utf8 h
  | None => ""
  end.

(** The escapes of one character. *)
Definition simple_escape (c : ascii) : option ascii :=
  let n := code c in
  if n =? 34 then Some (chr 34)          (* quote *)
  else if n =? 92 then Some (chr 92)     (* backslash *)
  else if n =? 47 then Some (chr 47)     (* slash *)
  else if n =? 98 then Some (chr 8)      (* b *)
  else if n =? 102 then Some (chr 12)    (* f *)
  else if n =? 110 then Some (chr 10)    (* n *)
  else if n =? 114 then Some (chr 13)    (* r *)
  else if n =? 116 then Some (chr 9)     (* t *)
  else None.

(** The text after an opening quote: the decoded string up to the closing
    quote, and what follows it.  [pending] is a high surrogate read from a
    [\u] escape and not yet written. *)
Fixpoint string_body (pending : option Z) (s : string) : option (string * string) :=
  match s with
  | EmptyString => None
  | String c r =>
      if code c =? 34 then Some (flush pending, r)
      else if code c =? 92 then
        match r with
        | String e r1 =>
            if code e =? 117 then
              match r1 with
              | String a (String b (String c' (String d r2))) =>
                  u ← hex4 a b c' d;
                  match pending with
                  | Some h =>
                      if is_low u then
                        '(str, rest) ← string_body None r2;
                        Some (utf8 (65536 + (h - 55296) * 1024 + (u - 56320)) +:+ str, rest)
                      else if is_high u then
                        '(str, rest) ← string_body (Some u) r2;
                        Some (utf8 h +:+ str, rest)
                      else
                        '(str, rest) ← string_body None r2;
                        Some (utf8 h +:+ utf8 u +:+ str, rest)
                  | None =>
                      if is_high u then string_body (Some u) r2
                      else
                        '(str, rest) ← string_body None r2;
                        Some (utf8 u +:+ str, rest)
                  end
              | _ => None
              end
            else
              x ← simple_escape e;
              '(str, rest) ← string_body None r1;
              Some (flush pending +:+ String x str, rest)
        | EmptyString => None
        end
      else if code c <? 32 then None
      else
        '(str, rest) ← string_body None r;
        Some (flush pending +:+ String c str, rest)
  end.

(** A value, the elements of an array after its bracket, and the members of
    an object after its brace.  Every call reads at least one character
    before the next one of its kind, so [fuel] bounds the nesting. *)
Fixpoint value (fuel : nat) (s : string) : option (JsonValue * string) :=
  match fuel with
  | O => None
  | S fuel' =>
      match skip_ws s with
      | EmptyString => None
      | String c r =>
          if code c =? 123 then
            match skip_ws r with
            | String "}" r' => Some (JObj [], r')
            | _ => '(ms, r') ← members fuel' r; Some (JObj ms, r')
            end
          else if code c =? 91 then
            match skip_ws r with
            | String "]" r' => Some (JArr [], r')
            | _ => '(vs, r') ← elements fuel' r; Some (JArr vs, r')
            end
          else if code c =? 34 then
            '(str, r') ← string_body None r; Some (JStr str, r')
          else if code c =? 116 then
            r' ← strip_prefix "true" (String c r); Some (JBool true, r')
          else if code c =? 102 then
            r' ← strip_prefix "false" (String c r); Some (JBool false, r')
          else if code c =? 110 then
            r' ← strip_prefix "null" (String c r); Some (JNull, r')
          else
            '(lit, r') ← number (String c r); Some (JNum lit, r')
      end
  end
with elements (fuel : nat) (s : string) : option (list JsonValue * string) :=
  match fuel with
  | O => None
  | S fuel' =>
      '(v, r) ← value fuel' s;
      match skip_ws r with
      | String "," r' => '(vs, r'') ← elements fuel' r'; Some (v :: vs, r'')
      | String "]" r' => Some ([v], r')
      | _ => None
      end
  end
with members (fuel : nat) (s : string) : option (list (string * JsonValue) * string) :=
  match fuel with
  | O => None
  | S fuel' =>
      match skip_ws s with
      | String c r =>
          if code c =? 34 then
            '(k, r1) ← string_body None r;
            match skip_ws r1 with
            | String ":" r2 =>
                '(v, r3) ← value fuel' r2;
                match skip_ws r3 with
                | String "," r4 => '(ms, r5) ← members fuel' r4; Some ((k, v) :: ms, r5)
                | String "}" r4 => Some ([(k, v)], r4)
                | _ => None
                end
            | _ => None
            end
          else None
      | EmptyString => None
      end
  end.

(** [JSON.parse]: one value and nothing after it; [None] is a SyntaxError. *)
Definition JSON_parse (text : string) : option JsonValue :=
  '(v, r) ← value (2 * String.length text + 2) text;
  if String.eqb (skip_ws r) "" then Some v else None.

End Runtime.

(** * Notions used by the statements *)

(** ** The shape of a generated plan

    The six named sections of a GeneratedPlan (specification, section 3),
    which are also the six keys that the prompt of [generatePlan] asks the
    provider for. *)

Definition is_str (o : option JsonValue) : bool :=
  match o with Some (JStr _) => true | _ => false end.

Definition is_jstr (v : JsonValue) : bool :=
  match v with JStr _ => true | _ => false end.

Definition all_items (p : JsonValue → bool) (o : option JsonValue) : bool :=
  match o with Some (JArr l) => forallb p l | _ => false end.

(** An object whose members named in [keys] are texts. *)
Definition has_texts (keys : list string) (v : JsonValue) : bool :=
  match v with
  | JObj _ => forallb (λ k, is_str (prop k v)) keys
  | _ => false
  end.

(** {action, impact, tool list, timeframe, optional budget} *)
Definition is_quick_win (v : JsonValue) : bool :=
  has_texts ["action"; "impact"; "timeframe"] v &&
  all_items is_jstr (prop "tools" v) &&
  match prop "budget" v with None | Some (JStr _) => true | _ => false end.

Definition is_GeneratedPlan (v : JsonValue) : bool :=
  is_str (prop "executiveSummary" v) &&
  all_items is_quick_win (prop "quickWins" v) &&
  all_items (has_texts ["initiative"; "description"; "timeframe"; "budget"; "roi"])
    (prop "strategicInitiatives" v) &&
  match prop "implementationRoadmap" v with
  | Some r => has_texts ["phase1"; "phase2"; "phase3"] r
  | None => false
  end &&
  all_items (has_texts ["tool"; "purpose"; "integration"]) (prop "techStack" v) &&
  all_items (has_texts ["metric"; "target"; "measurement"]) (prop "successMetrics" v).

(** The number of entries of a list-valued section. *)
Definition entries (o : option JsonValue) : nat :=
  match o with Some (JArr l) => length l | _ => 0%nat end.

(** ** Reading the effect log of the client *)

Definition loading_changes (l : list Wizard.Effect) : list bool :=
  omap (λ e, match e with Wizard.SetLoading b => Some b | _ => None end) l.

Definition relay_calls (l : list Wizard.Effect) : list string :=
  omap (λ e, match e with Wizard.Fetch p => Some p | _ => None end) l.

Definition plans_stored (l : list Wizard.Effect) : list JsonValue :=
  omap (λ e, match e with Wizard.SetGeneratedPlan p => Some p | _ => None end) l.

Definition completions (l : list Wizard.Effect) : list AnswerRecord :=
  omap (λ e, match e with Wizard.OnComplete d => Some d | _ => None end) l.

Definition rejections (l : list Wizard.Effect) : list Thrown :=
  omap (λ e, match e with Wizard.Unhandled t => Some t | _ => None end) l.

(** ** The relay as the client sees it *)

(** The text that [callClaudeAPI] hands to [JSON.parse]: there is one only
    when the relay answers [success: true]. *)
Definition relay_text (env : Wizard.Env) (prompt : string) : option string :=
  match Wizard.api_claude env prompt with
  | Wizard.Json d => if success d then Some (default "undefined" (content d)) else None
  | _ => None
  end.

(** The value parsed from the relay's text; [None] when the relay call fails
    or its text is not JSON. *)
Definition parsed_reply (env : Wizard.Env) (prompt : string) : option JsonValue :=
  relay_text env prompt ≫= Wizard.JSON_parse env.

(** The client talking to the relay of [part_000] under [renv]. *)
Definition via_relay (renv : ClaudeRoute.Env) (parse : string → option JsonValue)
  : Wizard.Env :=
  Wizard.mkEnv
    (λ prompt, Wizard.Json (body (ClaudeRoute.POST renv (ClaudeRoute.Body prompt)).1))
    parse.

(** What [callClaudeAPI] logs when it throws. *)
Definition call_errors (env : Wizard.Env) (prompt : string) : list Wizard.Effect :=
  match relay_text env prompt with
  | Some _ => []
  | None => [ Wizard.ConsoleErr "Claude API call failed:" ]
  end.

(** ** Sentences of the specification that the code does not satisfy

    Each is stated here as the specification has it, for one input; the
    properties below refute it at a sample input and prove what holds
    instead. *)

(** "Absence of the credential is a fatal configuration error, not a
    per-request error": without a credential the relay does not give its
    ordinary per-request failure answer. *)
Definition credential_absence_is_fatal
    (env : ClaudeRoute.Env) (req : ClaudeRoute.Incoming) : Prop :=
  ClaudeRoute.configured_key env = None →
  ClaudeRoute.is_request_failure (ClaudeRoute.POST env req).1 = false.

(** "For all valid AnswerRecord, Plan Synthesizer ... always returns a
    structurally valid GeneratedPlan (either AI-sourced or fallback)." *)
Definition always_a_GeneratedPlan
    (env : Wizard.Env) (data : AnswerRecord) (w : Wizard.World) : Prop :=
  valid_record data = true →
  ∃ w', Wizard.generatePlan env data w = (Wizard.Ok tt, w') ∧
        is_GeneratedPlan (Wizard.generatedPlan (Wizard.wizard w')) = true.

(** "When the completion relay is forced to fail ..., Plan Synthesizer's
    output must exactly equal the static fallback shape parameterized with
    the given business name/industry (or generic text if absent)", with an
    executive summary that contains both and at least one quick win.  The
    generic texts are those of the endpoint's static plan. *)
Definition fallback_names_business_and_industry
    (env : Wizard.Env) (data : AnswerRecord) (w : Wizard.World) : Prop :=
  ∀ prompt, Wizard.build_prompt data = inr prompt →
  parsed_reply env prompt = None →
  let plan := Wizard.generatedPlan (Wizard.wizard (Wizard.after (Wizard.generatePlan env data) w)) in
  ∃ summary,
    prop "executiveSummary" plan = Some (JStr summary) ∧
    includes (or_else (data !! "businessName") "your business") summary = true ∧
    includes (or_else (data !! "industry") "industry") summary = true ∧
    (1 ≤ entries (prop "quickWins" plan))%nat.

(** "For every step value in {1,2,3,4,5}, the Step Insight Provider returns
    a non-empty step-specific insight string and exactly 3 suggestion
    strings; for every step value outside {1,2,3,4,5}, it returns the generic
    fallback insight ... together with the same 3 suggestion strings", of
    the answer of the endpoint to a [stepInsights] request that carries the
    step. *)
Definition insight_follows_step (data : AnswerRecord) (step : JsNumber) : Prop :=
  let answer :=
    body (BusinessRoute.POST
            (BusinessRoute.Parsed
               (BusinessRoute.mkRequest BusinessRoute.stepInsights data (Some step)))).1 in
  prop "suggestions" answer = Some (BusinessRoute.strs BusinessRoute.suggestions) ∧
  entries (prop "suggestions" answer) = 3%nat ∧
  (∀ z, step = Integral z → 1 ≤ z ≤ 5 →
     ∃ s, prop "insights" answer = Some (JStr s) ∧
          BusinessRoute.insights_at step = Some s ∧ s ≠ "") ∧
  ((∀ z, step = Integral z → ¬ (1 ≤ z ≤ 5)) →
     prop "insights" answer = Some (JStr BusinessRoute.generic_insight)).

(** ** Sample inputs *)

Definition acme : AnswerRecord :=
  {[ "businessName" := Text "Acme"; "industry" := Text "Retail" ]}.

(** No credential; the provider would answer, were it asked. *)
Definition no_credential : ClaudeRoute.Env :=
  ClaudeRoute.mkEnv None (λ _ _, ClaudeRoute.Message [ClaudeRoute.mkBlock (Some "{}")]).

(** A provider that answers with the text [42]. *)
Definition answers_42 : ClaudeRoute.Env :=
  ClaudeRoute.mkEnv (Some "sk-test")
    (λ _ _, ClaudeRoute.Message [ClaudeRoute.mkBlock (Some "42")]).

(** A provider that refuses with status 503. *)
Definition overloaded : ClaudeRoute.Env :=
  ClaudeRoute.mkEnv (Some "sk-test") (λ _ _, ClaudeRoute.Refused 503 (inr "overloaded")).

(** * [route.ts] on the body as it arrives

    [BusinessRoute.POST] takes the request as [businessDataSchema.parse]
    leaves it.  Here the schema is applied to the value that
    [request.json()] yields, and [POST] is followed [return] by [return]. *)

Module BusinessBody.

(** [z.string().optional()] on a member of [data]: the outer [None] is a
    refusal, the inner one an absent member. *)
Definition optional_string (v : option JsonValue) : option (option FieldValue) :=
  match v with
  | None => Some None
  | Some (JStr s) => Some (Some (Text s))
  | Some _ => None
  end.

(** [z.array(z.string())] on the items of an array. *)
Fixpoint strings (items : list JsonValue) : option (list string) :=
  match items with
  | [] => Some []
  | JStr s :: rest => (s ::.) <$> strings rest
  | _ :: _ => None
  end.

(** [z.array(z.string()).optional()] *)
Definition optional_strings (v : option JsonValue) : option (option FieldValue) :=
  match v with
  | None => Some None
  | Some (JArr items) => (λ l, Some (Tags l)) <$> strings items
  | Some _ => None
  end.

(** The members of a [z.object] named by [keys], each read with [read] and
    added to [acc]; members that the schema does not name are left out. *)
Fixpoint members (read : option JsonValue → option (option FieldValue))
    (keys : list string) (obj : JsonValue) (acc : AnswerRecord)
  : option AnswerRecord :=
  match keys with
  | [] => Some acc
  | k :: rest =>
      match read (prop k obj) with
      | None => None
      | Some None => members read rest obj acc
      | Some (Some v) => members read rest obj (<[ k := v ]> acc)
      end
  end.

(** What [businessDataSchema.parse] returns. *)
Record Fields : Type := mkFields {
  action : string;
  data : AnswerRecord;
  step : option JsNumber
}.

Definition actions : list string := [ "stepInsights"; "generatePlan" ].

(** [z.enum(['stepInsights', 'generatePlan'])] *)
Definition action_schema (v : option JsonValue) : option string :=
  match v with
  | Some (JStr a) => if bool_decide (a ∈ actions) then Some a else None
  | _ => None
  end.

(** The [z.object] of [data] (lines 6-24). *)
Definition data_schema (v : option JsonValue) : option AnswerRecord :=
  match v with
  | Some (JObj ms) =>
      texts ← members optional_string string_fields (JObj ms) ∅;
      members optional_strings array_fields (JObj ms) texts
  | _ => None
  end.

(** [z.number().optional()].  [number] gives what [z.number()] makes of a
    number of the body, written with the given literal: its value, or [None]
    when it refuses it. *)
Definition step_schema (number : string → option JsNumber) (v : option JsonValue)
  : option (option JsNumber) :=
  match v with
  | None => Some None
  | Some (JNum literal) => Some <$> number literal
  | Some _ => None
  end.

(** [businessDataSchema.parse(body)]; [None] when it throws. *)
Definition businessDataSchema (number : string → option JsNumber) (body : JsonValue)
  : option Fields :=
  match body with
  | JObj _ =>
      a ← action_schema (prop "action" body);
      d ← data_schema (prop "data" body);
      st ← step_schema number (prop "step" body);
      Some (mkFields a d st)
  | _ => None
  end.

(** What [request.json()] comes to. *)
Inductive Arrival : Type :=
| NotJson                      (* [request.json()] rejects *)
| Arrived (body : JsonValue).

(** The [catch] block of [POST]. *)
Definition internal_error : Response JsonValue * list ServerEffect :=
  (mkResponse 500 (JObj [ ("error", JStr "Internal server error") ]),
   [ ConsoleError "Business wizard API error:" ]).

Definition POST (number : string → option JsNumber) (a : Arrival)
  : Response JsonValue * list ServerEffect :=
  match a with
  | NotJson => internal_error
  | Arrived body =>
      match businessDataSchema number body with
      | None => internal_error
      | Some f =>
          if String.eqb (action f) "stepInsights" then
            (BusinessRoute.generateStepInsights (data f) (BusinessRoute.step_or_1 (step f)), [])
          else if String.eqb (action f) "generatePlan" then
            (BusinessRoute.generateBusinessPlan (data f), [])
          else
            (mkResponse 400 (JObj [ ("error", JStr "Invalid action") ]), [])
      end
  end.

End BusinessBody.

(** * [src/unnamed/part_002]: what the wizard renders, and its events *)

(** [if (v)] on a JSON value.  Whether a number is zero depends on its
    double-precision value, so that test, [nonzero], is left to the runtime. *)
Definition json_truthy (nonzero : string → bool) (v : JsonValue) : bool :=
  match v with
  | JNull => false
  | JBool b => b
  | JNum literal => nonzero literal
  | JStr s => negb (String.eqb s "")
  | JArr _ => true
  | JObj _ => true
  end.

Module WizardView.
Import Wizard.

(** ** [StepIndicator] *)

(** The circle of a step: green with a check mark, blue, or gray. *)
Inductive Circle : Type := Completed | Current | Upcoming.

Inductive Mark : Type := CheckMark | Number (n : Z).

(** One step of the indicator; [connector] is the bar to the next step,
    green ([true]) or gray, when there is one. *)
Record StepDot : Type := mkDot {
  circle : Circle;
  mark : Mark;
  connector : option bool
}.

Definition StepIndicator (steps : list WizardStep) (currentStep : Z) : list StepDot :=
  imap (λ index step,
    mkDot
      (if id step <? currentStep then Completed
       else if currentStep =? id step then Current
       else Upcoming)
      (if id step <? currentStep then CheckMark else Number (id step))
      (if Z.of_nat index <? Z.of_nat (length steps) - 1
       then Some (id step <? currentStep)
       else None))
    steps.

(** ** The step components *)

(** The props of one [FormField] as a step component passes them: [reads] is
    the member of [data] given as [value], [writes] the member that the
    field's [onChange] sets. *)
Record FormFieldProps : Type := mkField {
  label : string;
  type : string;
  reads : string;
  writes : string;
  options : list string;
  placeholder : string;
  required : bool
}.

Definition BusinessStep1 : list FormFieldProps :=
  [ mkField "Business Name" "text" "businessName" "businessName" []
      "Enter your business name" true;
    mkField "Industry" "select" "industry" "industry"
      ["Technology"; "Healthcare"; "Finance"; "Retail"; "Manufacturing";
       "Professional Services"; "Education"; "Real Estate"; "Other"]
      "" true;
    mkField "Target Market" "text" "targetMarket" "targetMarket" []
      "e.g., Small businesses, Enterprise clients, Consumers" true;
    mkField "Current Annual Revenue" "select" "currentRevenue" "currentRevenue"
      ["Under $100K"; "$100K-500K"; "$500K-1M"; "$1M-5M"; "$5M-10M"; "$10M+"]
      "" true ].

Definition BusinessStep2 : list FormFieldProps :=
  [ mkField "Primary Business Challenges" "tags" "primaryChallenges" "primaryChallenges" []
      "Type a challenge and press Enter (e.g., Manual processes, Customer retention)" false;
    mkField "Time Wasters" "tags" "timeWasters" "timeWasters" []
      "Type a time waster and press Enter (e.g., Excessive meetings, Email management)" false;
    mkField "Major Cost Centers" "tags" "costCenters" "costCenters" []
      "Type a cost center and press Enter (e.g., Overtime, Customer support)" false ].

Definition BusinessStep3 : list FormFieldProps :=
  [ mkField "Main Competitors" "tags" "competitors" "competitors" []
      "Type competitor names and press Enter" false;
    mkField "Your Key Differentiators" "tags" "differentiators" "differentiators" []
      "What makes you unique? (e.g., Personal service, Advanced technology)" false;
    mkField "Current Market Position" "select" "marketPosition" "marketPosition"
      ["Market Leader"; "Strong Competitor"; "Growing Player"; "Niche Specialist";
       "New Entrant"]
      "" false ].

Definition BusinessStep4 : list FormFieldProps :=
  [ mkField "AI Implementation Goals" "tags" "aiGoals" "aiGoals" []
      "What do you want AI to help with? (e.g., Automate customer service, Improve efficiency)" false;
    mkField "Budget Range for AI Implementation" "select" "budget" "budget"
      ["Under $5K"; "$5K-15K"; "$15K-50K"; "$50K-100K"; "$100K+"] "" false;
    mkField "Implementation Timeline" "select" "timeline" "timeline"
      ["1-3 months"; "3-6 months"; "6-12 months"; "12+ months"] "" false;
    mkField "Team AI Readiness" "select" "teamReadiness" "teamReadiness"
      ["Very Ready"; "Somewhat Ready"; "Need Training"; "Starting from Scratch"]
      "" false ].

Definition BusinessStep5 : list FormFieldProps :=
  [ mkField "Key Performance Indicators (KPIs)" "tags" "kpis" "kpis" []
      "What metrics matter most? (e.g., Revenue growth, Customer satisfaction, Efficiency)" false;
    mkField "Success Criteria" "textarea" "successCriteria" "successCriteria" []
      "Define what success looks like for your AI implementation..." false;
    mkField "Reporting Frequency" "select" "reportingFrequency" "reportingFrequency"
      ["Weekly"; "Bi-weekly"; "Monthly"; "Quarterly"] "" false ].

(** The [switch] of [renderCurrentStep]. *)
Definition renderCurrentStep (currentStep : Z) : list FormFieldProps :=
  match currentStep with
  | 1 => BusinessStep1
  | 2 => BusinessStep2
  | 3 => BusinessStep3
  | 4 => BusinessStep4
  | 5 => BusinessStep5
  | _ => BusinessStep1
  end.

(** [businessWizardSteps[currentStep - 1]], the step whose icon, title and
    description head the form. *)
Definition heading (currentStep : Z) : option WizardStep :=
  if currentStep - 1 <? 0 then None
  else businessWizardSteps !! Z.to_nat (currentStep - 1).

(** The text of the right-hand button. *)
Definition next_label (s : WizardState) : string :=
  if loading s then "Generating Plan..."
  else if currentStep s =? N then "Generate Strategy"
  else "Next".

(** ** What can happen in the form *)

Definition is_tags_field (f : FormFieldProps) : bool := String.eqb (type f) "tags".

(** The [value] of a tags field as its render and handlers use it.  A text
    that is not empty has no [map], so the field cannot be rendered
    (the outer [None]); the empty text is falsy and counts as no list. *)
Definition tags_value (v : option FieldValue) : option (option (list string)) :=
  match v with
  | None => Some None
  | Some (Tags l) => Some (Some l)
  | Some (Text s) => if String.eqb s "" then Some None else None
  end.

(** Every tags field of the step can be rendered. *)
Definition renders (data : AnswerRecord) (fs : list FormFieldProps) : bool :=
  forallb (λ f,
    if is_tags_field f
    then match tags_value (data !! reads f) with Some _ => true | None => false end
    else true) fs.

(** The component shows the form, and not the plan. *)
Definition form_shown (nonzero : string → bool) (s : WizardState) : bool :=
  negb (json_truthy nonzero (generatedPlan s)) &&
  renders (formData s) (renderCurrentStep (currentStep s)).

(** What [e.target.value] of the field can be: any text, or for a select the
    empty choice or one of its options. *)
Definition admits (f : FormFieldProps) (input : string) : bool :=
  if String.eqb (type f) "select"
  then existsb (String.eqb input) ("" :: options f)
  else true.

(** The events of the form; a field is named by its position in the step. *)
Inductive UiEvent : Type :=
| Change (field : nat) (input : string)
| KeyPress (field : nat) (key input : string)
| ClickRemove (field : nat) (index : nat)
| ClickNext
| ClickPrevious.

(** The world after the event, or [None] when the control that raises it is
    not there or is disabled.  The plan display has no handlers. *)
Definition dispatch (trim : string → string) (nonzero : string → bool)
    (env : Env) (ev : UiEvent) (w : World) : option World :=
  let s := wizard w in
  if form_shown nonzero s then
    match ev with
    | Change i input =>
        f ← renderCurrentStep (currentStep s) !! i;
        if negb (is_tags_field f) && admits f input
        then Some (after (field_onChange (writes f) (Some (text_onChange input))) w)
        else None
    | KeyPress i key input =>
        f ← renderCurrentStep (currentStep s) !! i;
        if is_tags_field f then
          value ← tags_value (formData s !! reads f);
          Some (after (field_onChange (writes f)
                         (Tags <$> tags_onKeyPress trim value key input)) w)
        else None
    | ClickRemove i index =>
        f ← renderCurrentStep (currentStep s) !! i;
        if is_tags_field f then
          match tags_value (formData s !! reads f) with
          | Some (Some l) =>
              if (index <? length l)%nat
              then Some (after (field_onChange (writes f)
                                  (Some (Tags (tags_onRemove l index)))) w)
              else None
          | _ => None
          end
        else None
    | ClickNext =>
        if loading s then None else Some (after (handleNext env) w)
    | ClickPrevious =>
        if currentStep s =? 1 then None else Some (after handlePrevious w)
    end
  else None.

End WizardView.

(** ** [AIAssistant] *)

Module Assistant.
Import Wizard.

Record AssistantState : Type := mkAssistant {
  suggestions : list JsonValue;
  loading : bool
}.

Definition initial : AssistantState := mkAssistant [] false.

(** The assistant's own state, beside the world in which [callClaudeAPI]
    runs. *)
Definition M (A : Type) : Type :=
  AssistantState * World → Outcome A * (AssistantState * World).

#[global] Instance M_ret : MRet M := λ A a s, (Ok a, s).
#[global] Instance M_bind : MBind M := λ A B f m s,
  match m s with
  | (Ok a, s') => f a s'
  | (Throw e, s') => (Throw e, s')
  end.

Definition lift {A} (m : Js A) : M A := λ s,
  match m s.2 with
  | (r, w') => (r, (s.1, w'))
  end.

Definition try_catch {A} (m : M A) (h : Thrown → M A) : M A := λ s,
  match m s with
  | (Ok a, s') => (Ok a, s')
  | (Throw e, s') => h e s'
  end.

Definition try_finally {A} (m : M A) (f : M unit) : M A := λ s,
  match m s with
  | (r, s') =>
      match f s' with
      | (Ok _, s'') => (r, s'')
      | (Throw e, s'') => (Throw e, s'')
      end
  end.

Definition setSuggestions (l : list JsonValue) : M unit := λ s,
  (Ok tt, (mkAssistant l (loading s.1), s.2)).

Definition setLoading (b : bool) : M unit := λ s,
  (Ok tt, (mkAssistant (suggestions s.1) b, s.2)).

(** The prompt, given the text of [JSON.stringify(context)]. *)
Definition prompt (context : string) : string :=
  "Based on this business context: " +:+ context +:+
  ", provide 3 specific, actionable suggestions for AI implementation. Return as a JSON array of strings.".

Definition fallback_suggestions : list JsonValue :=
  [ JStr "Consider implementing AI chatbots for customer service automation";
    JStr "Use AI for predictive analytics to optimize your operations";
    JStr "Implement AI-powered content generation for marketing" ].

(** [Array.isArray(parsed) ? parsed : []] *)
Definition array_or_empty (parsed : JsonValue) : list JsonValue :=
  match parsed with
  | JArr l => l
  | _ => []
  end.

Definition generateSuggestions (env : Env) (context : string) : M unit :=
  setLoading true ;;
  try_finally
    (try_catch
       (response ← lift (callClaudeAPI env (prompt context));
        parsed ← lift (parse env response);
        setSuggestions (array_or_empty parsed))
       (λ _, setSuggestions fallback_suggestions))
    (setLoading false).

End Assistant.

(** ** [AIBusinessPlatform] *)

Module Platform.
Import Wizard.

Inductive View : Type := home | business_wizard | ai_tool_wizard | dashboard.

(** The three things the component can return. *)
Inductive Page : Type := HomePage | WizardPage | DashboardPage.

Definition page (v : View) : Page :=
  match v with
  | business_wizard => WizardPage
  | dashboard => DashboardPage
  | _ => HomePage
  end.

(** The state of the platform, with the state of the wizard and of its
    assistant while they are mounted. *)
Record AppState : Type := mkApp {
  currentView : View;
  completedData : option AnswerRecord;
  mounted : option (World * Assistant.AssistantState)
}.

Definition initial : AppState := mkApp home None None.

(** The wizard is part of the wizard page only: it is mounted, in its initial
    state, when that page appears and unmounted when it goes. *)
Definition remount (v : View) (old : option (World * Assistant.AssistantState))
  : option (World * Assistant.AssistantState) :=
  match page v with
  | WizardPage => Some (default (start, Assistant.initial) old)
  | _ => None
  end.

Definition setCurrentView (v : View) (s : AppState) : AppState :=
  mkApp v (completedData s) (remount v (mounted s)).

Definition handleBusinessComplete (data : AnswerRecord) (s : AppState) : AppState :=
  setCurrentView dashboard (mkApp (currentView s) (Some data) (mounted s)).

Inductive AppEvent : Type :=
| ClickBusinessCard
| ClickToolCard
| ClickBack
| InForm (ev : WizardView.UiEvent)
| ClickSuggest (context : string).
  (* [context]: the text of [JSON.stringify(formData)] *)

(** The calls of [onComplete] that a handler of the wizard made reach
    [handleBusinessComplete], in order.  As in [handleNext], an event is
    followed to the end of what it starts: the states of the platform are
    those between events, once the call that an event started has settled.
    ([Turns], below, follows [generatePlan] turn by turn.) *)
Definition deliver (before after_ : World) (s : AppState) : AppState :=
  foldl (λ s d, handleBusinessComplete d s) s
    (completions (drop (length (log before)) (log after_))).

Definition dispatch (trim : string → string) (nonzero : string → bool)
    (env : Env) (ev : AppEvent) (s : AppState) : option AppState :=
  match ev with
  | ClickBusinessCard =>
      match page (currentView s) with
      | HomePage => Some (setCurrentView business_wizard s)
      | _ => None
      end
  | ClickToolCard =>
      match page (currentView s) with
      | HomePage => Some (setCurrentView ai_tool_wizard s)
      | _ => None
      end
  | ClickBack =>
      match page (currentView s) with
      | HomePage => None
      | _ => Some (setCurrentView home s)
      end
  | InForm ev =>
      '(w, a) ← mounted s;
      w' ← WizardView.dispatch trim nonzero env ev w;
      Some (deliver w w' (mkApp (currentView s) (completedData s) (Some (w', a))))
  | ClickSuggest context =>
      '(w, a) ← mounted s;
      if WizardView.form_shown nonzero (wizard w) && negb (Assistant.loading a) then
        match Assistant.generateSuggestions env context (a, w) with
        | (_, (a', w')) => Some (mkApp (currentView s) (completedData s) (Some (w', a')))
        end
      else None
  end.

Inductive reachable (trim : string → string) (nonzero : string → bool) (env : Env)
  : AppState → Prop :=
| reach_initial : reachable trim nonzero env initial
| reach_event s ev s' :
    reachable trim nonzero env s →
    dispatch trim nonzero env ev s = Some s' →
    reachable trim nonzero env s'.

End Platform.

(** ** [generatePlan] turn by turn

    [generatePlan] is an [async] function.  It runs inside the click that
    starts it up to the [fetch] of [callClaudeAPI], and goes on in a later
    turn, when that request has been answered.  Between the two turns the
    component is rendered with [loading] set and other events may arrive.
    [Wizard.generatePlan] is the two turns in a row. *)

Module Turns.
Import Wizard.

(** The first turn: [loading] is set, the prompt is built and the request is
    sent.  The result is the prompt of the request that is now pending; when
    the prompt cannot be built, the [finally] block runs in this turn. *)
Definition generatePlan_begin (data : AnswerRecord) : Js string :=
  setLoading true ;;
  try_catch
    (prompt ← of_sum (build_prompt data);
     emit (Fetch prompt) ;;
     mret prompt)
    (λ e, setLoading false ;; mthrow e).

(** [callClaudeAPI] from the answer of the request on. *)
Definition callClaudeAPI_answered (env : Env) (prompt : string) : Js (option string) :=
  try_catch
    (data ← match api_claude env prompt with
            | NetworkError e => mthrow e
            | NotJson e => mthrow e
            | Json d => mret d
            end;
     if success data then mret (content data)
     else if fallback data then mthrow (JsError "API_FALLBACK")
     else mthrow (JsError (error_or_unknown data)))
    (λ error, emit (ConsoleErr "Claude API call failed:") ;; mthrow error).

(** The later turn of [generatePlan], for the request sent with [prompt]. *)
Definition generatePlan_settle (env : Env) (prompt : string) (data : AnswerRecord)
  : Js unit :=
  try_finally
    (try_catch
       (response ← callClaudeAPI_answered env prompt;
        plan ← parse env response;
        setGeneratedPlan plan ;;
        onComplete data)
       (λ _,
        setGeneratedPlan (fallbackPlan data) ;;
        onComplete data))
    (setLoading false).

(** Events of the form, one after the other; [None] when one of them is not
    possible when its turn comes. *)
Fixpoint events (trim : string → string) (nonzero : string → bool) (env : Env)
    (evs : list WizardView.UiEvent) (w : World) : option World :=
  match evs with
  | [] => Some w
  | ev :: rest =>
      w' ← WizardView.dispatch trim nonzero env ev w;
      events trim nonzero env rest w'
  end.

End Turns.

(** ** Sequences of operations of the controller *)

Definition run (env : Wizard.Env) (ops : list Wizard.Operation) (w : Wizard.World)
  : Wizard.World :=
  foldl (λ w op, Wizard.after (Wizard.perform env op) w) w ops.

Definition is_advance (op : Wizard.Operation) : bool :=
  match op with Wizard.Advance => true | _ => false end.

(** How many of the operations are advances. *)
Definition advances (ops : list Wizard.Operation) : nat :=
  length (List.filter is_advance ops).

(** The members of the record that [generatePlan] reads: those that its
    prompt mentions (the fallback plan reads the first of them). *)
Definition prompt_fields : list string :=
  [ "businessName"; "industry"; "currentRevenue"; "targetMarket";
    "primaryChallenges"; "aiGoals"; "budget"; "timeline" ].

(** A tag list as the tags field keeps it: no tag twice, no empty tag. *)
Definition clean (tags : list string) : Prop := NoDup tags ∧ "" ∉ tags.

(** Nothing has happened yet in the world, and the step is at most [k]
    advances away from the first. *)
Definition untouched (k : Z) (w : Wizard.World) : Prop :=
  Wizard.log w = [] ∧ Wizard.generatedPlan (Wizard.wizard w) = JNull ∧
  Wizard.loading (Wizard.wizard w) = false ∧
  1 ≤ Wizard.currentStep (Wizard.wizard w) ≤ 1 + k.

(** ** States of the platform that its events keep *)

(** A mounted wizard in which no plan has been generated yet: the record is
    valid with clean tag lists, the step is in range, and nothing is loading,
    stored, signalled or rejected. *)
Definition tidy (w : Wizard.World) : Prop :=
  valid_record (Wizard.formData (Wizard.wizard w)) = true ∧
  (∀ k l, Wizard.formData (Wizard.wizard w) !! k = Some (Tags l) → clean l) ∧
  1 ≤ Wizard.currentStep (Wizard.wizard w) ≤ Wizard.N ∧
  Wizard.loading (Wizard.wizard w) = false ∧
  Wizard.generatedPlan (Wizard.wizard w) = JNull ∧
  plans_stored (Wizard.log w) = [] ∧
  completions (Wizard.log w) = [] ∧
  rejections (Wizard.log w) = [] ∧
  loading_changes (Wizard.log w) = [].

Definition sound (s : Platform.AppState) : Prop :=
  (is_Some (Platform.mounted s) ↔ Platform.currentView s = Platform.business_wizard) ∧
  (Platform.currentView s = Platform.dashboard → is_Some (Platform.completedData s)) ∧
  (∀ d, Platform.completedData s = Some d → valid_record d = true) ∧
  (∀ w a, Platform.mounted s = Some (w, a) → tidy w ∧ Assistant.loading a = false).

(** * The runtime instances on sample texts *)

Section RuntimeExamples.
Import Runtime.

Example parse_number : JSON_parse "42" = Some (JNum "42").
Proof. reflexivity. Qed.

Example parse_null : JSON_parse " null " = Some JNull.
Proof. reflexivity. Qed.

Example parse_undefined : JSON_parse "undefined" = None.
Proof. reflexivity. Qed.

Example parse_nested :
  JSON_parse (quoted "{ 'quickWins': [ { 'tools': ['a', 'b'], 'n': -1.5e3 } ], 'ok': true }")
  = Some (JObj [ ("quickWins",
                   JArr [ JObj [ ("tools", JArr [JStr "a"; JStr "b"]);
                                 ("n", JNum "-1.5e3") ] ]);
                 ("ok", JBool true) ]).
Proof. reflexivity. Qed.

Example parse_escape :
  JSON_parse (quoted "'caf\u00e9 \ud83d\ude00'")
  = Some (JStr ("caf" +:+ bytes [195; 169; 32; 240; 159; 152; 128])).
Proof. reflexivity. Qed.

Example parse_trailing_comma : JSON_parse "[1, ]" = None.
Proof. reflexivity. Qed.

Example parse_leading_zero : JSON_parse "01" = None.
Proof. reflexivity. Qed.

Example trim_both_ends :
  trim (bytes [32; 9; 194; 160] +:+ "cash flow" +:+ bytes [10; 32]) = "cash flow".
Proof. reflexivity. Qed.

Example trim_blank : trim "   " = "".
Proof. reflexivity. Qed.

End RuntimeExamples.

(** * The plan and insight endpoint *)

Section BusinessRouteProperties.
Import BusinessRoute.

Lemma insights_at_range z s :
  insights_at (Integral z) = Some s → 1 ≤ z ≤ 5.
Proof.
  unfold insights_at. intros H.
  destruct (List.find _ insights) as [[k s']|] eqn:E; [|done].
  apply find_some in E as [Hin Hk]. apply Z.eqb_eq in Hk. cbn in Hk. subst k.
  unfold insights in Hin. cbn [In] in Hin.
  repeat (destruct Hin as [Hin|Hin]; [injection Hin as <- _; lia|]).
  destruct Hin.
Qed.

Lemma insights_at_outside step :
  (∀ z, step = Integral z → ¬ (1 ≤ z ≤ 5)) → insights_at step = None.
Proof.
  intros Hout. destruct step as [z|]; [|done].
  destruct (insights_at (Integral z)) as [s|] eqn:E; [|done].
  exfalso. eapply Hout; [done|]. by eapply insights_at_range.
Qed.

Lemma insights_at_inside z :
  1 ≤ z ≤ 5 →
  ∃ s, insights_at (Integral z) = Some s ∧ s ≠ "" ∧ s ≠ generic_insight ∧
       ∀ z', insights_at (Integral z') = Some s → z' = z.
Proof.
  intros Hz.
  assert (z = 1 ∨ z = 2 ∨ z = 3 ∨ z = 4 ∨ z = 5) as Hcases by lia.
  destruct Hcases as [->|[->|[->|[->| ->]]]];
    (eexists; split; [reflexivity|]; split; [done|]; split; [done|];
     intros z' Hz'; pose proof (insights_at_range _ _ Hz') as Hr;
     assert (z' = 1 ∨ z' = 2 ∨ z' = 3 ∨ z' = 4 ∨ z' = 5) as Hc by lia;
     destruct Hc as [->|[->|[->|[->| ->]]]]; done).
Qed.

Lemma step_or_1_given (n : JsNumber) :
  n ≠ Integral 0 → step_or_1 (Some n) = n.
Proof. intros Hn. by destruct n as [[| |]|]. Qed.

Lemma insight_for_inside z s :
  insights_at (Integral z) = Some s → s ≠ "" → insight_for (Integral z) = s.
Proof.
  intros Hs Hne. unfold insight_for. rewrite Hs.
  by destruct (String.eqb_spec s "").
Qed.

Lemma insight_for_outside step :
  (∀ z, step = Integral z → ¬ (1 ≤ z ≤ 5)) → insight_for step = generic_insight.
Proof.
  intros Hout. unfold insight_for. by rewrite (insights_at_outside step Hout).
Qed.

(** C3, the sentence as the specification has it, fails at the endpoint for
    the step value 0: 0 is outside 1..5, and the request is answered with
    the insight of step 1, not with the generic message ([step || 1] in
    [POST]). *)
Lemma step_zero_is_not_generic :
  prop "insights"
    (body (POST (Parsed (mkRequest stepInsights acme (Some (Integral 0))))).1)
  = Some (JStr "Based on your business foundation, consider focusing on B2B automation tools to scale efficiently.") ∧
  ¬ insight_follows_step acme (Integral 0).
Proof.
  split; [reflexivity|].
  intros (_ & _ & _ & Hout).
  specialize (Hout ltac:(intros z [= <-]; lia)).
  discriminate Hout.
Qed.

(** C3, as the code has it.  A [stepInsights] request is answered by the
    endpoint ([POST]) with status 200 and always the same three suggestions.
    When its step is one of 1..5, the insight is that of the step: not
    empty, not the generic message, and the insight of no other step.  When
    its step is a number outside 1..5 other than 0, whole or not, the
    insight is the generic message.  When its step is 0, or is absent, the
    insight is that of step 1. *)
Theorem step_insights_at_endpoint (data : AnswerRecord) (step : option JsNumber) :
  let answer := body (POST (Parsed (mkRequest stepInsights data step))).1 in
  status (POST (Parsed (mkRequest stepInsights data step))).1 = 200 ∧
  prop "suggestions" answer = Some (strs suggestions) ∧
  entries (prop "suggestions" answer) = 3%nat ∧
  (∀ z, step = Some (Integral z) → 1 ≤ z ≤ 5 →
     ∃ s, prop "insights" answer = Some (JStr s) ∧
          insights_at (Integral z) = Some s ∧ s ≠ "" ∧ s ≠ generic_insight ∧
          ∀ z', insights_at (Integral z') = Some s → z' = z) ∧
  (∀ n, step = Some n → n ≠ Integral 0 →
     (∀ z, n = Integral z → ¬ (1 ≤ z ≤ 5)) →
     prop "insights" answer = Some (JStr generic_insight)) ∧
  (step = None ∨ step = Some (Integral 0) →
     prop "insights" answer = JStr <$> insights_at (Integral 1) ∧
     prop "insights" answer ≠ Some (JStr generic_insight)).
Proof.
  cbn zeta. split; [done|]. split; [done|]. split; [done|].
  split; [|split].
  - intros z -> Hz.
    destruct (insights_at_inside z Hz) as (s & Hs & Hne & Hng & Huniq).
    exists s. split; [|done].
    cbn [POST action BusinessRoute.data BusinessRoute.step fst].
    rewrite step_or_1_given by (intros [= ->]; lia).
    cbn. by rewrite (insight_for_inside z s Hs Hne).
  - intros n -> Hn Hout.
    cbn [POST action BusinessRoute.data BusinessRoute.step fst].
    rewrite (step_or_1_given n Hn).
    cbn. by rewrite (insight_for_outside n Hout).
  - by intros [-> | ->].
Qed.

Lemma step_insights_at_endpoint_witness :
  (∃ s, prop "insights"
          (body (POST (Parsed (mkRequest stepInsights acme (Some (Integral 3))))).1)
        = Some (JStr s) ∧
        insights_at (Integral 3) = Some s ∧ s ≠ "" ∧ s ≠ generic_insight) ∧
  prop "insights"
    (body (POST (Parsed (mkRequest stepInsights acme (Some (Integral 7))))).1)
  = Some (JStr generic_insight) ∧
  prop "insights"
    (body (POST (Parsed (mkRequest stepInsights acme (Some Fractional)))).1)
  = Some (JStr generic_insight) ∧
  prop "insights"
    (body (POST (Parsed (mkRequest stepInsights acme (Some (Integral 0))))).1)
  = JStr <$> insights_at (Integral 1).
Proof.
  split; [|split; [|split]].
  - destruct (step_insights_at_endpoint acme (Some (Integral 3)))
      as (_ & _ & _ & Hin & _).
    destruct (Hin 3 eq_refl ltac:(lia)) as (s & H1 & H2 & H3 & H4 & _).
    by exists s.
  - destruct (step_insights_at_endpoint acme (Some (Integral 7)))
      as (_ & _ & _ & _ & Hout & _).
    apply (Hout (Integral 7) eq_refl); [discriminate|].
    intros z [= <-]. lia.
  - destruct (step_insights_at_endpoint acme (Some Fractional))
      as (_ & _ & _ & _ & Hout & _).
    apply (Hout Fractional eq_refl); [discriminate|].
    intros z [=].
  - destruct (step_insights_at_endpoint acme (Some (Integral 0)))
      as (_ & _ & _ & _ & _ & Hzero).
    apply Hzero. by right.
Defined.

(** C10. A [stepInsights] request whose step is absent, or is 0, is answered
    like a request for step 1: with the insight of step 1, which is not the
    generic message, and the three fixed suggestions. *)
Theorem step_insights_default (d : AnswerRecord) :
  let absent := POST (Parsed (mkRequest stepInsights d None)) in
  let zero := POST (Parsed (mkRequest stepInsights d (Some (Integral 0)))) in
  let one := POST (Parsed (mkRequest stepInsights d (Some (Integral 1)))) in
  absent = one ∧ zero = one ∧
  status one.1 = 200 ∧
  prop "insights" (body one.1) = JStr <$> insights_at (Integral 1) ∧
  prop "insights" (body one.1) =
    Some (JStr "Based on your business foundation, consider focusing on B2B automation tools to scale efficiently.") ∧
  prop "insights" (body one.1) ≠ Some (JStr generic_insight) ∧
  prop "suggestions" (body one.1) = Some (strs suggestions) ∧
  entries (prop "suggestions" (body one.1)) = 3%nat.
Proof. cbn zeta. repeat split; done. Qed.

Lemma business_plan_inputs (d1 d2 : AnswerRecord) :
  d1 !! "businessName" = d2 !! "businessName" →
  d1 !! "industry" = d2 !! "industry" →
  business_plan d1 = business_plan d2.
Proof. unfold business_plan. by intros -> ->. Qed.

Lemma business_plan_fixed_part (d1 d2 : AnswerRecord) :
  without "executiveSummary" (business_plan d1)
  = without "executiveSummary" (business_plan d2).
Proof. reflexivity. Qed.

(** C9. A schema-valid [generatePlan] request is answered without any call
    to the relay or another service, and the answer is a function of the
    business name and the industry alone: two requests that agree on these
    two fields get the same response whatever their other fields and step
    are.  Apart from the executive summary the plan is the same for every
    request. *)
Theorem generate_plan_is_static (r1 r2 : Request) :
  action r1 = generatePlan →
  action r2 = generatePlan →
  (data r1 !! "businessName" = data r2 !! "businessName" →
   data r1 !! "industry" = data r2 !! "industry" →
   POST (Parsed r1) = POST (Parsed r2)) ∧
  (POST (Parsed r1)).2 = [] ∧
  existsb is_external_call (POST (Parsed r1)).2 = false ∧
  status (POST (Parsed r1)).1 = 200 ∧
  prop "plan" (body (POST (Parsed r1)).1) = Some (business_plan (data r1)) ∧
  without "executiveSummary" (business_plan (data r1))
  = without "executiveSummary" (business_plan (data r2)) ∧
  is_GeneratedPlan (business_plan (data r1)) = true.
Proof.
  intros A1 A2. unfold POST. rewrite A1, A2. cbn [fst snd].
  split.
  - intros Hn Hi. unfold generateBusinessPlan.
    by rewrite (business_plan_inputs _ _ Hn Hi).
  - repeat split; done.
Qed.

Lemma generate_plan_is_static_witness :
  POST (Parsed (mkRequest generatePlan acme None))
  = POST (Parsed (mkRequest generatePlan
                   (<[ "budget" := Text "$5K-15K" ]> acme) (Some (Integral 4)))).
Proof.
  apply (generate_plan_is_static
           (mkRequest generatePlan acme None)
           (mkRequest generatePlan (<[ "budget" := Text "$5K-15K" ]> acme)
              (Some (Integral 4))));
    reflexivity.
Defined.

End BusinessRouteProperties.

(** * The completion relay *)

Section RelayProperties.
Import ClaudeRoute.

Lemma attempt_without_key env req :
  configured_key env = None →
  attempt env req =
    match req with
    | Unreadable e => (inl e, [])
    | Body _ => (inl (JsError "ANTHROPIC_API_KEY not configured"), [])
    end.
Proof. intros Hk. unfold attempt. rewrite Hk. by destruct req. Qed.

(** Whatever makes the [try] block throw is answered in the same way. *)
Lemma failure_answer env req e fx :
  attempt env req = (inl e, fx) →
  POST env req =
    (mkResponse 500 (mkApiData false None (Some (error_message e)) true),
     fx ++ [ConsoleError "Claude API error:"]).
Proof. unfold POST. by intros ->. Qed.

Lemma refused_answer env key prompt st errorData :
  configured_key env = Some key →
  provider env key prompt = Refused st (inr errorData) →
  (POST env (Body prompt)).1 =
    mkResponse 500 (mkApiData false None (Some ("Claude API error: " +:+ pretty st)) true).
Proof. unfold POST, attempt. by intros -> ->. Qed.

(** C6 as stated fails: without a credential the relay answers a readable
    request with HTTP 500, [success: false], [fallback: true], the same kind
    of answer that it gives when the provider refuses. *)
Lemma credential_absence_is_not_fatal :
  (POST no_credential (Body "Say hello")).1
  = mkResponse 500
      (mkApiData false None (Some "ANTHROPIC_API_KEY not configured") true) ∧
  (POST overloaded (Body "Say hello")).1
  = mkResponse 500 (mkApiData false None (Some "Claude API error: 503") true) ∧
  ¬ credential_absence_is_fatal no_credential (Body "Say hello").
Proof.
  split; [reflexivity|]. split; [reflexivity|].
  intros H. specialize (H eq_refl). discriminate H.
Qed.

(** C6, as the code has it.  The credential is looked up on every request.
    When it is absent (or empty) the relay does not contact the provider and
    gives its ordinary per-request failure answer, HTTP 500 with
    [success: false] and [fallback: true]; for a readable request the error
    text is "ANTHROPIC_API_KEY not configured". *)
Theorem missing_credential_is_request_failure (env : Env) (req : Incoming) :
  configured_key env = None →
  is_request_failure (POST env req).1 = true ∧
  existsb is_external_call (POST env req).2 = false ∧
  ∀ prompt, req = Body prompt →
    POST env req =
      (mkResponse 500
         (mkApiData false None (Some "ANTHROPIC_API_KEY not configured") true),
       [ConsoleError "Claude API error:"]).
Proof.
  intros Hk. pose proof (attempt_without_key env req Hk) as Ha.
  destruct req as [e|prompt].
  - rewrite (failure_answer _ _ _ _ Ha). done.
  - rewrite (failure_answer _ _ _ _ Ha). repeat split; done.
Qed.

Lemma missing_credential_is_request_failure_witness :
  is_request_failure (POST no_credential (Body "Say hello")).1 = true.
Proof.
  apply (missing_credential_is_request_failure no_credential (Body "Say hello")).
  reflexivity.
Defined.

End RelayProperties.

(** * The client *)

Section WizardProperties.
Import Wizard.

Lemma valid_record_tags (data : AnswerRecord) (k : string) :
  valid_record data = true → k ∈ array_fields → is_tags (data !! k) = true.
Proof.
  unfold valid_record. intros [_ H]%andb_prop Hk.
  rewrite forallb_forall in H. apply H. by apply list_elem_of_In.
Qed.

Lemma joined_or_tags v d :
  is_tags v = true → ∃ s, joined_or v d = inr s.
Proof. destruct v as [[s|l]|]; [done|..]; eauto. Qed.

(** A valid record always yields a prompt. *)
Lemma build_prompt_valid (data : AnswerRecord) :
  valid_record data = true → ∃ p, build_prompt data = inr p.
Proof.
  intros Hv. unfold build_prompt.
  destruct (joined_or_tags (data !! "primaryChallenges") "None specified")
    as [c ->]; [apply valid_record_tags; [done|set_solver]|].
  destruct (joined_or_tags (data !! "aiGoals") "General improvement")
    as [g ->]; [apply valid_record_tags; [done|set_solver]|].
  eauto.
Qed.

(** Unfolds the monad down to matches on what the environment answers. *)
Ltac run :=
  unfold generatePlan, callClaudeAPI, fetch_json, parse, try_finally, try_catch,
    detached, of_sum, setLoading, setGeneratedPlan, setCurrentStep, setFormData,
    onComplete, emit, modify, get, after;
  unfold mbind, mret, mthrow, Js_bind, Js_ret, Js_throw; cbn.

(** [generatePlan], once the prompt is built: one relay call, then the parsed
    reply or the fallback is stored, completion is signalled and [loading]
    is reset. *)
Lemma generatePlan_run env data w p :
  build_prompt data = inr p →
  let plan := default (fallbackPlan data) (parsed_reply env p) in
  generatePlan env data w =
    (Ok tt,
     mkWorld
       (mkState (currentStep (wizard w)) (formData (wizard w)) plan false)
       (log w ++ [SetLoading true; Fetch p] ++ call_errors env p ++
          [SetGeneratedPlan plan; OnComplete data; SetLoading false])).
Proof.
  intros Hp. unfold parsed_reply, call_errors, relay_text. run. rewrite Hp. cbn.
  destruct (api_claude env p) as [e|e|d]; cbn;
    [by rewrite <- !app_assoc..|].
  destruct (success d); cbn.
  - destruct (JSON_parse env (default "undefined" (content d))); cbn;
      by rewrite <- !app_assoc.
  - destruct (fallback d); cbn; by rewrite <- !app_assoc.
Qed.

(** [parsed_reply] is [None] exactly when the call or the parse throws. *)
Lemma parsed_reply_None env p w :
  parsed_reply env p = None ↔
  ∃ e w', (response ← callClaudeAPI env p; parse env response) w = (Throw e, w').
Proof.
  assert (∀ (e : Thrown) (v : World),
            None = None :> option JsonValue ↔
            ∃ e' w', (Throw e, v) = (Throw e', w') :> Outcome JsonValue * World)
    as Hthrow by (intros e v; split; [intros _; by eexists _, _|done]).
  unfold parsed_reply, relay_text. run.
  destruct (api_claude env p) as [e|e|d]; cbn; [apply Hthrow..|].
  destruct (success d); cbn.
  - destruct (JSON_parse env (default "undefined" (content d))); cbn;
      [|apply Hthrow].
    split; [done|]. by intros (e & w' & H).
  - destruct (fallback d); cbn; apply Hthrow.
Qed.

(** When the prompt cannot be built, nothing is sent and the exception
    leaves [generatePlan] after [loading] is reset. *)
Lemma generatePlan_throws env data w e :
  build_prompt data = inl e →
  generatePlan env data w =
    (Throw e,
     mkWorld
       (mkState (currentStep (wizard w)) (formData (wizard w))
          (generatedPlan (wizard w)) false)
       (log w ++ [SetLoading true; SetLoading false])).
Proof. intros Hp. run. rewrite Hp. cbn. by rewrite <- !app_assoc. Qed.

(** A record that is not valid can make [generatePlan] raise: a text where
    the list of challenges is expected has no [join]. *)
Example generatePlan_raises_on_invalid_record :
  (generatePlan (via_relay no_credential Runtime.JSON_parse)
     {[ "primaryChallenges" := Text "churn" ]} start).1
  = Throw (JsError "join is not a function").
Proof. reflexivity. Qed.

Lemma N_is_5 : N = 5.
Proof. reflexivity. Qed.

(** ** Retreat and advance *)

Lemma handlePrevious_above w :
  1 < currentStep (wizard w) →
  handlePrevious w =
    (Ok tt,
     mkWorld
       (mkState (currentStep (wizard w) - 1) (formData (wizard w))
          (generatedPlan (wizard w)) (loading (wizard w)))
       (log w)).
Proof.
  intros H. unfold handlePrevious. run.
  destruct (Z.ltb_spec 1 (currentStep (wizard w))); [done|lia].
Qed.

Lemma handlePrevious_first w :
  ¬ 1 < currentStep (wizard w) → handlePrevious w = (Ok tt, w).
Proof.
  intros H. unfold handlePrevious. run.
  destruct (Z.ltb_spec 1 (currentStep (wizard w))); [lia|done].
Qed.

(** C8. [handlePrevious] decrements [currentStep] by exactly one when it is
    above 1 and changes nothing else; at step 1 it leaves the whole state
    (and the effect log) as it was. *)
Theorem retreat_step (w : World) :
  (1 < currentStep (wizard w) →
   handlePrevious w =
     (Ok tt,
      mkWorld
        (mkState (currentStep (wizard w) - 1) (formData (wizard w))
           (generatedPlan (wizard w)) (loading (wizard w)))
        (log w))) ∧
  (currentStep (wizard w) = 1 → handlePrevious w = (Ok tt, w)).
Proof.
  split; [apply handlePrevious_above|].
  intros H. apply handlePrevious_first. lia.
Qed.

Lemma retreat_step_witness :
  after handlePrevious (mkWorld (mkState 3 acme JNull false) [])
    = mkWorld (mkState 2 acme JNull false) [] ∧
  after handlePrevious start = start.
Proof.
  split.
  - destruct (retreat_step (mkWorld (mkState 3 acme JNull false) [])) as [H _].
    unfold after. rewrite H; [reflexivity|]. cbn. lia.
  - destruct (retreat_step start) as [_ H].
    unfold after. rewrite H; reflexivity.
Defined.

Lemma handleNext_below env w :
  currentStep (wizard w) < N →
  handleNext env w =
    (Ok tt,
     mkWorld
       (mkState (currentStep (wizard w) + 1) (formData (wizard w))
          (generatedPlan (wizard w)) (loading (wizard w)))
       (log w)).
Proof.
  intros H. unfold handleNext. run.
  destruct (Z.ltb_spec (currentStep (wizard w)) N); [done|lia].
Qed.

Lemma handleNext_last env w :
  ¬ currentStep (wizard w) < N →
  handleNext env w = detached (generatePlan env (formData (wizard w))) w.
Proof.
  intros H. unfold handleNext. unfold mbind, Js_bind, get.
  destruct (Z.ltb_spec (currentStep (wizard w)) N); [lia|done].
Qed.



(** ** The step pointer *)

Lemma generatePlan_currentStep env data w :
  currentStep (wizard (after (generatePlan env data) w)) = currentStep (wizard w).
Proof.
  unfold after. destruct (build_prompt data) as [e|p] eqn:Hp.
  - by rewrite (generatePlan_throws env data w e Hp).
  - by rewrite (generatePlan_run env data w p Hp).
Qed.

Lemma detached_wizard (m : Js unit) w :
  wizard (after (detached m) w) = wizard (after m w).
Proof. unfold after, detached. by destruct (m w) as [[[]|e] w']. Qed.

Lemma perform_in_bounds env op w :
  1 ≤ currentStep (wizard w) ≤ N →
  1 ≤ currentStep (wizard (after (perform env op) w)) ≤ N.
Proof.
  intros Hb. destruct op as [| |newData]; cbn [perform].
  - destruct (decide (currentStep (wizard w) < N)) as [Hlt|Hge].
    + unfold after. rewrite (handleNext_below env w Hlt). cbn [snd wizard currentStep]. lia.
    + unfold after. rewrite (handleNext_last env w Hge).
      fold (after (detached (generatePlan env (formData (wizard w)))) w).
      by rewrite detached_wizard, generatePlan_currentStep.
  - destruct (decide (1 < currentStep (wizard w))) as [Hlt|Hge].
    + unfold after. rewrite (handlePrevious_above w Hlt).
      cbn [snd wizard currentStep]. lia.
    + unfold after. by rewrite (handlePrevious_first w Hge).
  - done.
Qed.

(** C5. In every world reachable from the initial one by advance, retreat
    and field updates, [currentStep] lies between 1 and N = 5. *)
Theorem currentStep_in_bounds (env : Env) (w : World) :
  reachable env w →
  1 ≤ currentStep (wizard w) ≤ N ∧ N = 5.
Proof.
  intros Hr. split; [|reflexivity].
  induction Hr as [|w op _ IH]; [done|].
  by apply perform_in_bounds.
Qed.

Lemma currentStep_in_bounds_witness :
  let env := via_relay no_credential Runtime.JSON_parse in
  1 ≤ currentStep (wizard (after (perform env Retreat)
                             (after (perform env Advance) start))) ≤ N.
Proof.
  cbn zeta.
  apply (currentStep_in_bounds (via_relay no_credential Runtime.JSON_parse)).
  apply reach_step, reach_step, reach_start.
Defined.

(** ** Plan generation *)

Lemma starts_with_app n s : starts_with n (n +:+ s) = true.
Proof.
  induction n as [|c n IH]; [done|].
  change (String c n +:+ s) with (String c (n +:+ s)).
  cbn [starts_with]. by rewrite Ascii.eqb_refl.
Qed.

Lemma includes_unfold n h :
  includes n h =
    starts_with n h ||
    match h with EmptyString => false | String _ h' => includes n h' end.
Proof. by destruct h. Qed.

Lemma includes_here n s : includes n (n +:+ s) = true.
Proof. by rewrite includes_unfold, starts_with_app. Qed.

Lemma includes_after pre n s : includes n s = true → includes n (pre +:+ s) = true.
Proof.
  intros H. induction pre as [|c pre IH]; [done|].
  change (String c pre +:+ s) with (String c (pre +:+ s)).
  rewrite includes_unfold, IH. apply orb_true_r.
Qed.

Lemma includes_middle pre n post : includes n (pre +:+ n +:+ post) = true.
Proof. apply includes_after, includes_here. Qed.

(** Every failure inside the relay reaches the client as a failed call. *)
Lemma relay_failure_at_client renv parse prompt e fx :
  ClaudeRoute.attempt renv (ClaudeRoute.Body prompt) = (inl e, fx) →
  parsed_reply (via_relay renv parse) prompt = None.
Proof.
  intros Ha. unfold parsed_reply, relay_text, via_relay. cbn [api_claude].
  by rewrite (failure_answer _ _ _ _ Ha).
Qed.

(** C1 as stated fails.  When the provider's text is [42], the plan stored
    for a valid record is the number 42; when the relay has no credential it
    is the fallback, which has no roadmap, tooling or metrics section.
    Neither has the shape of a GeneratedPlan. *)
Lemma not_always_a_GeneratedPlan :
  generatedPlan (wizard (after (generatePlan (via_relay answers_42 Runtime.JSON_parse) acme) start))
    = JNum "42" ∧
  ¬ always_a_GeneratedPlan (via_relay answers_42 Runtime.JSON_parse) acme start ∧
  generatedPlan (wizard (after (generatePlan (via_relay no_credential Runtime.JSON_parse) acme) start))
    = fallbackPlan acme ∧
  prop "implementationRoadmap" (fallbackPlan acme) = None ∧
  ¬ always_a_GeneratedPlan (via_relay no_credential Runtime.JSON_parse) acme start.
Proof.
  split; [by vm_compute|]. split.
  { intros H. destruct (H eq_refl) as (w' & Hrun & Hshape).
    assert (w' = after (generatePlan (via_relay answers_42 Runtime.JSON_parse) acme) start)
      as -> by (unfold after; by rewrite Hrun).
    vm_compute in Hshape. discriminate Hshape. }
  split; [by vm_compute|]. split; [done|].
  intros H. destruct (H eq_refl) as (w' & Hrun & Hshape).
  assert (w' = after (generatePlan (via_relay no_credential Runtime.JSON_parse) acme) start)
    as -> by (unfold after; by rewrite Hrun).
  vm_compute in Hshape. discriminate Hshape.
Qed.

(** C1, as the code has it.  For every valid answer record [generatePlan]
    returns normally, whatever the relay does: it makes exactly one relay
    call, stores one plan, signals completion once and leaves [loading]
    reset.  The stored plan is the value parsed from the relay's text, as it
    is (no check of its structure is made), or the static fallback when the
    call fails or the text is not JSON; the fallback has an executive
    summary, two quick wins and one strategic initiative. *)
Theorem generatePlan_always_resolves (env : Env) (data : AnswerRecord) (w : World) :
  valid_record data = true →
  ∃ prompt plan fx,
    build_prompt data = inr prompt ∧
    generatePlan env data w =
      (Ok tt,
       mkWorld (mkState (currentStep (wizard w)) (formData (wizard w)) plan false)
         (log w ++ fx)) ∧
    relay_calls fx = [prompt] ∧
    plans_stored fx = [plan] ∧
    completions fx = [data] ∧
    loading_changes fx = [true; false] ∧
    plan = default (fallbackPlan data) (parsed_reply env prompt) ∧
    (plan = fallbackPlan data ∨
     ∃ text, relay_text env prompt = Some text ∧ JSON_parse env text = Some plan) ∧
    is_str (prop "executiveSummary" (fallbackPlan data)) = true ∧
    entries (prop "quickWins" (fallbackPlan data)) = 2%nat ∧
    entries (prop "strategicInitiatives" (fallbackPlan data)) = 1%nat.
Proof.
  intros Hv. destruct (build_prompt_valid _ Hv) as [p Hp].
  exists p, (default (fallbackPlan data) (parsed_reply env p)). eexists.
  split; [done|]. split; [apply (generatePlan_run env data w p Hp)|].
  unfold call_errors, parsed_reply.
  destruct (relay_text env p) as [text|] eqn:Ht; cbn.
  - repeat split; try done.
    destruct (JSON_parse env text) eqn:Hj; cbn; [right; by exists text|by left].
  - repeat split; try done. by left.
Qed.

Lemma generatePlan_always_resolves_witness :
  ∃ w', generatePlan (via_relay answers_42 Runtime.JSON_parse) acme start = (Ok tt, w').
Proof.
  destruct (generatePlan_always_resolves
              (via_relay answers_42 Runtime.JSON_parse) acme start)
    as (prompt & plan & fx & _ & Hrun & _); [reflexivity|].
  eexists. exact Hrun.
Defined.

(** C2 as stated fails.  For the record with business name Acme and industry
    Retail and a relay without credential, the executive summary of the
    stored plan does not contain "Retail". *)
Lemma fallback_does_not_name_the_industry :
  prop "executiveSummary"
    (generatedPlan (wizard (after (generatePlan (via_relay no_credential Runtime.JSON_parse) acme) start)))
    = Some (JStr "Transform Acme into an AI-powered industry leader through strategic automation and intelligent decision-making systems.") ∧
  ¬ fallback_names_business_and_industry
      (via_relay no_credential Runtime.JSON_parse) acme start.
Proof.
  split; [by vm_compute|].
  intros H.
  destruct (build_prompt acme) as [e|p] eqn:Hp; [by vm_compute in Hp|].
  destruct (H p Hp) as (summary & Hs & _ & Hi & _).
  { by apply (relay_failure_at_client _ _ _ (JsError "ANTHROPIC_API_KEY not configured") []). }
  vm_compute in Hs. injection Hs as <-.
  vm_compute in Hi. discriminate Hi.
Qed.

(** C2, as the code has it.  Whenever the relay call fails or its text is not
    JSON -- in particular when the relay has no credential, when the provider
    answers with a non-2xx status, and when the provider's reply cannot be
    read -- the plan that [generatePlan] stores is exactly the static
    fallback.  The fallback depends on the answer record through the business
    name only; when the record holds a business name, the executive summary
    contains it.  The quick-wins list has two entries. *)
Theorem fallback_on_relay_failure (env : Env) (data : AnswerRecord) (w : World)
    (prompt : string) :
  build_prompt data = inr prompt →
  parsed_reply env prompt = None →
  let plan := generatedPlan (wizard (after (generatePlan env data) w)) in
  plan = fallbackPlan data ∧
  (∀ data', data' !! "businessName" = data !! "businessName" →
     fallbackPlan data' = fallbackPlan data) ∧
  (∀ name, data !! "businessName" = Some (Text name) →
     ∃ summary, prop "executiveSummary" plan = Some (JStr summary) ∧
                includes name summary = true) ∧
  entries (prop "quickWins" plan) = 2%nat ∧
  (∀ renv parse,
     ClaudeRoute.configured_key renv = None →
     parsed_reply (via_relay renv parse) prompt = None) ∧
  (∀ renv parse key st errorData,
     ClaudeRoute.configured_key renv = Some key →
     ClaudeRoute.provider renv key prompt = ClaudeRoute.Refused st errorData →
     parsed_reply (via_relay renv parse) prompt = None) ∧
  (∀ renv parse key e,
     ClaudeRoute.configured_key renv = Some key →
     ClaudeRoute.provider renv key prompt = ClaudeRoute.Garbled e →
     parsed_reply (via_relay renv parse) prompt = None) ∧
  (∀ text, relay_text env prompt = Some text → JSON_parse env text = None).
Proof.
  intros Hp Hnone. cbn zeta. unfold after.
  rewrite (generatePlan_run env data w prompt Hp). cbn [snd wizard generatedPlan].
  rewrite Hnone. cbn [default].
  split; [done|]. split.
  { intros data' Hn. unfold fallbackPlan. by rewrite Hn. }
  split.
  { intros name Hn. eexists. split; [reflexivity|].
    rewrite Hn. cbn [to_string]. apply includes_middle. }
  split; [done|]. split.
  { intros renv parse Hk.
    eapply relay_failure_at_client.
    by rewrite (attempt_without_key renv _ Hk). }
  split.
  { intros renv parse key st errorData Hk Hprov.
    unfold ClaudeRoute.attempt in *.
    destruct errorData as [e|txt];
      eapply relay_failure_at_client; unfold ClaudeRoute.attempt;
      rewrite Hk, Hprov; reflexivity. }
  split.
  { intros renv parse key e Hk Hprov.
    eapply relay_failure_at_client; unfold ClaudeRoute.attempt;
      rewrite Hk, Hprov; reflexivity. }
  intros text Ht. unfold parsed_reply in Hnone. by rewrite Ht in Hnone.
Qed.

Lemma fallback_on_relay_failure_witness :
  generatedPlan
    (wizard (after (generatePlan (via_relay overloaded Runtime.JSON_parse) acme) start))
  = fallbackPlan acme.
Proof.
  refine (proj1 (fallback_on_relay_failure
                   (via_relay overloaded Runtime.JSON_parse) acme start
                   (prompt_text acme "None specified" "General improvement") _ _));
    reflexivity.
Defined.

(** ** Form fields *)

Lemma filter_index_all {A} (p : nat → bool) (k : nat) (l : list A) :
  (∀ j, (k ≤ j)%nat → p j = true) → filter_index p k l = l.
Proof.
  revert k. induction l as [|x l IH]; intros k Hp; [done|].
  cbn [filter_index]. rewrite (Hp k) by lia. f_equal. apply IH.
  intros j Hj. apply Hp. lia.
Qed.

Lemma filter_index_delete {A} (l : list A) (i k t : nat) :
  t = (k + i)%nat →
  filter_index (λ j, negb (Nat.eqb j t)) k l = delete i l.
Proof.
  revert i k. induction l as [|x l IH]; intros i k ->; [done|].
  cbn [filter_index]. destruct i as [|i].
  - rewrite Nat.add_0_r, Nat.eqb_refl. cbn [negb delete list_delete].
    apply filter_index_all. intros j Hj.
    apply negb_true_iff, Nat.eqb_neq. lia.
  - destruct (Nat.eqb_spec k (k + S i)) as [Heq|_]; [lia|].
    cbn [negb]. cbn [delete list_delete]. f_equal.
    apply IH. lia.
Qed.

Lemma has_tag_elem (tags : list string) (t : string) :
  t ∈ tags → has_tag (Some tags) t = true.
Proof.
  intros Hin. cbn [has_tag]. apply existsb_exists.
  exists t. split; [by apply list_elem_of_In|apply String.eqb_refl].
Qed.

Lemma merge_lookup (prev newData : AnswerRecord) (k : string) :
  merge prev newData !! k =
    match newData !! k with
    | Some v => Some v
    | None => prev !! k
    end.
Proof.
  unfold merge. rewrite lookup_union.
  destruct (newData !! k), (prev !! k); done.
Qed.

(** C7. Writing a value under a field key with [updateFormData] and reading
    the key back gives exactly that value, and no other key changes.  In a
    tags field, Enter on an input whose trimmed text is already in the list
    does not call [onChange], so the record stays as it is; an input whose
    trimmed text is new and not empty is appended at the end.  Removing the
    tag at an index gives the list without that element, the other tags in
    their order. *)
Theorem field_round_trip (trim : string → string) (w : World) (key : string) :
  (∀ v : FieldValue,
     let w' := after (field_onChange key (Some v)) w in
     formData (wizard w') !! key = Some v ∧
     (∀ k, k ≠ key → formData (wizard w') !! k = formData (wizard w) !! k) ∧
     currentStep (wizard w') = currentStep (wizard w) ∧
     log w' = log w) ∧
  (∀ input, after (field_onChange key (Some (text_onChange input))) w
            = after (updateFormData {[ key := Text input ]}) w) ∧
  (∀ tags input,
     formData (wizard w) !! key = Some (Tags tags) →
     trim input ∈ tags →
     tags_onKeyPress trim (Some tags) "Enter" input = None ∧
     after (field_onChange key
              (Tags <$> tags_onKeyPress trim (Some tags) "Enter" input)) w = w) ∧
  (∀ tags input,
     trim input ∉ tags → trim input ≠ "" →
     tags_onKeyPress trim (Some tags) "Enter" input = Some (tags ++ [trim input])) ∧
  (∀ tags index,
     tags_onRemove tags index = take index tags ++ drop (S index) tags ∧
     tags_onRemove tags index `sublist_of` tags ∧
     (∀ j, (j < index)%nat → tags_onRemove tags index !! j = tags !! j) ∧
     (∀ j, (index ≤ j)%nat → tags_onRemove tags index !! j = tags !! S j) ∧
     formData (wizard (after (field_onChange key
                                (Some (Tags (tags_onRemove tags index)))) w)) !! key
       = Some (Tags (delete index tags))).
Proof.
  assert (∀ v : FieldValue,
            formData (wizard (after (field_onChange key (Some v)) w)) !! key = Some v)
    as Hread.
  { intros v. cbn [field_onChange]. unfold updateFormData. run.
    by rewrite merge_lookup, lookup_singleton_eq. }
  assert (∀ tags index, tags_onRemove tags index = delete index tags) as Hdel.
  { intros tags index. unfold tags_onRemove. by apply filter_index_delete. }
  split; [|split; [|split; [|split]]].
  - intros v. cbn zeta. split; [apply Hread|]. split; [|done].
    intros k Hk. cbn [field_onChange]. unfold updateFormData. run.
    by rewrite merge_lookup, lookup_singleton_ne.
  - done.
  - intros tags input _ Hin.
    assert (tags_onKeyPress trim (Some tags) "Enter" input = None) as Hnone.
    { unfold tags_onKeyPress. cbn [String.eqb Ascii.eqb Bool.eqb].
      rewrite (has_tag_elem _ _ Hin). cbn [negb]. by rewrite andb_false_r. }
    split; [done|]. rewrite Hnone. by destruct w.
  - intros tags input Hnin Hne. unfold tags_onKeyPress.
    cbn [String.eqb Ascii.eqb Bool.eqb].
    destruct (String.eqb_spec (trim input) ""); [done|].
    destruct (has_tag (Some tags) (trim input)) eqn:Hh; [|done].
    exfalso. apply Hnin. cbn [has_tag] in Hh.
    apply existsb_exists in Hh as (t & Ht & Heq).
    apply String.eqb_eq in Heq as ->. by apply list_elem_of_In.
  - intros tags index. rewrite Hread, !Hdel.
    split; [apply delete_take_drop|]. split; [apply sublist_delete|].
    split; [intros j Hj; by apply list_lookup_delete_lt|].
    split; [intros j Hj; by apply list_lookup_delete_ge|done].
Qed.

Lemma field_round_trip_witness :
  let w := mkWorld (mkState 2 {[ "primaryChallenges" := Tags ["churn"; "hiring"] ]} JNull false) [] in
  after (field_onChange "primaryChallenges"
           (Tags <$> tags_onKeyPress Runtime.trim (Some ["churn"; "hiring"])
                       "Enter" "  hiring ")) w = w ∧
  tags_onKeyPress Runtime.trim (Some ["churn"; "hiring"]) "Enter" " cash flow"
    = Some ["churn"; "hiring"; "cash flow"] ∧
  tags_onRemove ["churn"; "hiring"; "cash flow"] 1 = ["churn"; "cash flow"].
Proof.
  cbn zeta.
  destruct (field_round_trip Runtime.trim
              (mkWorld (mkState 2 {[ "primaryChallenges" := Tags ["churn"; "hiring"] ]}
                          JNull false) [])
              "primaryChallenges") as (_ & _ & Hdup & Hnew & Hrm).
  split; [|split].
  - apply (Hdup ["churn"; "hiring"] "  hiring "); [reflexivity|].
    apply (bool_decide_unpack _). by vm_compute.
  - apply (Hnew ["churn"; "hiring"] " cash flow").
    + apply (bool_decide_unpack _). by vm_compute.
    + apply (bool_decide_unpack _). by vm_compute.
  - destruct (Hrm ["churn"; "hiring"; "cash flow"] 1%nat) as [-> _]. reflexivity.
Defined.

End WizardProperties.

(** * Further properties of the endpoint *)

Section BusinessRouteMore.
Import BusinessRoute.

Lemma or_else_text (v : option FieldValue) (d name : string) :
  v = Some (Text name) → name ≠ "" → or_else v d = name.
Proof.
  intros -> Hne. unfold or_else. cbn [truthy to_string].
  by destruct (String.eqb_spec name "").
Qed.

Lemma or_else_missing (v : option FieldValue) (d : string) :
  v = None ∨ v = Some (Text "") → or_else v d = d.
Proof. by intros [-> | ->]. Qed.

Lemma business_plan_summary_text (data : AnswerRecord) :
  prop "executiveSummary" (business_plan data)
  = Some (JStr
      ("Transform " +:+ or_else (data !! "businessName") "your business" +:+
       " into an AI-powered " +:+ or_else (data !! "industry") "industry" +:+
       " leader through strategic automation, intelligent customer engagement, and data-driven decision making.")).
Proof. reflexivity. Qed.

(** X1. The executive summary of the endpoint's plan contains the business
    name and the industry of the record when they are texts that are not
    empty, and "your business" and "industry" in the place of one that is
    absent or empty; the plan has three quick wins. *)
Theorem business_plan_summary (data : AnswerRecord) :
  ∃ summary,
    prop "executiveSummary" (business_plan data) = Some (JStr summary) ∧
    (∀ name, data !! "businessName" = Some (Text name) → name ≠ "" →
       includes name summary = true) ∧
    (data !! "businessName" = None ∨ data !! "businessName" = Some (Text "") →
       starts_with "Transform your business into" summary = true) ∧
    (∀ name, data !! "industry" = Some (Text name) → name ≠ "" →
       includes name summary = true) ∧
    (data !! "industry" = None ∨ data !! "industry" = Some (Text "") →
       includes "AI-powered industry leader" summary = true) ∧
    entries (prop "quickWins" (business_plan data)) = 3%nat.
Proof.
  eexists. split; [apply business_plan_summary_text|].
  split; [|split; [|split; [|split]]].
  - intros name Hn Hne. rewrite (or_else_text _ _ _ Hn Hne).
    apply includes_middle.
  - intros H. by rewrite (or_else_missing _ _ H).
  - intros name Hn Hne. rewrite (or_else_text _ _ _ Hn Hne).
    do 3 apply includes_after. apply includes_here.
  - intros H. rewrite (or_else_missing _ _ H).
    apply includes_after, includes_after. reflexivity.
  - reflexivity.
Qed.

Lemma business_plan_summary_witness :
  ∃ summary,
    prop "executiveSummary" (business_plan acme) = Some (JStr summary) ∧
    includes "Acme" summary = true ∧ includes "Retail" summary = true.
Proof.
  destruct (business_plan_summary acme) as (summary & Hs & Hn & _ & Hi & _).
  exists summary. split; [exact Hs|]. split.
  - apply (Hn "Acme"); [reflexivity|discriminate].
  - apply (Hi "Retail"); [reflexivity|discriminate].
Defined.

(** X2. The answer to a [stepInsights] request does not depend on the answer
    record, and depends on the step only through the insight it selects:
    two requests whose steps, after the default, select the same insight get
    the same response.  In particular all steps outside 1..5 other than 0
    are answered alike. *)
Theorem step_insights_ignore_answers (r1 r2 : Request) :
  action r1 = stepInsights →
  action r2 = stepInsights →
  (insight_for (step_or_1 (step r1)) = insight_for (step_or_1 (step r2)) →
   POST (Parsed r1) = POST (Parsed r2)) ∧
  (step r1 = step r2 → POST (Parsed r1) = POST (Parsed r2)) ∧
  ((∀ z, step_or_1 (step r1) = Integral z → ¬ 1 ≤ z ≤ 5) →
   (∀ z, step_or_1 (step r2) = Integral z → ¬ 1 ≤ z ≤ 5) →
   POST (Parsed r1) = POST (Parsed r2)).
Proof.
  intros A1 A2. unfold POST. rewrite A1, A2. unfold generateStepInsights.
  split; [by intros ->|]. split; [by intros ->|].
  intros H1 H2. unfold insight_for.
  by rewrite (insights_at_outside _ H1), (insights_at_outside _ H2).
Qed.

Lemma step_insights_ignore_answers_witness :
  POST (Parsed (mkRequest stepInsights acme (Some (Integral 9))))
  = POST (Parsed (mkRequest stepInsights ∅ (Some Fractional))).
Proof.
  refine (proj2 (proj2 (step_insights_ignore_answers
            (mkRequest stepInsights acme (Some (Integral 9)))
            (mkRequest stepInsights ∅ (Some Fractional)) eq_refl eq_refl)) _ _).
  - intros z [= <-]. lia.
  - intros z [=].
Defined.

Lemma members_spec (read : option JsonValue → option (option FieldValue))
    (keys : list string) (obj : JsonValue) :
  ∀ acc r, NoDup keys → BusinessBody.members read keys obj acc = Some r →
  (∀ k, k ∈ keys → acc !! k = None → read (prop k obj) = Some (r !! k)) ∧
  (∀ k, k ∉ keys → r !! k = acc !! k).
Proof.
  induction keys as [|k0 rest IH]; intros acc r Hnd Hm.
  - injection Hm as <-. split; [|done]. intros k Hk. by apply elem_of_nil in Hk.
  - apply NoDup_cons in Hnd as [Hk0 Hnd]. cbn [BusinessBody.members] in Hm.
    destruct (read (prop k0 obj)) as [[v|]|] eqn:Hr; [| |done].
    + destruct (IH _ _ Hnd Hm) as [Hin Hout]. split.
      * intros k [->|Hk]%elem_of_cons Hacc.
        -- by rewrite Hr, (Hout k0 Hk0), lookup_insert_eq.
        -- apply Hin; [done|]. rewrite lookup_insert_ne; [done|].
           intros ->. done.
      * intros k [Hne Hk]%not_elem_of_cons.
        by rewrite (Hout k Hk), lookup_insert_ne.
    + destruct (IH _ _ Hnd Hm) as [Hin Hout]. split.
      * intros k [->|Hk]%elem_of_cons Hacc.
        -- by rewrite Hr, (Hout k0 Hk0), Hacc.
        -- by apply Hin.
      * intros k [Hne Hk]%not_elem_of_cons. by apply Hout.
Qed.

(** What the schema makes of the [data] member of a body: exactly its
    members that the schema names, each with the type the schema gives it. *)
Lemma data_schema_spec (v : option JsonValue) (d : AnswerRecord) :
  BusinessBody.data_schema v = Some d →
  (∀ k, k ∈ string_fields →
     BusinessBody.optional_string (v ≫= prop k) = Some (d !! k)) ∧
  (∀ k, k ∈ array_fields →
     BusinessBody.optional_strings (v ≫= prop k) = Some (d !! k)) ∧
  (∀ k, is_Some (d !! k) → k ∈ string_fields ++ array_fields).
Proof.
  unfold BusinessBody.data_schema. destruct v as [[| | | | |ms]|]; try done.
  destruct (BusinessBody.members BusinessBody.optional_string string_fields (JObj ms) ∅)
    as [texts|] eqn:Ht; [|done].
  cbn [mbind option_bind]. intros Hd.
  assert (NoDup string_fields) as Hn1 by (apply (bool_decide_unpack _); by vm_compute).
  assert (NoDup array_fields) as Hn2 by (apply (bool_decide_unpack _); by vm_compute).
  assert (∀ k, k ∈ string_fields → k ∉ array_fields) as Hdisj.
  { intros k Hk Hk'.
    assert (k ∈ list_to_set (C := gset string) string_fields ∩ list_to_set array_fields)
      as Hboth by set_solver.
    assert (list_to_set (C := gset string) string_fields ∩ list_to_set array_fields = ∅)
      as E by (apply (bool_decide_unpack _); by vm_compute).
    rewrite E in Hboth. set_solver. }
  destruct (members_spec _ _ _ _ _ Hn1 Ht) as [Ht_in Ht_out].
  destruct (members_spec _ _ _ _ _ Hn2 Hd) as [Hd_in Hd_out].
  split; [|split].
  - intros k Hk. cbn [mbind option_bind].
    rewrite (Hd_out k (Hdisj k Hk)). by apply Ht_in.
  - intros k Hk. cbn [mbind option_bind]. apply Hd_in; [done|].
    rewrite Ht_out; [done|]. intros Hk'. by apply (Hdisj k Hk').
  - intros k Hs. apply elem_of_app.
    destruct (decide (k ∈ string_fields)) as [|H1]; [by left|].
    destruct (decide (k ∈ array_fields)) as [|H2]; [by right|].
    rewrite (Hd_out k H2), (Ht_out k H1), lookup_empty in Hs.
    by destruct Hs.
Qed.

Lemma data_schema_valid (v : option JsonValue) (d : AnswerRecord) :
  BusinessBody.data_schema v = Some d → valid_record d = true.
Proof.
  intros (Hs & Ha & _)%data_schema_spec.
  unfold valid_record. apply andb_true_intro. split; apply forallb_forall.
  - intros k Hk%list_elem_of_In. specialize (Hs k Hk).
    unfold BusinessBody.optional_string in Hs.
    destruct (v ≫= prop k) as [[]|]; try done; by injection Hs as <-.
  - intros k Hk%list_elem_of_In. specialize (Ha k Hk).
    unfold BusinessBody.optional_strings in Ha.
    destruct (v ≫= prop k) as [[| | | |items|]|]; try done; [|by injection Ha as <-].
    destruct (BusinessBody.strings items); [|done]. by injection Ha as <-.
Qed.

Lemma action_schema_spec (v : option JsonValue) (a : string) :
  BusinessBody.action_schema v = Some a →
  v = Some (JStr a) ∧ (a = "stepInsights" ∨ a = "generatePlan").
Proof.
  unfold BusinessBody.action_schema. destruct v as [[| | |s| |]|]; try done.
  destruct (bool_decide_reflect (s ∈ BusinessBody.actions)) as [Hin|]; [|done].
  intros [= <-]. split; [done|].
  unfold BusinessBody.actions in Hin.
  apply elem_of_cons in Hin as [->|Hin]; [by left|].
  apply elem_of_cons in Hin as [->|Hin]; [by right|].
  by apply elem_of_nil in Hin.
Qed.

Lemma businessDataSchema_spec number body f :
  BusinessBody.businessDataSchema number body = Some f →
  BusinessBody.action_schema (prop "action" body) = Some (BusinessBody.action f) ∧
  BusinessBody.data_schema (prop "data" body) = Some (BusinessBody.data f) ∧
  BusinessBody.step_schema number (prop "step" body) = Some (BusinessBody.step f).
Proof.
  unfold BusinessBody.businessDataSchema. destruct body; try done.
  destruct (BusinessBody.action_schema _) as [a|]; [|done].
  destruct (BusinessBody.data_schema _) as [d|]; [|done].
  destruct (BusinessBody.step_schema _ _) as [st|]; [|done].
  by intros [= <-].
Qed.

(** X3. The status codes of the endpoint, on the body as it arrives.  [POST]
    answers 200 exactly when the body is JSON that [businessDataSchema]
    accepts, and otherwise 500 with the one fixed error body and one line on
    the console; it never answers 400: the schema lets only the two known
    actions through, so the last [return] of [POST] is never reached.  What
    the schema passes on is a valid record that holds exactly the members of
    the body's [data] that the schema names, and the answer is that of
    [BusinessRoute.POST] to that record.  For no body is the provider or
    another service called.  [GET] never finds a plan: it answers 400 when
    the [id] parameter is absent or empty and 404 with a null plan
    otherwise. *)
Theorem endpoint_statuses (number : string → option JsNumber)
    (a : BusinessBody.Arrival) (id : option string) :
  let answer := BusinessBody.POST number a in
  (status answer.1 = 200 ∨ status answer.1 = 500) ∧
  status answer.1 ≠ 400 ∧
  (status answer.1 = 200 ↔
     ∃ b f, a = BusinessBody.Arrived b ∧
            BusinessBody.businessDataSchema number b = Some f) ∧
  (status answer.1 = 500 →
     answer = POST Malformed ∧
     body answer.1 = JObj [("error", JStr "Internal server error")] ∧
     answer.2 = [ConsoleError "Business wizard API error:"]) ∧
  existsb is_external_call answer.2 = false ∧
  (∀ b f, a = BusinessBody.Arrived b →
     BusinessBody.businessDataSchema number b = Some f →
     valid_record (BusinessBody.data f) = true ∧
     (∀ k, k ∈ string_fields →
        BusinessBody.optional_string (prop "data" b ≫= prop k)
        = Some (BusinessBody.data f !! k)) ∧
     (∀ k, k ∈ array_fields →
        BusinessBody.optional_strings (prop "data" b ≫= prop k)
        = Some (BusinessBody.data f !! k)) ∧
     (∀ k, is_Some (BusinessBody.data f !! k) → k ∈ string_fields ++ array_fields) ∧
     ∃ act, prop "action" b
            = Some (JStr (match act with
                          | stepInsights => "stepInsights"
                          | generatePlan => "generatePlan"
                          end)) ∧
            answer = POST (Parsed (mkRequest act (BusinessBody.data f)
                                     (BusinessBody.step f)))) ∧
  (status (GET id) = 400 ↔ id = None ∨ id = Some "") ∧
  (status (GET id) = 404 ↔ ∃ s, id = Some s ∧ s ≠ "") ∧
  (status (GET id) = 404 → prop "plan" (body (GET id)) = Some JNull) ∧
  status (GET id) ≠ 200.
Proof.
  cbn zeta.
  assert (∀ b f, BusinessBody.businessDataSchema number b = Some f →
            ∃ act, prop "action" b
                   = Some (JStr (match act with
                                 | stepInsights => "stepInsights"
                                 | generatePlan => "generatePlan"
                                 end)) ∧
                   BusinessBody.POST number (BusinessBody.Arrived b)
                   = POST (Parsed (mkRequest act (BusinessBody.data f)
                                     (BusinessBody.step f)))) as Hpost.
  { intros b f Hf. cbn [BusinessBody.POST]. rewrite Hf.
    destruct (businessDataSchema_spec _ _ _ Hf) as (Ha & _).
    destruct (action_schema_spec _ _ Ha) as [Hp [E|E]]; rewrite E in *.
    - by exists stepInsights.
    - by exists generatePlan. }
  assert (∀ r, status (POST (Parsed r)).1 = 200 ∧ (POST (Parsed r)).2 = []) as H200.
  { by intros [[] d st]. }
  split; [|split; [|split; [|split; [|split; [|split]]]]].
  - destruct a as [|b]; [by right|]. cbn [BusinessBody.POST].
    destruct (BusinessBody.businessDataSchema number b) as [f|] eqn:Hf; [|by right].
    destruct (Hpost b f Hf) as (act & _ & E). cbn [BusinessBody.POST] in E.
    rewrite Hf in E. rewrite E. left. apply H200.
  - destruct a as [|b]; [done|]. cbn [BusinessBody.POST].
    destruct (BusinessBody.businessDataSchema number b) as [f|] eqn:Hf; [|done].
    destruct (Hpost b f Hf) as (act & _ & E). cbn [BusinessBody.POST] in E.
    rewrite Hf in E. rewrite E. by rewrite (proj1 (H200 _)).
  - destruct a as [|b]; [split; [done|by intros (b & f & [=] & _)]|].
    cbn [BusinessBody.POST].
    destruct (BusinessBody.businessDataSchema number b) as [f|] eqn:Hf.
    + destruct (Hpost b f Hf) as (act & _ & E). cbn [BusinessBody.POST] in E.
      rewrite Hf in E. rewrite E. split; [eauto|]. intros _. apply H200.
    + split; [done|]. intros (b' & f & [= <-] & Hf'). by rewrite Hf in Hf'.
  - destruct a as [|b]; [done|]. cbn [BusinessBody.POST].
    destruct (BusinessBody.businessDataSchema number b) as [f|] eqn:Hf; [|done].
    destruct (Hpost b f Hf) as (act & _ & E). cbn [BusinessBody.POST] in E.
    rewrite Hf in E. rewrite E. by rewrite (proj1 (H200 _)).
  - destruct a as [|b]; [done|]. cbn [BusinessBody.POST].
    destruct (BusinessBody.businessDataSchema number b) as [f|] eqn:Hf; [|done].
    destruct (Hpost b f Hf) as (act & _ & E). cbn [BusinessBody.POST] in E.
    rewrite Hf in E. rewrite E. by rewrite (proj2 (H200 _)).
  - intros b f -> Hf.
    destruct (businessDataSchema_spec _ _ _ Hf) as (_ & Hd & _).
    destruct (data_schema_spec _ _ Hd) as (Hs & Har & Hdom).
    split; [by eapply data_schema_valid|]. split; [done|]. split; [done|].
    split; [done|]. by apply Hpost.
  - destruct id as [s|]; cbn.
    + destruct (String.eqb_spec s ""); cbn; subst.
      * repeat split; try done; eauto. by intros (s & [= <-] & H).
      * repeat split; try done; eauto. by intros [[=]|[=]].
    + repeat split; try done; eauto. by intros (s & [=] & _).
Qed.

(** A body with [step] 3; one whose [businessName] is a list; one with an
    action that the schema does not know; and one with members that the
    schema does not name. *)
Lemma endpoint_statuses_witness :
  let number := λ lit : string, if String.eqb lit "3" then Some (Integral 3) else None in
  let insights_3 :=
    BusinessBody.Arrived
      (JObj [("action", JStr "stepInsights");
             ("data", JObj [("industry", JStr "Retail"); ("rating", JNum "5")]);
             ("step", JNum "3")]) in
  let name_list :=
    BusinessBody.Arrived
      (JObj [("action", JStr "generatePlan");
             ("data", JObj [("businessName", JArr [JStr "a"; JStr "b"])])]) in
  let unknown_action :=
    BusinessBody.Arrived
      (JObj [("action", JStr "deletePlan"); ("data", JObj [])]) in
  status (BusinessBody.POST number insights_3).1 = 200 ∧
  BusinessBody.POST number insights_3
    = POST (Parsed (mkRequest stepInsights {[ "industry" := Text "Retail" ]}
                      (Some (Integral 3)))) ∧
  status (BusinessBody.POST number name_list).1 = 500 ∧
  status (BusinessBody.POST number unknown_action).1 = 500 ∧
  status (GET (Some "")) = 400 ∧ status (GET (Some "plan-7")) = 404.
Proof.
  cbn zeta.
  set (number := λ lit : string, if String.eqb lit "3" then Some (Integral 3) else None).
  set (b3 := JObj [("action", JStr "stepInsights");
                   ("data", JObj [("industry", JStr "Retail"); ("rating", JNum "5")]);
                   ("step", JNum "3")]).
  destruct (endpoint_statuses number (BusinessBody.Arrived b3) (Some ""))
    as (_ & _ & H200 & _ & _ & Hacc & H400 & _).
  destruct (endpoint_statuses number BusinessBody.NotJson (Some "plan-7"))
    as (_ & _ & _ & _ & _ & _ & _ & H404 & _).
  split; [apply H200; by eexists _, _|].
  split; [reflexivity|].
  split; [reflexivity|]. split; [reflexivity|].
  split; [apply H400; by right|].
  apply H404. by exists "plan-7".
Defined.

End BusinessRouteMore.

(** * Further properties of the relay *)

Section RelayMore.
Import ClaudeRoute.

Lemma first_text_not_empty blocks : first_text blocks ≠ "".
Proof.
  destruct blocks as [|[[t|]] rest]; cbn; [done| |done].
  by destruct (String.eqb_spec t "").
Qed.

(** The provider calls among the effects. *)
Lemma attempt_calls env req :
  List.filter is_external_call (attempt env req).2 =
    match req, configured_key env with
    | Body prompt, Some key => [ProviderFetch key prompt]
    | _, _ => []
    end.
Proof.
  unfold attempt. destruct req as [e|prompt]; [done|].
  destruct (configured_key env) as [key|]; [|done].
  by destruct (provider env key prompt) as [e|st [e|ed]|e|blocks].
Qed.

(** X4. Every answer of the relay has one of two shapes: HTTP 200 with
    [success: true] and a content that is not empty, and neither error nor
    fallback flag; or HTTP 500 with [success: false], [fallback: true] and an
    error text, and no content.  The first is given exactly when the [try]
    block returns, and then the content is [first_text] of the provider's
    blocks: a reply without text is answered with the placeholder, not with
    an error. *)
Theorem relay_answer_shape (env : Env) (req : Incoming) :
  let r := (POST env req).1 in
  ((status r = 200 ∧ success (body r) = true ∧ fallback (body r) = false ∧
    error (body r) = None ∧
    ∃ c, content (body r) = Some c ∧ c ≠ "" ∧ (attempt env req).1 = inr c)
   ∨
   (status r = 500 ∧ success (body r) = false ∧ fallback (body r) = true ∧
    content (body r) = None ∧
    ∃ e, error (body r) = Some (error_message e) ∧ (attempt env req).1 = inl e)) ∧
  (∀ key prompt blocks,
     req = Body prompt →
     configured_key env = Some key →
     provider env key prompt = Message blocks →
     r = mkResponse 200 (mkApiData true (Some (first_text blocks)) None false)) ∧
  (∀ key prompt,
     req = Body prompt →
     configured_key env = Some key →
     provider env key prompt = Message [] →
     content (body r) = Some "No response generated").
Proof.
  cbn zeta. split; [|split].
  - unfold POST. destruct (attempt env req) as [[e|c] fx] eqn:Ha; cbn.
    + right. repeat split; eauto.
    + left. repeat split; try done. exists c. repeat split; try done.
      unfold attempt in Ha. destruct req as [e|prompt]; [done|].
      destruct (configured_key env) as [key|]; [|done].
      destruct (provider env key prompt) as [e|st [e|ed]|e|blocks]; try done.
      injection Ha as <- _. apply first_text_not_empty.
  - intros key prompt blocks -> Hk Hp. unfold POST, attempt. by rewrite Hk, Hp.
  - intros key prompt -> Hk Hp. unfold POST, attempt. by rewrite Hk, Hp.
Qed.

Lemma relay_answer_shape_witness :
  (POST answers_42 (Body "Say hello")).1
  = mkResponse 200 (mkApiData true (Some "42") None false).
Proof.
  refine (proj1 (proj2 (relay_answer_shape answers_42 (Body "Say hello")))
            "sk-test" "Say hello" [mkBlock (Some "42")] _ _ _); reflexivity.
Defined.

(** X5. For one request the relay calls the provider at most once: exactly
    once, with the configured key and the prompt of the request, when the
    request is readable and a key is configured (whatever the provider then
    answers), and not at all otherwise.  There is no retry. *)
Theorem relay_calls_provider_once (env : Env) (req : Incoming) :
  (∀ key prompt,
     req = Body prompt → configured_key env = Some key →
     List.filter is_external_call (POST env req).2 = [ProviderFetch key prompt]) ∧
  ((∀ prompt, req ≠ Body prompt) ∨ configured_key env = None →
   List.filter is_external_call (POST env req).2 = []) ∧
  (length (List.filter is_external_call (POST env req).2) ≤ 1)%nat.
Proof.
  assert (List.filter is_external_call (POST env req).2
          = List.filter is_external_call (attempt env req).2) as ->.
  { unfold POST. destruct (attempt env req) as [[e|c] fx]; cbn [snd]; [|done].
    rewrite List.filter_app. cbn. apply app_nil_r. }
  rewrite attempt_calls. split; [|split].
  - by intros key prompt -> ->.
  - intros [Hreq|Hk].
    + destruct req as [e|prompt]; [done|]. by destruct (Hreq prompt).
    + rewrite Hk. by destruct req.
  - destruct req as [e|prompt]; [cbn; lia|].
    destruct (configured_key env); cbn; lia.
Qed.

Lemma relay_calls_provider_once_witness :
  List.filter is_external_call (POST overloaded (Body "Say hello")).2
    = [ProviderFetch "sk-test" "Say hello"] ∧
  List.filter is_external_call (POST no_credential (Body "Say hello")).2 = [].
Proof.
  destruct (relay_calls_provider_once overloaded (Body "Say hello")) as (H1 & _).
  destruct (relay_calls_provider_once no_credential (Body "Say hello")) as (_ & H2 & _).
  split; [apply H1; reflexivity|apply H2; by right].
Defined.

(** X6. When the provider answers with a status that is not 2xx, the error
    text sent to the caller is "Claude API error: " followed by the status;
    the body of the provider's answer is logged and has no influence on the
    response: two providers that refuse with the same status and different
    bodies lead to the same response. *)
Theorem relay_hides_provider_body (env1 env2 : Env) (key prompt : string)
    (st : Z) (body1 body2 : string) :
  configured_key env1 = Some key →
  configured_key env2 = Some key →
  provider env1 key prompt = Refused st (inr body1) →
  provider env2 key prompt = Refused st (inr body2) →
  (POST env1 (Body prompt)).1 = (POST env2 (Body prompt)).1 ∧
  (POST env1 (Body prompt)).1 =
    mkResponse 500
      (mkApiData false None (Some ("Claude API error: " +:+ pretty st)) true) ∧
  (POST env1 (Body prompt)).2 =
    [ProviderFetch key prompt; ConsoleError "Claude API error:";
     ConsoleError "Claude API error:"].
Proof.
  intros K1 K2 P1 P2. unfold POST, attempt. by rewrite K1, K2, P1, P2.
Qed.

Lemma relay_hides_provider_body_witness :
  error (body (POST overloaded (Body "Say hello")).1) = Some "Claude API error: 503".
Proof.
  destruct (relay_hides_provider_body overloaded
              (mkEnv (Some "sk-test") (λ _ _, Refused 503 (inr "rate limit reached")))
              "sk-test" "Say hello" 503 "overloaded" "rate limit reached")
    as (_ & H & _); [reflexivity..|].
  by rewrite H.
Defined.

End RelayMore.

(** * Further properties of the client *)

(** Unfolds a computation of the client down to the matches on what the
    environment answers. *)
Ltac unfold_js :=
  unfold Wizard.generatePlan, Wizard.callClaudeAPI, Wizard.fetch_json, Wizard.parse,
    Wizard.try_finally, Wizard.try_catch, Wizard.detached, Wizard.of_sum,
    Wizard.updateFormData, Wizard.setLoading, Wizard.setGeneratedPlan,
    Wizard.setCurrentStep, Wizard.setFormData, Wizard.onComplete, Wizard.emit,
    Wizard.modify, Wizard.get, Wizard.after;
  unfold mbind, mret, mthrow, Wizard.Js_bind, Wizard.Js_ret, Wizard.Js_throw; cbn.

Section ClientMore.
Import Wizard.

(** ** [callClaudeAPI] *)

Lemma callClaudeAPI_run env prompt w :
  callClaudeAPI env prompt w =
    match api_claude env prompt with
    | NetworkError e | NotJson e =>
        (Throw e, mkWorld (wizard w)
                    (log w ++ [Fetch prompt; ConsoleErr "Claude API call failed:"]))
    | Json d =>
        if success d then (Ok (content d), mkWorld (wizard w) (log w ++ [Fetch prompt]))
        else
          (Throw (JsError (if fallback d then "API_FALLBACK" else error_or_unknown d)),
           mkWorld (wizard w)
             (log w ++ [Fetch prompt; ConsoleErr "Claude API call failed:"]))
    end.
Proof.
  unfold_js. destruct (api_claude env prompt) as [e|e|d]; cbn;
    [by rewrite <- app_assoc..|].
  destruct (success d); cbn; [done|].
  destruct (fallback d); cbn; by rewrite <- app_assoc.
Qed.

(** X7. [callClaudeAPI] never changes the state of the component and sends
    exactly one request, with the prompt it is given.  It returns
    [data.content] exactly when the answer has a truthy [success]; every
    other case is logged once and thrown to the caller: a failure of the
    request or of reading its body as it is, ["API_FALLBACK"] when the answer
    has the fallback flag, and otherwise the answer's error text, or
    ["Unknown error"] when it has none. *)
Theorem callClaudeAPI_effects (env : Env) (prompt : string) (w : World) :
  let r := (callClaudeAPI env prompt w).1 in
  let w' := (callClaudeAPI env prompt w).2 in
  wizard w' = wizard w ∧
  (∃ fx, log w' = log w ++ fx ∧ relay_calls fx = [prompt] ∧
         head fx = Some (Fetch prompt) ∧
         ((∃ c, r = Ok c) → fx = [Fetch prompt]) ∧
         ((∃ e, r = Throw e) →
          fx = [Fetch prompt; ConsoleErr "Claude API call failed:"])) ∧
  (∀ c, r = Ok c ↔
        ∃ d, api_claude env prompt = Json d ∧ success d = true ∧ c = content d) ∧
  (∀ e, api_claude env prompt = NetworkError e ∨ api_claude env prompt = NotJson e →
        r = Throw e) ∧
  (∀ d, api_claude env prompt = Json d → success d = false → fallback d = true →
        r = Throw (JsError "API_FALLBACK")) ∧
  (∀ d, api_claude env prompt = Json d → success d = false → fallback d = false →
        (∀ m, error d = Some m → m ≠ "" → r = Throw (JsError m)) ∧
        (error d = None ∨ error d = Some "" → r = Throw (JsError "Unknown error"))).
Proof.
  cbn zeta. rewrite callClaudeAPI_run.
  destruct (api_claude env prompt) as [e|e|d] eqn:Ha.
  - split; [done|]. split.
    { eexists. split; [reflexivity|]. repeat split; try done. by intros [c [=]]. }
    split. { intros c. split; [done|]. by intros (d & [=] & _). }
    split. { by intros e' [[= <-]|[=]]. }
    split; by intros d [=].
  - split; [done|]. split.
    { eexists. split; [reflexivity|]. repeat split; try done. by intros [c [=]]. }
    split. { intros c. split; [done|]. by intros (d & [=] & _). }
    split. { by intros e' [[=]|[= <-]]. }
    split; by intros d [=].
  - destruct (success d) eqn:Hs.
    + split; [done|]. split.
      { eexists. split; [reflexivity|]. repeat split; try done. by intros [e [=]]. }
      split.
      { intros c. split.
        - intros [= <-]. by exists d.
        - by intros (d' & [= <-] & _ & ->). }
      split. { by intros e [[=]|[=]]. }
      split; intros d' [= <-]; congruence.
    + split; [done|]. split.
      { eexists. split; [reflexivity|]. repeat split; try done. by intros [c [=]]. }
      split.
      { intros c. split; [done|]. intros (d' & [= <-] & Hs' & _). congruence. }
      split. { by intros e [[=]|[=]]. }
      split.
      * intros d' [= <-] _ Hf. by rewrite Hf.
      * intros d' [= <-] _ Hf. rewrite Hf. unfold error_or_unknown. split.
        -- intros m -> Hm. by destruct (String.eqb_spec m "").
        -- by intros [-> | ->].
Qed.

Lemma callClaudeAPI_effects_witness :
  (callClaudeAPI (via_relay overloaded Runtime.JSON_parse) "Say hello" start).1
  = Throw (JsError "API_FALLBACK").
Proof.
  destruct (callClaudeAPI_effects (via_relay overloaded Runtime.JSON_parse)
              "Say hello" start) as (_ & _ & _ & _ & H & _).
  eapply H; reflexivity.
Defined.

(** The two answers of the relay. *)
Lemma relay_POST_cases renv req :
  (∃ c, c ≠ "" ∧
        (ClaudeRoute.POST renv req).1
        = mkResponse 200 (mkApiData true (Some c) None false)) ∨
  (∃ m, (ClaudeRoute.POST renv req).1
        = mkResponse 500 (mkApiData false None (Some m) true)).
Proof.
  unfold ClaudeRoute.POST.
  destruct (ClaudeRoute.attempt renv req) as [[e|c] fx] eqn:Ha; cbn; [eauto|].
  left. exists c. split; [|done].
  unfold ClaudeRoute.attempt in Ha. destruct req as [e|prompt]; [done|].
  destruct (ClaudeRoute.configured_key renv) as [key|]; [|done].
  destruct (ClaudeRoute.provider renv key prompt) as [e|st [e|ed]|e|blocks];
    try done.
  injection Ha as <- _. apply first_text_not_empty.
Qed.

(** X8. Against the relay of this repository [callClaudeAPI] has two
    outcomes only: it returns a text that is not empty, when the relay
    answers 200, or it throws ["API_FALLBACK"], when the relay answers 500.
    The error text of the relay never reaches the caller, and the
    ["Unknown error"] branch is never taken. *)
Theorem callClaudeAPI_against_relay (renv : ClaudeRoute.Env)
    (parse : string → option JsonValue) (prompt : string) (w : World) :
  let r := (callClaudeAPI (via_relay renv parse) prompt w).1 in
  let answer := (ClaudeRoute.POST renv (ClaudeRoute.Body prompt)).1 in
  (status answer = 200 ∧
   ∃ t, t ≠ "" ∧ content (body answer) = Some t ∧ r = Ok (Some t)) ∨
  (status answer = 500 ∧ r = Throw (JsError "API_FALLBACK")).
Proof.
  cbn zeta. rewrite callClaudeAPI_run. unfold via_relay. cbn [api_claude].
  destruct (relay_POST_cases renv (ClaudeRoute.Body prompt))
    as [(c & Hc & ->)|(m & ->)]; cbn.
  - left. split; [done|]. by exists c.
  - by right.
Qed.

(** ** [generatePlan] *)

Lemma build_prompt_fails_iff (data : AnswerRecord) :
  (∃ e, build_prompt data = inl e) ↔
  (∃ s, data !! "primaryChallenges" = Some (Text s)) ∨
  (∃ s, data !! "aiGoals" = Some (Text s)).
Proof.
  unfold build_prompt, joined_or.
  destruct (data !! "primaryChallenges") as [[s|l]|];
    destruct (data !! "aiGoals") as [[s'|l']|]; split;
    try (intros [e [=]]); try (intros [[s0 [=]]|[s0 [=]]]); eauto.
Qed.

(** X9. [generatePlan] raises exactly when the record holds a text where the
    list of challenges or the list of AI goals is expected.  It then raises
    an [Error] before anything is sent: no relay call is made, no plan is
    stored and completion is not signalled; [loading] is set and reset. *)
Theorem generatePlan_raises_iff (env : Env) (data : AnswerRecord) (w : World) :
  let r := (generatePlan env data w).1 in
  let w' := (generatePlan env data w).2 in
  ((∃ e, r = Throw e) ↔
   (∃ s, data !! "primaryChallenges" = Some (Text s)) ∨
   (∃ s, data !! "aiGoals" = Some (Text s))) ∧
  (∀ e, r = Throw e →
     (∃ m, e = JsError m) ∧
     log w' = log w ++ [SetLoading true; SetLoading false] ∧
     generatedPlan (wizard w') = generatedPlan (wizard w) ∧
     formData (wizard w') = formData (wizard w) ∧
     loading (wizard w') = false).
Proof.
  cbn zeta. rewrite <- build_prompt_fails_iff.
  destruct (build_prompt data) as [e|p] eqn:Hp.
  - rewrite (generatePlan_throws env data w e Hp). cbn [fst snd]. split.
    + split; eauto.
    + intros e' [= <-]. split; [|done].
      unfold build_prompt, joined_or in Hp.
      destruct (data !! "primaryChallenges") as [[s|l]|];
        destruct (data !! "aiGoals") as [[s'|l']|];
        simplify_eq; eauto.
  - rewrite (generatePlan_run env data w p Hp). cbn [fst snd]. split.
    + split; [by intros [e [=]]|by intros [e [=]]].
    + by intros e [=].
Qed.

Lemma generatePlan_raises_iff_witness :
  ∃ e, (generatePlan (via_relay answers_42 Runtime.JSON_parse)
          {[ "aiGoals" := Text "grow" ]} start).1 = Throw e.
Proof.
  apply (generatePlan_raises_iff (via_relay answers_42 Runtime.JSON_parse)
           {[ "aiGoals" := Text "grow" ]} start).
  right. by exists "grow".
Defined.

Lemma build_prompt_fields (d1 d2 : AnswerRecord) :
  (∀ k, k ∈ prompt_fields → d1 !! k = d2 !! k) → build_prompt d1 = build_prompt d2.
Proof.
  intros H. unfold build_prompt, prompt_text.
  rewrite !(H "businessName"), !(H "industry"), !(H "currentRevenue"),
    !(H "targetMarket"), !(H "primaryChallenges"), !(H "aiGoals"),
    !(H "budget"), !(H "timeline"); [done|..];
    apply list_elem_of_In; cbn; tauto.
Qed.

(** X10. Of the seventeen fields that the wizard collects, [generatePlan]
    reads eight: business name, industry, current revenue, target market,
    challenges, AI goals, budget and timeline.  Two records that agree on
    these give the same prompt, and the same outcome, stored plan and
    effects up to the record passed on completion. *)
Theorem generatePlan_reads_prompt_fields (env : Env) (d1 d2 : AnswerRecord) (w : World) :
  (∀ k, k ∈ prompt_fields → d1 !! k = d2 !! k) →
  build_prompt d1 = build_prompt d2 ∧
  (generatePlan env d1 w).1 = (generatePlan env d2 w).1 ∧
  wizard (generatePlan env d1 w).2 = wizard (generatePlan env d2 w).2 ∧
  relay_calls (log (generatePlan env d1 w).2)
  = relay_calls (log (generatePlan env d2 w).2) ∧
  plans_stored (log (generatePlan env d1 w).2)
  = plans_stored (log (generatePlan env d2 w).2).
Proof.
  intros H. pose proof (build_prompt_fields d1 d2 H) as Hb.
  assert (fallbackPlan d1 = fallbackPlan d2) as Hf.
  { unfold fallbackPlan. rewrite (H "businessName"); [done|].
    apply list_elem_of_In. cbn. tauto. }
  split; [done|].
  destruct (build_prompt d2) as [e|p] eqn:Hp.
  - by rewrite (generatePlan_throws env d1 w e Hb), (generatePlan_throws env d2 w e Hp).
  - rewrite (generatePlan_run env d1 w p Hb), (generatePlan_run env d2 w p Hp).
    cbn zeta. cbn [fst snd wizard log]. rewrite Hf.
    split; [done|]. split; [done|].
    unfold relay_calls, plans_stored. rewrite !omap_app.
    unfold call_errors. by destruct (relay_text env p).
Qed.

Lemma generatePlan_reads_prompt_fields_witness :
  wizard (generatePlan (via_relay answers_42 Runtime.JSON_parse) acme start).2
  = wizard (generatePlan (via_relay answers_42 Runtime.JSON_parse)
              (<[ "kpis" := Tags ["revenue"] ]> acme) start).2.
Proof.
  apply (generatePlan_reads_prompt_fields (via_relay answers_42 Runtime.JSON_parse)
           acme (<[ "kpis" := Tags ["revenue"] ]> acme) start).
  intros k Hk. apply list_elem_of_In in Hk. cbn in Hk.
  destruct Hk as [<-|[<-|[<-|[<-|[<-|[<-|[<-|[<-|[]]]]]]]]]; reflexivity.
Defined.

Lemma parsed_reply_via_relay renv parse key prompt blocks :
  ClaudeRoute.configured_key renv = Some key →
  ClaudeRoute.provider renv key prompt = ClaudeRoute.Message blocks →
  parsed_reply (via_relay renv parse) prompt = parse (ClaudeRoute.first_text blocks).
Proof.
  intros Hk Hp. unfold parsed_reply, relay_text, via_relay. cbn [api_claude JSON_parse].
  unfold ClaudeRoute.POST, ClaudeRoute.attempt. by rewrite Hk, Hp.
Qed.

(** X11. From provider to stored plan.  When a key is configured and the
    provider answers the prompt of the record with a message whose first
    block has a text that is not empty, the plan that [generatePlan] stores
    is what [JSON.parse] makes of that text, and the fallback plan when that
    text is not JSON. *)
Theorem relayed_text_is_parsed (renv : ClaudeRoute.Env)
    (parse : string → option JsonValue) (key prompt t : string)
    (b : ClaudeRoute.ContentBlock) (rest : list ClaudeRoute.ContentBlock)
    (data : AnswerRecord) (w : World) :
  ClaudeRoute.configured_key renv = Some key →
  build_prompt data = inr prompt →
  ClaudeRoute.provider renv key prompt = ClaudeRoute.Message (b :: rest) →
  ClaudeRoute.text b = Some t →
  t ≠ "" →
  generatedPlan (wizard (after (generatePlan (via_relay renv parse) data) w))
  = default (fallbackPlan data) (parse t).
Proof.
  intros Hk Hb Hp Ht Hne. unfold after.
  rewrite (generatePlan_run _ data w prompt Hb). cbn zeta. cbn [snd wizard generatedPlan].
  rewrite (parsed_reply_via_relay renv parse key prompt (b :: rest) Hk Hp).
  cbn [ClaudeRoute.first_text]. rewrite Ht.
  by destruct (String.eqb_spec t "").
Qed.

Lemma relayed_text_is_parsed_witness :
  generatedPlan (wizard (after (generatePlan (via_relay answers_42 Runtime.JSON_parse) acme) start))
  = JNum "42".
Proof.
  refine (relayed_text_is_parsed answers_42 Runtime.JSON_parse "sk-test"
            (prompt_text acme "None specified" "General improvement") "42"
            (ClaudeRoute.mkBlock (Some "42")) [] acme start _ _ _ _ _);
    [reflexivity..|discriminate].
Defined.

(** X12. A reply of the provider without text ends in the fallback plan.
    When the provider's message has no block, or a first block without text
    or with an empty one, the relay answers 200 with the placeholder
    "No response generated"; that text is not JSON, so with the standard
    [JSON.parse] the client stores the fallback plan. *)
Theorem textless_reply_gives_fallback (renv : ClaudeRoute.Env)
    (key prompt : string) (blocks : list ClaudeRoute.ContentBlock)
    (data : AnswerRecord) (w : World) :
  ClaudeRoute.configured_key renv = Some key →
  build_prompt data = inr prompt →
  ClaudeRoute.provider renv key prompt = ClaudeRoute.Message blocks →
  head blocks ≫= ClaudeRoute.text = None ∨ head blocks ≫= ClaudeRoute.text = Some "" →
  (ClaudeRoute.POST renv (ClaudeRoute.Body prompt)).1
  = mkResponse 200 (mkApiData true (Some "No response generated") None false) ∧
  generatedPlan
    (wizard (after (generatePlan (via_relay renv Runtime.JSON_parse) data) w))
  = fallbackPlan data.
Proof.
  intros Hk Hb Hp Ht.
  assert (ClaudeRoute.first_text blocks = "No response generated") as Hf.
  { destruct blocks as [|[[t|]] rest]; cbn in *; [done| |done].
    destruct Ht as [[=]|[= ->]]. done. }
  split.
  - unfold ClaudeRoute.POST, ClaudeRoute.attempt. by rewrite Hk, Hp, Hf.
  - unfold after. rewrite (generatePlan_run _ data w prompt Hb).
    cbn zeta. cbn [snd wizard generatedPlan].
    by rewrite (parsed_reply_via_relay renv _ key prompt blocks Hk Hp), Hf.
Qed.

Lemma textless_reply_gives_fallback_witness :
  generatedPlan
    (wizard (after (generatePlan
                      (via_relay (ClaudeRoute.mkEnv (Some "sk-test")
                                    (λ _ _, ClaudeRoute.Message []))
                         Runtime.JSON_parse) acme) start))
  = fallbackPlan acme.
Proof.
  refine (proj2 (textless_reply_gives_fallback
            (ClaudeRoute.mkEnv (Some "sk-test") (λ _ _, ClaudeRoute.Message []))
            "sk-test" (prompt_text acme "None specified" "General improvement") []
            acme start _ _ _ _)); [reflexivity..|by left].
Defined.

End ClientMore.

(** * Further properties of the form and of the controller *)

Section FormMore.
Import Wizard.

Lemma after_updateFormData (newData : AnswerRecord) (w : World) :
  after (updateFormData newData) w =
    mkWorld
      (mkState (currentStep (wizard w)) (merge (formData (wizard w)) newData)
         (generatedPlan (wizard w)) (loading (wizard w)))
      (log w).
Proof. reflexivity. Qed.

(** X13. Updates of the form data compose.  Two updates in a row are one
    update with the merge of the two, where the later wins on a common key;
    the empty update changes nothing; an update made twice is made once;
    updates of disjoint sets of keys commute.  An update touches nothing but
    [formData]. *)
Theorem updates_compose (w : World) (a b : AnswerRecord) :
  after (updateFormData b) (after (updateFormData a) w)
  = after (updateFormData (merge a b)) w ∧
  after (updateFormData ∅) w = w ∧
  after (updateFormData a) (after (updateFormData a) w) = after (updateFormData a) w ∧
  (a ##ₘ b →
   after (updateFormData b) (after (updateFormData a) w)
   = after (updateFormData a) (after (updateFormData b) w)) ∧
  (∀ k v, b !! k = Some v →
     formData (wizard (after (updateFormData b) (after (updateFormData a) w))) !! k
     = Some v) ∧
  (∀ k, b !! k = None →
     formData (wizard (after (updateFormData b) (after (updateFormData a) w))) !! k
     = formData (wizard (after (updateFormData a) w)) !! k).
Proof.
  rewrite !after_updateFormData. cbn [wizard log currentStep formData generatedPlan loading].
  unfold merge. split; [|split; [|split; [|split; [|split]]]].
  - by rewrite (assoc_L (∪)).
  - rewrite (left_id_L ∅ (∪)). by destruct w as [[] ?].
  - by rewrite (assoc_L (∪)), (idemp_L (∪)).
  - intros Hd. by rewrite !(assoc_L (∪)), (map_union_comm b a).
  - intros k v Hk. by apply lookup_union_Some_l.
  - intros k Hk. by apply lookup_union_r.
Qed.

Lemma updates_compose_witness :
  after (updateFormData {[ "budget" := Text "$5K-15K" ]})
    (after (updateFormData {[ "industry" := Text "Retail" ]}) start)
  = after (updateFormData {[ "industry" := Text "Retail" ]})
      (after (updateFormData {[ "budget" := Text "$5K-15K" ]}) start).
Proof.
  refine (proj1 (proj2 (proj2 (proj2 (updates_compose start
            {[ "industry" := Text "Retail" ]} {[ "budget" := Text "$5K-15K" ]})))) _).
  apply map_disjoint_singleton_l_2. reflexivity.
Defined.

(** ** The tags field *)

Lemma has_tag_false (value : option (list string)) (t : string) :
  has_tag value t = false ↔ t ∉ default [] value.
Proof.
  destruct value as [l|]; cbn [has_tag default].
  - rewrite <- not_true_iff_false, existsb_exists. split.
    + intros H Hin. apply H. exists t.
      split; [by apply list_elem_of_In|apply String.eqb_refl].
    + intros H (x & Hx & Heq). apply String.eqb_eq in Heq as ->.
      by apply H, list_elem_of_In.
  - split; [intros _; apply not_elem_of_nil|done].
Qed.

Lemma tags_onRemove_delete (tags : list string) (index : nat) :
  tags_onRemove tags index = delete index tags.
Proof. unfold tags_onRemove. by apply filter_index_delete. Qed.

Lemma tags_onKeyPress_Some (trim : string → string)
    (value : option (list string)) (key input : string) (l : list string) :
  tags_onKeyPress trim value key input = Some l ↔
  key = "Enter" ∧ trim input ≠ "" ∧ (trim input ∉ default [] value) ∧
  l = default [] value ++ [trim input].
Proof.
  unfold tags_onKeyPress.
  destruct (String.eqb_spec key "Enter") as [->|Hk];
    [|split; [done|by intros (? & _)]].
  destruct (String.eqb_spec (trim input) "") as [He|He]; cbn [negb andb].
  - split; [done|by intros (_ & ? & _)].
  - destruct (has_tag value (trim input)) eqn:Hh; cbn [negb].
    + split; [done|]. intros (_ & _ & Hn & _).
      apply has_tag_false in Hn. congruence.
    + apply has_tag_false in Hh. split.
      * by intros [= <-].
      * by intros (_ & _ & _ & ->).
Qed.

(** X14. The key handler of a tags field calls [onChange] exactly when the
    key is Enter, the trimmed input is not empty and it is not yet in the
    list; it then passes the list with the trimmed input added at the end.
    Any other key, a blank input and a tag already present leave the list as
    it is. *)
Theorem tags_onKeyPress_spec (trim : string → string)
    (value : option (list string)) (key input : string) :
  (∀ l, tags_onKeyPress trim value key input = Some l ↔
        key = "Enter" ∧ trim input ≠ "" ∧ (trim input ∉ default [] value) ∧
        l = default [] value ++ [trim input]) ∧
  (key ≠ "Enter" → tags_onKeyPress trim value key input = None) ∧
  (trim input = "" → tags_onKeyPress trim value key input = None) ∧
  (trim input ∈ default [] value → tags_onKeyPress trim value key input = None).
Proof.
  split; [intros l; apply tags_onKeyPress_Some|].
  split; [|split]; intros H;
    (destruct (tags_onKeyPress trim value key input) as [l|] eqn:E; [|done];
     apply tags_onKeyPress_Some in E as (? & ? & ? & _); done).
Qed.

Lemma tags_onKeyPress_spec_witness :
  tags_onKeyPress Runtime.trim None "a" "churn" = None ∧
  tags_onKeyPress Runtime.trim (Some ["churn"]) "Enter" "   " = None ∧
  tags_onKeyPress Runtime.trim (Some ["churn"]) "Enter" "churn " = None.
Proof.
  split; [|split].
  - destruct (tags_onKeyPress_spec Runtime.trim None "a" "churn") as (_ & H & _).
    apply H. discriminate.
  - destruct (tags_onKeyPress_spec Runtime.trim (Some ["churn"]) "Enter" "   ")
      as (_ & _ & H & _).
    apply H. reflexivity.
  - destruct (tags_onKeyPress_spec Runtime.trim (Some ["churn"]) "Enter" "churn ")
      as (_ & _ & _ & H).
    apply H. apply (bool_decide_unpack _). by vm_compute.
Defined.

Lemma tags_onKeyPress_clean (trim : string → string) (value : option (list string))
    (key input : string) (l : list string) :
  clean (default [] value) →
  tags_onKeyPress trim value key input = Some l → clean l.
Proof.
  intros [Hnd Hne] (_ & He & Hn & ->)%tags_onKeyPress_Some. split.
  - apply NoDup_app. split; [done|]. split; [|apply NoDup_singleton].
    intros x Hx ->%list_elem_of_singleton. done.
  - rewrite elem_of_app, list_elem_of_singleton.
    intros [H|H]; [done|]. by apply He.
Qed.

Lemma tags_onRemove_clean (tags : list string) (index : nat) :
  clean tags → clean (tags_onRemove tags index).
Proof.
  intros [Hnd Hne]. rewrite tags_onRemove_delete. split.
  - eapply sublist_NoDup; [done|apply sublist_delete].
  - intros Hin. apply Hne. by eapply list_elem_of_delete_inv.
Qed.

(** X15. The tags field keeps its list clean.  If the list has no tag twice
    and no empty tag, so has every list that the key handler or a remove
    button passes to [onChange]; starting from no list, the field therefore
    never holds a duplicate or an empty tag. *)
Theorem tags_stay_clean (trim : string → string) (value : option (list string))
    (key input : string) (index : nat) :
  clean (default [] value) →
  (∀ l, tags_onKeyPress trim value key input = Some l → clean l) ∧
  clean (tags_onRemove (default [] value) index).
Proof.
  intros Hc. split.
  - intros l. by apply tags_onKeyPress_clean.
  - by apply tags_onRemove_clean.
Qed.

Lemma tags_stay_clean_witness :
  clean (tags_onRemove ["churn"; "hiring"] 0).
Proof.
  apply (tags_stay_clean Runtime.trim (Some ["churn"; "hiring"]) "Enter" "x" 0).
  split; apply (bool_decide_unpack _); by vm_compute.
Defined.

(** X16. Adding and removing tags.  Removing the tag that was just added
    gives the list back; a remove at an index beyond the list changes
    nothing; a remove at an index of the list takes away exactly the tag at
    that index: the list is one shorter, and together with that tag it is a
    rearrangement of the old one. *)
Theorem tags_add_remove (tags : list string) (t : string) (index : nat) :
  tags_onRemove (tags ++ [t]) (length tags) = tags ∧
  ((length tags ≤ index)%nat → tags_onRemove tags index = tags) ∧
  (∀ x, tags !! index = Some x →
     length (tags_onRemove tags index) = pred (length tags) ∧
     x :: tags_onRemove tags index ≡ₚ tags).
Proof.
  rewrite !tags_onRemove_delete. split; [|split].
  - rewrite delete_take_drop, take_app_length.
    rewrite drop_app_ge by lia.
    replace (S (length tags) - length tags)%nat with 1%nat by lia.
    cbn. apply app_nil_r.
  - intros H. rewrite delete_take_drop, take_ge by lia.
    rewrite drop_ge by lia. apply app_nil_r.
  - intros x Hx. split.
    + rewrite length_delete; [lia|]. by exists x.
    + symmetry. by apply delete_Permutation.
Qed.

Lemma tags_add_remove_witness :
  tags_onRemove ["churn"; "hiring"] 5 = ["churn"; "hiring"] ∧
  length (tags_onRemove ["churn"; "hiring"] 1) = 1%nat.
Proof.
  destruct (tags_add_remove ["churn"; "hiring"] "x" 5) as (_ & H & _).
  destruct (tags_add_remove ["churn"; "hiring"] "x" 1) as (_ & _ & H').
  split; [apply H; cbn; lia|].
  by destruct (H' "hiring" eq_refl) as [-> _].
Defined.

(** ** Moving between the steps *)

Lemma world_eta (w : World) :
  mkWorld
    (mkState (currentStep (wizard w)) (formData (wizard w))
       (generatedPlan (wizard w)) (loading (wizard w)))
    (log w) = w.
Proof. by destruct w as [[] ?]. Qed.

(** X17. Advance and retreat undo each other.  On a step below the last,
    advancing and then retreating gives back the world as it was; on a step
    above the first, up to the last, so does retreating and then advancing. *)
Theorem advance_retreat_round_trip (env : Env) (w : World) :
  (1 ≤ currentStep (wizard w) < N →
   after handlePrevious (after (handleNext env) w) = w) ∧
  (1 < currentStep (wizard w) ≤ N →
   after (handleNext env) (after handlePrevious w) = w).
Proof.
  split.
  - intros [H1 HN]. unfold after at 2.
    rewrite (handleNext_below env w HN). cbn [snd].
    unfold after. rewrite handlePrevious_above by (cbn; lia). cbn.
    replace (currentStep (wizard w) + 1 - 1) with (currentStep (wizard w)) by lia.
    apply world_eta.
  - intros [H1 HN]. unfold after at 2.
    rewrite (handlePrevious_above w H1). cbn [snd].
    unfold after. rewrite handleNext_below by (cbn; lia). cbn.
    replace (currentStep (wizard w) - 1 + 1) with (currentStep (wizard w)) by lia.
    apply world_eta.
Qed.

Lemma advance_retreat_round_trip_witness :
  let env := via_relay no_credential Runtime.JSON_parse in
  let w := mkWorld (mkState 3 acme JNull false) [] in
  after handlePrevious (after (handleNext env) w) = w ∧
  after (handleNext env) (after handlePrevious w) = w.
Proof.
  cbn zeta.
  destruct (advance_retreat_round_trip (via_relay no_credential Runtime.JSON_parse)
              (mkWorld (mkState 3 acme JNull false) [])) as [H1 H2].
  split; [apply H1|apply H2]; cbn; unfold N; cbn; lia.
Defined.

Lemma run_untouched env ops : ∀ w k,
  0 ≤ k →
  untouched k w →
  k + Z.of_nat (advances ops) < N →
  untouched (k + Z.of_nat (advances ops)) (run env ops w).
Proof.
  induction ops as [|op ops IH]; intros w k Hk Hw Hlt.
  - cbn. by rewrite Z.add_0_r.
  - destruct Hw as (Hlog & Hplan & Hload & Hstep).
    unfold run. cbn [foldl]. fold (run env ops (after (perform env op) w)).
    destruct op as [| |newData].
    + unfold advances in *. cbn [List.filter is_advance length] in *.
      replace (k + Z.of_nat (S (length (List.filter is_advance ops))))
        with ((k + 1) + Z.of_nat (length (List.filter is_advance ops))) in * by lia.
      apply IH; [lia| |done].
      cbn [perform]. unfold after. rewrite handleNext_below by lia.
      unfold untouched. cbn [snd wizard log currentStep generatedPlan loading].
      repeat split; try done; lia.
    + unfold advances in *. cbn [List.filter is_advance] in *.
      apply IH; [done| |done].
      cbn [perform]. unfold after.
      destruct (decide (1 < currentStep (wizard w))) as [Hgt|Hle].
      * rewrite (handlePrevious_above w Hgt).
        unfold untouched. cbn [snd wizard log currentStep generatedPlan loading].
        repeat split; try done; lia.
      * by rewrite (handlePrevious_first w Hle).
    + unfold advances in *. cbn [List.filter is_advance] in *.
      apply IH; [done| |done]. cbn [perform]. by rewrite after_updateFormData.
Qed.

(** X18. No plan is generated before the Nth advance.  After any sequence of
    advances, retreats and field updates from the initial world that contains
    fewer than N advances, nothing has been sent or logged, no plan is stored
    and [loading] is false. *)
Theorem generation_needs_N_advances (env : Env) (ops : list Operation) :
  Z.of_nat (advances ops) < N →
  log (run env ops start) = [] ∧
  generatedPlan (wizard (run env ops start)) = JNull ∧
  loading (wizard (run env ops start)) = false ∧
  1 ≤ currentStep (wizard (run env ops start)) ≤ 1 + Z.of_nat (advances ops).
Proof.
  intros H. apply (run_untouched env ops start 0); [done| |done].
  by unfold untouched.
Qed.

Lemma generation_needs_N_advances_witness :
  log (run (via_relay answers_42 Runtime.JSON_parse)
         [Advance; Advance; Retreat; UpdateField acme; Advance; Advance] start) = [].
Proof.
  apply (generation_needs_N_advances (via_relay answers_42 Runtime.JSON_parse)
           [Advance; Advance; Retreat; UpdateField acme; Advance; Advance]).
  reflexivity.
Defined.

End FormMore.

(** * What the wizard renders *)

Section ViewMore.
Import Wizard WizardView.

Lemma step_cases (c : Z) : 1 ≤ c ≤ N → c = 1 ∨ c = 2 ∨ c = 3 ∨ c = 4 ∨ c = 5.
Proof. unfold N. cbn. lia. Qed.

(** X19. On every step from 1 to N the indicator marks exactly one step as
    current, the step the wizard is on: the steps before it are shown
    completed with a check mark and a green connector, it and the steps
    after it show their number, and the last step has no connector. *)
Theorem StepIndicator_marks_current (c : Z) :
  1 ≤ c ≤ N →
  let dots := StepIndicator businessWizardSteps c in
  circle <$> dots =
    replicate (Z.to_nat (c - 1)) Completed ++ [Current] ++
    replicate (Z.to_nat (N - c)) Upcoming ∧
  mark <$> dots =
    replicate (Z.to_nat (c - 1)) CheckMark ++ (Number <$> seqZ c (N - c + 1)) ∧
  connector <$> dots =
    replicate (Z.to_nat (c - 1)) (Some true) ++
    replicate (Z.to_nat (N - c)) (Some false) ++ [None] ∧
  length dots = Z.to_nat N.
Proof.
  intros Hc. destruct (step_cases c Hc) as [->|[->|[->|[->| ->]]]];
    cbn zeta; repeat split; reflexivity.
Qed.

Lemma StepIndicator_marks_current_witness :
  circle <$> StepIndicator businessWizardSteps 2
  = [Completed; Current; Upcoming; Upcoming; Upcoming].
Proof.
  destruct (StepIndicator_marks_current 2) as [H _]; [by vm_compute|].
  rewrite H. reflexivity.
Defined.

(** Every field of every step component. *)
Lemma rendered_field_cases (c : Z) (f : FormFieldProps) :
  f ∈ renderCurrentStep c →
  f ∈ BusinessStep1 ++ BusinessStep2 ++ BusinessStep3 ++ BusinessStep4 ++ BusinessStep5.
Proof.
  unfold renderCurrentStep. rewrite !elem_of_app. repeat case_match; tauto.
Qed.

Lemma all_fields_facts :
  Forall (λ f,
    writes f = reads f ∧
    (is_tags_field f = true → reads f ∈ array_fields ∧ reads f ∉ string_fields) ∧
    (is_tags_field f = false → reads f ∈ string_fields ∧ reads f ∉ array_fields) ∧
    type f ∈ ["text"; "select"; "textarea"; "tags"])
    (BusinessStep1 ++ BusinessStep2 ++ BusinessStep3 ++ BusinessStep4 ++ BusinessStep5).
Proof.
  repeat (apply Forall_cons; split;
    [split; [reflexivity|];
     split; [intros H; try discriminate H;
             split; apply (bool_decide_unpack _); by vm_compute|];
     split; [intros H; try discriminate H;
             split; apply (bool_decide_unpack _); by vm_compute|];
     apply (bool_decide_unpack _); by vm_compute|]).
  apply Forall_nil_2.
Qed.

Lemma rendered_field_facts (c : Z) (f : FormFieldProps) :
  f ∈ renderCurrentStep c →
  writes f = reads f ∧
  (is_tags_field f = true → reads f ∈ array_fields ∧ reads f ∉ string_fields) ∧
  (is_tags_field f = false → reads f ∈ string_fields ∧ reads f ∉ array_fields) ∧
  type f ∈ ["text"; "select"; "textarea"; "tags"].
Proof.
  intros Hf%rendered_field_cases.
  by apply (proj1 (Forall_forall _ _) all_fields_facts).
Qed.

(** X20. The step table, the step components and the schema agree.  On each
    step the component shows exactly the fields that the step's entry in
    [businessWizardSteps] lists, in that order, and the heading is that
    entry.  Every field writes the member it reads; a tags field holds one of
    the array members of the request schema and every other field one of its
    string members; and the five steps together collect each of the
    seventeen members of the schema exactly once. *)
Theorem steps_and_components_agree :
  (∀ c, 1 ≤ c ≤ N →
     ∃ s, heading c = Some s ∧ id s = c ∧
          reads <$> renderCurrentStep c = fields s) ∧
  (∀ c f, f ∈ renderCurrentStep c →
     writes f = reads f ∧
     (is_tags_field f = true → reads f ∈ array_fields ∧ reads f ∉ string_fields) ∧
     (is_tags_field f = false → reads f ∈ string_fields ∧ reads f ∉ array_fields) ∧
     type f ∈ ["text"; "select"; "textarea"; "tags"]) ∧
  (∀ c, c < 1 ∨ N < c → heading c = None ∧ renderCurrentStep c = BusinessStep1) ∧
  mjoin (fields <$> businessWizardSteps) ≡ₚ string_fields ++ array_fields ∧
  NoDup (mjoin (fields <$> businessWizardSteps)).
Proof.
  split; [|split; [|split; [|split]]].
  - intros c Hc. destruct (step_cases c Hc) as [->|[->|[->|[->| ->]]]];
      eexists; repeat split; reflexivity.
  - apply rendered_field_facts.
  - intros c Hc. unfold heading, renderCurrentStep. split.
    + destruct (Z.ltb_spec (c - 1) 0) as [|Hge]; [done|].
      apply lookup_ge_None_2. change (length businessWizardSteps) with 5%nat.
      unfold N in Hc. cbn in Hc. lia.
    + unfold N in Hc. cbn in Hc. repeat case_match; try done; lia.
  - apply (bool_decide_unpack _). by vm_compute.
  - apply (bool_decide_unpack _). by vm_compute.
Qed.

Lemma steps_and_components_agree_witness :
  reads <$> renderCurrentStep 4 = ["aiGoals"; "budget"; "timeline"; "teamReadiness"].
Proof.
  destruct steps_and_components_agree as (H & _).
  destruct (H 4) as (s & Hs & _ & ->); [by vm_compute|].
  by injection Hs as <-.
Defined.

End ViewMore.

(** * The assistant *)

Section AssistantMore.
Import Wizard Assistant.

Lemma generateSuggestions_run env context a w :
  generateSuggestions env context (a, w) =
    (Ok tt,
     (mkAssistant
        (match parsed_reply env (prompt context) with
         | Some v => array_or_empty v
         | None => fallback_suggestions
         end) false,
      mkWorld (wizard w)
        (log w ++ [Fetch (prompt context)] ++ call_errors env (prompt context)))).
Proof.
  unfold generateSuggestions, Assistant.try_finally, Assistant.try_catch, lift,
    Assistant.setLoading, setSuggestions.
  unfold mbind, M_bind. cbn [fst snd].
  rewrite callClaudeAPI_run.
  unfold parsed_reply, call_errors, relay_text, parse.
  destruct (api_claude env (prompt context)) as [e|e|d]; cbn; [done..|].
  destruct (success d); cbn.
  - unfold mret, mthrow, Js_ret, Js_throw.
    destruct (JSON_parse env (default "undefined" (content d))); cbn;
      by rewrite ?app_nil_r.
  - done.
Qed.

(** X21. [generateSuggestions] never raises, whatever the relay does.  It
    sends one request, leaves the wizard's state alone and ends with
    [loading] reset.  The suggestions are the elements of the array that the
    relay's text parses to, none when the text parses to something that is
    not an array, and the three built-in suggestions when the call fails or
    the text is not JSON. *)
Theorem generateSuggestions_outcome (env : Env) (context : string)
    (a : AssistantState) (w : World) :
  let r := generateSuggestions env context (a, w) in
  r.1 = Ok tt ∧
  loading r.2.1 = false ∧
  wizard r.2.2 = wizard w ∧
  (∃ fx, log r.2.2 = log w ++ fx ∧ relay_calls fx = [prompt context] ∧
         plans_stored fx = [] ∧ completions fx = []) ∧
  (parsed_reply env (prompt context) = None →
   suggestions r.2.1 = fallback_suggestions) ∧
  (∀ l, parsed_reply env (prompt context) = Some (JArr l) → suggestions r.2.1 = l) ∧
  (∀ v, parsed_reply env (prompt context) = Some v → (∀ l, v ≠ JArr l) →
        suggestions r.2.1 = []) ∧
  length fallback_suggestions = 3%nat.
Proof.
  cbn zeta. rewrite generateSuggestions_run. cbn [fst snd].
  split; [done|]. split; [done|]. split; [done|]. split.
  { eexists. split; [reflexivity|]. unfold call_errors.
    by destruct (relay_text env (prompt context)). }
  split; [by intros ->|]. split; [by intros l ->|].
  split; [|done].
  intros v -> Hv. destruct v; try done. by destruct (Hv items).
Qed.

Lemma generateSuggestions_outcome_witness :
  suggestions
    (generateSuggestions (via_relay overloaded Runtime.JSON_parse) "{}"
       (Assistant.initial, start)).2.1
  = fallback_suggestions.
Proof.
  destruct (generateSuggestions_outcome (via_relay overloaded Runtime.JSON_parse)
              "{}" Assistant.initial start) as (_ & _ & _ & _ & H & _).
  apply H. reflexivity.
Defined.

End AssistantMore.

(** * The platform *)

Section PlatformMore.
Import Wizard.

Lemma valid_record_spec (d : AnswerRecord) :
  valid_record d = true ↔
  (∀ k, k ∈ string_fields → is_text (d !! k) = true) ∧
  (∀ k, k ∈ array_fields → is_tags (d !! k) = true).
Proof.
  unfold valid_record. rewrite andb_true_iff, !forallb_forall.
  split; intros [H1 H2]; split; intros k Hk.
  - by apply H1, list_elem_of_In.
  - by apply H2, list_elem_of_In.
  - by apply H1, list_elem_of_In.
  - by apply H2, list_elem_of_In.
Qed.

Lemma valid_update_text (d : AnswerRecord) (k s : string) :
  valid_record d = true → k ∉ array_fields →
  valid_record (merge d {[ k := Text s ]}) = true.
Proof.
  rewrite !valid_record_spec. intros [H1 H2] Hk. split; intros k' Hk'.
  - rewrite merge_lookup. destruct (decide (k = k')) as [->|Hne].
    + by rewrite lookup_singleton_eq.
    + rewrite lookup_singleton_ne by done. by apply H1.
  - rewrite merge_lookup. destruct (decide (k = k')) as [->|Hne]; [done|].
    rewrite lookup_singleton_ne by done. by apply H2.
Qed.

Lemma valid_update_tags (d : AnswerRecord) (k : string) (l : list string) :
  valid_record d = true → k ∉ string_fields →
  valid_record (merge d {[ k := Tags l ]}) = true.
Proof.
  rewrite !valid_record_spec. intros [H1 H2] Hk. split; intros k' Hk'.
  - rewrite merge_lookup. destruct (decide (k = k')) as [->|Hne]; [done|].
    rewrite lookup_singleton_ne by done. by apply H1.
  - rewrite merge_lookup. destruct (decide (k = k')) as [->|Hne].
    + by rewrite lookup_singleton_eq.
    + rewrite lookup_singleton_ne by done. by apply H2.
Qed.

Lemma tidy_start : tidy start.
Proof.
  unfold tidy, start, initial. cbn. repeat split; done.
Qed.

(** A valid record can be rendered on every step. *)
Lemma valid_renders (d : AnswerRecord) (c : Z) :
  valid_record d = true → WizardView.renders d (WizardView.renderCurrentStep c) = true.
Proof.
  intros [_ Hv]%valid_record_spec. unfold WizardView.renders.
  apply forallb_forall. intros f Hf%list_elem_of_In.
  destruct (WizardView.is_tags_field f) eqn:Ht; [|done].
  destruct (rendered_field_facts c f Hf) as (_ & Ha & _).
  destruct (Ha Ht) as [Hin _]. specialize (Hv _ Hin).
  by destruct (d !! WizardView.reads f) as [[s|l]|].
Qed.

Lemma tidy_form_shown nonzero w :
  tidy w → WizardView.form_shown nonzero (wizard w) = true.
Proof.
  intros (Hv & _ & _ & _ & Hp & _). unfold WizardView.form_shown.
  rewrite Hp. cbn. by apply valid_renders.
Qed.

(** A field update keeps a world tidy when it keeps the record valid and
    clean. *)
Lemma tidy_update (w : World) (k : string) (v : FieldValue) :
  tidy w →
  valid_record (merge (formData (wizard w)) {[ k := v ]}) = true →
  (∀ l, v = Tags l → clean l) →
  tidy (after (updateFormData {[ k := v ]}) w).
Proof.
  intros (Hv & Hc & Hs & Hl & Hp & Hlog) Hv' Hc'.
  rewrite after_updateFormData.
  unfold tidy. cbn [wizard log currentStep formData generatedPlan loading].
  split; [done|]. split; [|done].
  intros k' l. rewrite merge_lookup. destruct (decide (k = k')) as [->|Hne].
  - rewrite lookup_singleton_eq. intros [= ->]. by apply Hc'.
  - rewrite lookup_singleton_ne by done. apply Hc.
Qed.

Lemma tags_value_clean (w : World) (k : string) (value : option (list string)) :
  tidy w →
  WizardView.tags_value (formData (wizard w) !! k) = Some value →
  clean (default [] value).
Proof.
  intros (_ & Hc & _) Hval.
  destruct (formData (wizard w) !! k) as [[s|l]|] eqn:E; cbn in Hval.
  - destruct (String.eqb s ""); [|done]. injection Hval as <-.
    split; [apply NoDup_nil_2|apply not_elem_of_nil].
  - injection Hval as <-. by apply (Hc k).
  - injection Hval as <-. split; [apply NoDup_nil_2|apply not_elem_of_nil].
Qed.

(** What an event of the form does to a tidy world: it stays tidy and nothing
    is signalled, or it was the generation on the last step, which signals
    completion with the record. *)
Lemma dispatch_tidy trim nonzero env ev w w' :
  tidy w →
  WizardView.dispatch trim nonzero env ev w = Some w' →
  (tidy w' ∧ completions (drop (length (log w)) (log w')) = []) ∨
  (ev = WizardView.ClickNext ∧ currentStep (wizard w) = N ∧
   completions (drop (length (log w)) (log w')) = [formData (wizard w)]).
Proof.
  intros Hw. unfold WizardView.dispatch. rewrite (tidy_form_shown nonzero w Hw).
  assert (∀ nd, log (after (updateFormData nd) w) = log w) as Hlog by done.
  assert (∀ l : list Effect, completions (drop (length l) l) = []) as Hdrop.
  { intros l. by rewrite drop_all. }
  destruct ev as [i input|i key input|i index| |].
  - destruct (WizardView.renderCurrentStep (currentStep (wizard w)) !! i)
      as [f|] eqn:Hf; cbn [mbind option_bind]; [|done].
    destruct (WizardView.is_tags_field f) eqn:Ht; cbn [negb andb]; [done|].
    destruct (WizardView.admits f input); [|done]. intros [= <-].
    left. rewrite Hlog. split; [|apply Hdrop].
    apply list_elem_of_lookup_2 in Hf.
    destruct (rendered_field_facts _ f Hf) as (Hrw & _ & Hs & _).
    destruct (Hs Ht) as [_ Hnot]. rewrite <- Hrw in Hnot.
    apply tidy_update; [done| |done].
    apply valid_update_text; [apply Hw|done].
  - destruct (WizardView.renderCurrentStep (currentStep (wizard w)) !! i)
      as [f|] eqn:Hf; cbn [mbind option_bind]; [|done].
    destruct (WizardView.is_tags_field f) eqn:Ht; [|done].
    destruct (WizardView.tags_value (formData (wizard w) !! WizardView.reads f))
      as [value|] eqn:Hval; cbn [mbind option_bind]; [|done].
    destruct (tags_onKeyPress trim value key input) as [l|] eqn:Hk;
      cbn [fmap option_fmap option_map field_onChange]; intros [= <-]; left.
    + rewrite Hlog. split; [|apply Hdrop].
      apply list_elem_of_lookup_2 in Hf.
      destruct (rendered_field_facts _ f Hf) as (Hrw & Ha & _).
      destruct (Ha Ht) as [_ Hnot]. rewrite <- Hrw in Hnot.
      apply tidy_update; [done| |].
      * apply valid_update_tags; [apply Hw|done].
      * intros l' [= <-]. eapply tags_onKeyPress_clean; [|done].
        by eapply tags_value_clean.
    + split; [by destruct w|]. apply Hdrop.
  - destruct (WizardView.renderCurrentStep (currentStep (wizard w)) !! i)
      as [f|] eqn:Hf; cbn [mbind option_bind]; [|done].
    destruct (WizardView.is_tags_field f) eqn:Ht; [|done].
    destruct (WizardView.tags_value (formData (wizard w) !! WizardView.reads f))
      as [[l|]|] eqn:Hval; [|done..].
    destruct (index <? length l)%nat; [|done]. intros [= <-].
    left. rewrite Hlog. split; [|apply Hdrop].
    apply list_elem_of_lookup_2 in Hf.
    destruct (rendered_field_facts _ f Hf) as (Hrw & Ha & _).
    destruct (Ha Ht) as [_ Hnot]. rewrite <- Hrw in Hnot.
    apply tidy_update; [done| |].
    + apply valid_update_tags; [apply Hw|done].
    + intros l' [= <-]. apply tags_onRemove_clean.
      by apply (tags_value_clean w _ (Some l) Hw Hval).
  - destruct Hw as (Hv & Hc & Hs & Hl & Hp & Hps & Hco & Hre & Hlc).
    rewrite Hl. intros [= <-].
    destruct (decide (currentStep (wizard w) < N)) as [Hlt|Hge].
    + left. unfold after. rewrite (handleNext_below env w Hlt). cbn [snd log].
      split; [|apply Hdrop].
      unfold tidy. cbn [wizard log currentStep formData generatedPlan loading].
      split; [done|]. split; [exact Hc|]. repeat split; try done; lia.
    + right. split; [done|]. split; [lia|].
      unfold after. rewrite (handleNext_last env w Hge). unfold detached.
      destruct (build_prompt_valid _ Hv) as [p Hb].
      rewrite (generatePlan_run env _ w p Hb). cbn zeta. cbn [snd log].
      rewrite drop_app_length. unfold call_errors.
      by destruct (relay_text env p).
  - destruct (Z.eqb_spec (currentStep (wizard w)) 1) as [|Hne]; [done|].
    intros [= <-]. left.
    destruct Hw as (Hv & Hc & Hs & Hl & Hp & Hps & Hco & Hre & Hlc).
    unfold after. rewrite handlePrevious_above by lia. cbn [snd log].
    split; [|apply Hdrop].
    unfold tidy. cbn [wizard log currentStep formData generatedPlan loading].
    split; [done|]. split; [exact Hc|]. repeat split; try done; lia.
Qed.

Lemma deliver_nothing (w w' : World) (s : Platform.AppState) :
  completions (drop (length (log w)) (log w')) = [] → Platform.deliver w w' s = s.
Proof. unfold Platform.deliver. by intros ->. Qed.

Lemma deliver_one (w w' : World) (s : Platform.AppState) (d : AnswerRecord) :
  completions (drop (length (log w)) (log w')) = [d] →
  Platform.deliver w w' s = Platform.mkApp Platform.dashboard (Some d) None.
Proof. unfold Platform.deliver. by intros ->. Qed.

Lemma tidy_after_suggestions env context a w :
  tidy w →
  tidy (Assistant.generateSuggestions env context (a, w)).2.2 ∧
  Assistant.loading (Assistant.generateSuggestions env context (a, w)).2.1 = false.
Proof.
  intros (Hv & Hc & Hs & Hl & Hp & Hps & Hco & Hre & Hlc).
  rewrite generateSuggestions_run. cbn [fst snd]. split; [|done].
  unfold tidy. cbn [wizard log].
  unfold plans_stored, completions, rejections, loading_changes in *.
  rewrite !omap_app, Hps, Hco, Hre, Hlc. unfold call_errors.
  by destruct (relay_text env (Assistant.prompt context)).
Qed.

Lemma sound_initial : sound Platform.initial.
Proof.
  unfold sound, Platform.initial. cbn. split; [|done].
  split; [by intros [x [=]]|done].
Qed.

Lemma home_page_unmounted (s : Platform.AppState) :
  sound s → Platform.page (Platform.currentView s) ≠ Platform.WizardPage →
  Platform.mounted s = None.
Proof.
  intros (Hm & _) Hp. destruct (Platform.mounted s) as [m|] eqn:E; [|done].
  exfalso. apply Hp. by rewrite (proj1 Hm (mk_is_Some _ _ eq_refl)).
Qed.

Lemma dispatch_sound trim nonzero env ev s s' :
  sound s → Platform.dispatch trim nonzero env ev s = Some s' → sound s'.
Proof.
  intros Hs. pose proof Hs as (Hm & Hd & Hv & Hw).
  destruct ev as [| | |ev|context]; cbn [Platform.dispatch].
  - destruct (Platform.page (Platform.currentView s)) eqn:Hp; [|done..].
    intros [= <-]. unfold Platform.setCurrentView.
    rewrite (home_page_unmounted s Hs) by (rewrite Hp; done).
    unfold sound. cbn. split; [split; [done|by eexists]|].
    split; [done|]. split; [done|].
    intros w a [= <- <-]. split; [apply tidy_start|done].
  - destruct (Platform.page (Platform.currentView s)) eqn:Hp; [|done..].
    intros [= <-]. unfold sound. cbn.
    split; [split; [by intros [x [=]]|done]|]. done.
  - assert (sound (Platform.setCurrentView Platform.home s)) as Hhome.
    { unfold sound. cbn. split; [split; [by intros [x [=]]|done]|]. done. }
    by destruct (Platform.page (Platform.currentView s)); intros [= <-].
  - destruct (Platform.mounted s) as [[w a]|] eqn:E; cbn [mbind option_bind]; [|done].
    destruct (WizardView.dispatch trim nonzero env ev w) as [w'|] eqn:Hdis;
      cbn [mbind option_bind]; [|done].
    intros [= <-]. destruct (Hw w a eq_refl) as [Htidy Hload].
    destruct (dispatch_tidy trim nonzero env ev w w' Htidy Hdis)
      as [[Ht' Hco]|(_ & _ & Hco)].
    + rewrite (deliver_nothing _ _ _ Hco). unfold sound. cbn.
      split; [split; [intros _; apply Hm; by eexists|by eexists]|].
      split; [done|]. split; [done|]. by intros ? ? [= <- <-].
    + rewrite (deliver_one _ _ _ _ Hco). unfold sound. cbn.
      split; [split; [by intros [x [=]]|done]|].
      split; [by eexists|]. split; [|done].
      intros d [= <-]. apply Htidy.
  - destruct (Platform.mounted s) as [[w a]|] eqn:E; cbn [mbind option_bind]; [|done].
    destruct (WizardView.form_shown nonzero (wizard w) && negb (Assistant.loading a));
      [|done].
    destruct (Hw w a eq_refl) as [Htidy Hload].
    destruct (tidy_after_suggestions env context a w Htidy) as [Ht' Hl'].
    destruct (Assistant.generateSuggestions env context (a, w)) as [r [a' w']].
    intros [= <-]. unfold sound. cbn.
    split; [split; [intros _; apply Hm; by eexists|by eexists]|].
    split; [done|]. split; [done|]. by intros ? ? [= <- <-].
Qed.

Lemma reachable_sound trim nonzero env s :
  Platform.reachable trim nonzero env s → sound s.
Proof.
  induction 1 as [|s ev s' _ IH Hd]; [apply sound_initial|].
  by eapply dispatch_sound.
Qed.

(** X22. In every state that the platform can reach through its events, the
    wizard is mounted exactly while the wizard view is selected; the
    dashboard is shown only once a wizard has completed, and the completed
    record is valid; and a mounted wizard holds a valid record with clean tag
    lists and a step between 1 and N, has stored no plan and signalled no
    completion, and no promise of it was rejected: no event of the form can
    make [generatePlan] raise. *)
Theorem platform_stays_sound (trim : string → string) (nonzero : string → bool)
    (env : Env) (s : Platform.AppState) :
  Platform.reachable trim nonzero env s →
  (is_Some (Platform.mounted s) ↔ Platform.currentView s = Platform.business_wizard) ∧
  (Platform.currentView s = Platform.dashboard → is_Some (Platform.completedData s)) ∧
  (∀ d, Platform.completedData s = Some d → valid_record d = true) ∧
  (∀ w a, Platform.mounted s = Some (w, a) →
     valid_record (formData (wizard w)) = true ∧
     (∀ k l, formData (wizard w) !! k = Some (Tags l) → NoDup l ∧ "" ∉ l) ∧
     1 ≤ currentStep (wizard w) ≤ N ∧
     generatedPlan (wizard w) = JNull ∧
     plans_stored (log w) = [] ∧ completions (log w) = [] ∧
     rejections (log w) = []).
Proof.
  intros (Hm & Hd & Hv & Hw)%reachable_sound.
  split; [done|]. split; [done|]. split; [done|].
  intros w a E.
  destruct (Hw w a E) as [(H1 & H2 & H3 & H4 & H5 & H6 & H7 & H8 & _) H9].
  repeat split; try done; try apply H3; by apply (H2 k l).
Qed.

Lemma platform_stays_sound_witness :
  let s := Platform.mkApp Platform.business_wizard None
             (Some (mkWorld (mkState 2 ∅ JNull false) [], Assistant.initial)) in
  is_Some (Platform.mounted s) ↔ Platform.currentView s = Platform.business_wizard.
Proof.
  cbn zeta.
  apply (platform_stays_sound Runtime.trim (λ _, true)
           (via_relay overloaded Runtime.JSON_parse)).
  apply (Platform.reach_event _ _ _
           (Platform.mkApp Platform.business_wizard None
              (Some (start, Assistant.initial)))
           (Platform.InForm WizardView.ClickNext)); [|reflexivity].
  apply (Platform.reach_event _ _ _ Platform.initial Platform.ClickBusinessCard);
    [apply Platform.reach_initial|reflexivity].
Defined.

Lemma generate_on_last_step trim nonzero env w :
  tidy w → currentStep (wizard w) = N →
  ∃ w', WizardView.dispatch trim nonzero env WizardView.ClickNext w = Some w' ∧
        completions (drop (length (log w)) (log w')) = [formData (wizard w)].
Proof.
  intros Hw Hn. unfold WizardView.dispatch. rewrite (tidy_form_shown nonzero w Hw).
  destruct Hw as (Hv & _ & _ & Hl & _). rewrite Hl.
  eexists. split; [reflexivity|].
  unfold after. rewrite (handleNext_last env w) by lia. unfold detached.
  destruct (build_prompt_valid _ Hv) as [p Hb].
  rewrite (generatePlan_run env _ w p Hb). cbn zeta. cbn [snd log].
  rewrite drop_app_length. unfold call_errors.
  by destruct (relay_text env p).
Qed.

Lemma generatePlan_begin_run (data : AnswerRecord) (w : World) (p : string) :
  build_prompt data = inr p →
  Turns.generatePlan_begin data w =
    (Ok p,
     mkWorld (mkState (currentStep (wizard w)) (formData (wizard w))
                (generatedPlan (wizard w)) true)
       (log w ++ [SetLoading true; Fetch p])).
Proof.
  intros Hp. unfold Turns.generatePlan_begin. unfold_js. rewrite Hp. cbn.
  by rewrite <- app_assoc.
Qed.

Lemma generatePlan_settle_run (env : Env) (p : string) (data : AnswerRecord) (w : World) :
  let plan := default (fallbackPlan data) (parsed_reply env p) in
  Turns.generatePlan_settle env p data w =
    (Ok tt,
     mkWorld (mkState (currentStep (wizard w)) (formData (wizard w)) plan false)
       (log w ++ call_errors env p ++
          [SetGeneratedPlan plan; OnComplete data; SetLoading false])).
Proof.
  unfold parsed_reply, call_errors, relay_text.
  unfold Turns.generatePlan_settle, Turns.callClaudeAPI_answered. unfold_js.
  destruct (api_claude env p) as [e|e|d]; cbn;
    [by rewrite <- !app_assoc..|].
  destruct (success d); cbn.
  - destruct (JSON_parse env (default "undefined" (content d))); cbn;
      by rewrite <- !app_assoc.
  - destruct (fallback d); cbn; by rewrite <- !app_assoc.
Qed.

(** The two turns in a row are [generatePlan]. *)
Lemma generatePlan_two_turns (env : Env) (data : AnswerRecord) (w : World) :
  generatePlan env data w =
    (p ← Turns.generatePlan_begin data; Turns.generatePlan_settle env p data) w.
Proof.
  destruct (build_prompt data) as [e|p] eqn:Hp.
  - unfold Turns.generatePlan_begin. unfold_js. by rewrite Hp.
  - rewrite (generatePlan_run env data w p Hp).
    unfold mbind at 1. unfold Js_bind.
    rewrite (generatePlan_begin_run data w p Hp), generatePlan_settle_run.
    cbn zeta. cbn [wizard log currentStep formData].
    by rewrite <- app_assoc.
Qed.

(** While [loading] is set, the events of the form leave it set, store no
    plan and send nothing; a click on the next button is not among them. *)
Lemma dispatch_while_loading trim nonzero env ev w w' :
  loading (wizard w) = true →
  WizardView.dispatch trim nonzero env ev w = Some w' →
  ev ≠ WizardView.ClickNext ∧ loading (wizard w') = true ∧
  generatedPlan (wizard w') = generatedPlan (wizard w) ∧ log w' = log w.
Proof.
  intros Hl. unfold WizardView.dispatch.
  destruct (WizardView.form_shown nonzero (wizard w)); [|done].
  destruct ev as [i input|i key input|i index| |].
  - destruct (WizardView.renderCurrentStep (currentStep (wizard w)) !! i)
      as [f|]; cbn [mbind option_bind]; [|done].
    destruct (negb (WizardView.is_tags_field f) && WizardView.admits f input); [|done].
    by intros [= <-].
  - destruct (WizardView.renderCurrentStep (currentStep (wizard w)) !! i)
      as [f|]; cbn [mbind option_bind]; [|done].
    destruct (WizardView.is_tags_field f); [|done].
    destruct (WizardView.tags_value (formData (wizard w) !! WizardView.reads f))
      as [value|]; cbn [mbind option_bind]; [|done].
    destruct (tags_onKeyPress trim value key input) as [l|];
      cbn [fmap option_fmap option_map field_onChange]; by intros [= <-].
  - destruct (WizardView.renderCurrentStep (currentStep (wizard w)) !! i)
      as [f|]; cbn [mbind option_bind]; [|done].
    destruct (WizardView.is_tags_field f); [|done].
    destruct (WizardView.tags_value (formData (wizard w) !! WizardView.reads f))
      as [[l|]|]; [|done..].
    destruct (index <? length l)%nat; [|done]. by intros [= <-].
  - by rewrite Hl.
  - destruct (currentStep (wizard w) =? 1); [done|]. intros [= <-].
    unfold handlePrevious. unfold_js.
    by destruct (1 <? currentStep (wizard w)).
Qed.

Lemma events_while_loading trim nonzero env evs : ∀ w w',
  loading (wizard w) = true →
  Turns.events trim nonzero env evs w = Some w' →
  (WizardView.ClickNext ∉ evs) ∧ loading (wizard w') = true ∧
  generatedPlan (wizard w') = generatedPlan (wizard w) ∧ log w' = log w.
Proof.
  induction evs as [|ev rest IH]; intros w w' Hl Hev.
  - injection Hev as <-. split; [apply not_elem_of_nil|done].
  - cbn [Turns.events] in Hev.
    destruct (WizardView.dispatch trim nonzero env ev w) as [w1|] eqn:Hd; [|done].
    cbn [mbind option_bind] in Hev.
    destruct (dispatch_while_loading _ _ _ _ _ _ Hl Hd) as (Hne & Hl1 & Hp1 & Hlog1).
    destruct (IH _ _ Hl1 Hev) as (Hnot & Hl' & Hp' & Hlog').
    split; [|split; [done|split; congruence]].
    apply not_elem_of_cons. split; [congruence|done].
Qed.

(** X23. Generation ends on the dashboard.  Take a state of the platform
    between events, with no call in flight, in which the wizard is on its
    last step.  The generate button is there and enabled.  The click on it
    sets [loading] and sends one request, in the same turn.  While the
    request is in flight the button is disabled: the events of the form that
    can arrive leave [loading] set, store no plan and send nothing.  When the
    request is answered, whatever the answer and whatever the form has
    become by then, [generatePlan] stores a plan, signals completion once,
    with the record as it was at the click, and clears [loading]; and
    [handleBusinessComplete], in whatever state the platform is by then,
    selects the dashboard, unmounts the wizard and keeps that record.  The
    two turns in a row are [generatePlan], so that with no event in between
    the click leads to the dashboard with the record of the form. *)
Theorem generate_reaches_dashboard (trim : string → string)
    (nonzero : string → bool) (env : Env) (s : Platform.AppState)
    (w : World) (a : Assistant.AssistantState) :
  Platform.reachable trim nonzero env s →
  Platform.mounted s = Some (w, a) →
  currentStep (wizard w) = N →
  let data := formData (wizard w) in
  ∃ prompt,
    let plan := default (fallbackPlan data) (parsed_reply env prompt) in
    let sent := mkWorld (mkState N data JNull true)
                  (log w ++ [SetLoading true; Fetch prompt]) in
    WizardView.form_shown nonzero (wizard w) = true ∧
    loading (wizard w) = false ∧
    Turns.generatePlan_begin data w = (Ok prompt, sent) ∧
    (∀ evs w2, Turns.events trim nonzero env evs sent = Some w2 →
       (WizardView.ClickNext ∉ evs) ∧ loading (wizard w2) = true ∧
       generatedPlan (wizard w2) = JNull ∧ log w2 = log sent) ∧
    (∀ w2, Turns.generatePlan_settle env prompt data w2 =
       (Ok tt,
        mkWorld (mkState (currentStep (wizard w2)) (formData (wizard w2)) plan false)
          (log w2 ++ call_errors env prompt ++
             [SetGeneratedPlan plan; OnComplete data; SetLoading false]))) ∧
    (∀ w2, completions
             (drop (length (log w2))
                (log (after (Turns.generatePlan_settle env prompt data) w2)))
           = [data]) ∧
    (∀ s2, Platform.handleBusinessComplete data s2
           = Platform.mkApp Platform.dashboard (Some data) None) ∧
    (generatePlan env data w =
       (p ← Turns.generatePlan_begin data; Turns.generatePlan_settle env p data) w) ∧
    Platform.dispatch trim nonzero env (Platform.InForm WizardView.ClickNext) s
    = Some (Platform.mkApp Platform.dashboard (Some data) None).
Proof.
  intros (_ & _ & _ & Hw)%reachable_sound E Hn. cbn zeta.
  destruct (Hw w a E) as [Htidy _].
  pose proof Htidy as (Hv & _ & _ & Hl & Hplan & _).
  destruct (build_prompt_valid _ Hv) as [p Hp].
  exists p.
  split; [by apply tidy_form_shown|]. split; [done|].
  split; [by rewrite (generatePlan_begin_run _ w p Hp), Hn, Hplan|].
  split.
  { intros evs w2 Hev.
    apply events_while_loading in Hev as (H1 & H2 & H3 & H4); done. }
  split; [intros w2; apply generatePlan_settle_run|].
  split.
  { intros w2. unfold after. rewrite generatePlan_settle_run. cbn zeta.
    cbn [snd log]. rewrite drop_app_length. unfold call_errors.
    by destruct (relay_text env p). }
  split; [done|].
  split; [apply generatePlan_two_turns|].
  destruct (generate_on_last_step trim nonzero env w Htidy Hn) as (w' & Hd & Hco).
  cbn [Platform.dispatch]. rewrite E. cbn [mbind option_bind]. rewrite Hd.
  cbn [mbind option_bind]. by rewrite (deliver_one _ _ _ _ Hco).
Qed.

(** The wizard on its last step with an empty record, against a provider
    that refuses: a field is edited and the wizard is taken a step back while
    the request is in flight. *)
Lemma generate_reaches_dashboard_witness :
  let env := via_relay overloaded Runtime.JSON_parse in
  let w := mkWorld (mkState 5 ∅ JNull false) [] in
  ∃ prompt sent,
    Turns.generatePlan_begin ∅ w = (Ok prompt, sent) ∧
    (∀ w2, Turns.events Runtime.trim (λ _, true) env
             [WizardView.Change 0 "weekly"; WizardView.ClickPrevious] sent = Some w2 →
           loading (wizard w2) = true) ∧
    (∀ w2, completions
             (drop (length (log w2))
                (log (after (Turns.generatePlan_settle env prompt ∅) w2)))
           = [∅]) ∧
    Platform.dispatch Runtime.trim (λ _, true) env
      (Platform.InForm WizardView.ClickNext)
      (Platform.mkApp Platform.business_wizard None (Some (w, Assistant.initial)))
    = Some (Platform.mkApp Platform.dashboard (Some ∅) None).
Proof.
  cbn zeta.
  pose (env := via_relay overloaded Runtime.JSON_parse).
  pose (at_step := λ n : Z,
    Platform.mkApp Platform.business_wizard None
      (Some (mkWorld (mkState n ∅ JNull false) [], Assistant.initial))).
  assert (Platform.reachable Runtime.trim (λ _, true) env (at_step 1)) as R1.
  { apply (Platform.reach_event _ _ _ Platform.initial Platform.ClickBusinessCard);
      [apply Platform.reach_initial|reflexivity]. }
  assert (∀ n, Platform.reachable Runtime.trim (λ _, true) env (at_step n) →
               n = 1 ∨ n = 2 ∨ n = 3 ∨ n = 4 →
               Platform.reachable Runtime.trim (λ _, true) env (at_step (n + 1)))
    as Hnext.
  { intros n R Hn.
    apply (Platform.reach_event _ _ _ (at_step n)
             (Platform.InForm WizardView.ClickNext)); [exact R|].
    destruct Hn as [->|[->|[->| ->]]]; reflexivity. }
  assert (Platform.reachable Runtime.trim (λ _, true) env (at_step 5)) as R5.
  { apply (Hnext 4); [|tauto]. apply (Hnext 3); [|tauto].
    apply (Hnext 2); [|tauto]. apply (Hnext 1); [exact R1|tauto]. }
  destruct (generate_reaches_dashboard Runtime.trim (λ _, true) env (at_step 5)
              (mkWorld (mkState 5 ∅ JNull false) []) Assistant.initial
              R5 eq_refl eq_refl)
    as (prompt & _ & _ & Hb & Hfl & _ & Hco & _ & _ & Hd).
  exists prompt. eexists. split; [exact Hb|].
  split; [|split; [exact Hco|exact Hd]].
  intros w2 Hev. by destruct (Hfl _ _ Hev) as (_ & H & _).
Defined.

(** X24. Entering and leaving the wizard.  From every reachable state in
    which the business card can be clicked, the click mounts a wizard in its
    initial state: on step 1, with no answers and no suggestions, whatever
    was entered before.  Going back home unmounts the wizard, so its answers
    are gone, and keeps the completed data.  The AI tool card selects a view
    for which the platform still shows the home page and no wizard. *)
Theorem wizard_starts_fresh (trim : string → string) (nonzero : string → bool)
    (env : Env) (s s' : Platform.AppState) :
  Platform.reachable trim nonzero env s →
  (Platform.dispatch trim nonzero env Platform.ClickBusinessCard s = Some s' →
   s' = Platform.mkApp Platform.business_wizard (Platform.completedData s)
          (Some (start, Assistant.initial))) ∧
  (Platform.dispatch trim nonzero env Platform.ClickBack s = Some s' →
   s' = Platform.mkApp Platform.home (Platform.completedData s) None) ∧
  (Platform.dispatch trim nonzero env Platform.ClickToolCard s = Some s' →
   s' = Platform.mkApp Platform.ai_tool_wizard (Platform.completedData s) None ∧
   Platform.page (Platform.currentView s') = Platform.HomePage) ∧
  (Platform.page (Platform.currentView s) = Platform.HomePage ↔
   is_Some (Platform.dispatch trim nonzero env Platform.ClickBusinessCard s)).
Proof.
  intros Hs%reachable_sound. cbn [Platform.dispatch].
  split; [|split; [|split]].
  - destruct (Platform.page (Platform.currentView s)) eqn:Hp; [|done..].
    intros [= <-]. unfold Platform.setCurrentView.
    by rewrite (home_page_unmounted s Hs) by (rewrite Hp; done).
  - by destruct (Platform.page (Platform.currentView s)); intros [= <-].
  - destruct (Platform.page (Platform.currentView s)); [|done..]. by intros [= <-].
  - destruct (Platform.page (Platform.currentView s)); split; try done;
      by intros [x [=]].
Qed.

Lemma wizard_starts_fresh_witness :
  Platform.setCurrentView Platform.business_wizard Platform.initial
  = Platform.mkApp Platform.business_wizard None (Some (start, Assistant.initial)) ∧
  is_Some (Platform.dispatch Runtime.trim (λ _, true)
             (via_relay overloaded Runtime.JSON_parse)
             Platform.ClickBusinessCard Platform.initial).
Proof.
  destruct (wizard_starts_fresh Runtime.trim (λ _, true)
              (via_relay overloaded Runtime.JSON_parse) Platform.initial
              (Platform.setCurrentView Platform.business_wizard Platform.initial)
              (Platform.reach_initial _ _ _)) as (H1 & _ & _ & H4).
  split; [apply H1; reflexivity|apply H4; reflexivity].
Defined.

End PlatformMore.
